(** * Digital Brain: the reconciliation layer of the note engine

    A shallow embedding of [src/app/main.py] and [src/app/ai_bridge.py]:
    the fuzzy matcher, the temporal extractor, the delete resolver, the
    Add pipeline with its dedup guard, the auto-summarizer and the reminder
    scheduler, together with the properties stated about them.

    Python [str] values are modelled by [string]: every [ascii] is one code
    point below 256 (Latin-1), which covers every literal of the source
    (['ma\xf1ana'] is the six characters m a U+00F1 a n a). *)

From Stdlib Require Import Strings.String Strings.Ascii Lists.List.
From Stdlib Require Import ZArith Arith Bool Lia.
Import ListNotations.

Open Scope string_scope.
Open Scope bool_scope.
Open Scope nat_scope.

(** ** Python string primitives *)

Module PyStr.

Definition code (c : ascii) : nat := nat_of_ascii c.

Definition between (lo hi n : nat) : bool := (lo <=? n) && (n <=? hi).

(** [str.isspace] on one character, which is also the class [\s] of a
    [str] pattern: TAB..CR, FS..US, space, NEL and NBSP. *)
Definition isspace (c : ascii) : bool :=
  let n := code c in
  between 9 13 n || between 28 32 n || (n =? 133) || (n =? 160).

(** [\d] of a [str] pattern: below 256 the only decimal digits are 0..9. *)
Definition isdigit (c : ascii) : bool := between 48 57 (code c).

(** [\w] of a [str] pattern: alphanumeric characters and the underscore. *)
Definition isword (c : ascii) : bool :=
  let n := code c in
  between 48 57 n || between 65 90 n || (n =? 95) || between 97 122 n
  || (n =? 170) || (n =? 178) || (n =? 179) || (n =? 181) || (n =? 185)
  || (n =? 186) || between 188 190 n || between 192 214 n
  || between 216 246 n || between 248 255 n.

(** [str.lower] on one character: A..Z and the Latin-1 capitals
    U+00C0..U+00DE (the multiplication sign U+00D7 apart). *)
Definition lower_char (c : ascii) : ascii :=
  let n := code c in
  if between 65 90 n || (between 192 222 n && negb (n =? 215))
  then ascii_of_nat (n + 32) else c.

Fixpoint lower (s : string) : string :=
  match s with
  | EmptyString => EmptyString
  | String c s' => String (lower_char c) (lower s')
  end.

Fixpoint lstrip (s : string) : string :=
  match s with
  | EmptyString => EmptyString
  | String c s' => if isspace c then lstrip s' else s
  end.

(** [s.rstrip(chars)], the characters to drop given as a class. *)
Fixpoint rstrip_by (p : ascii -> bool) (s : string) : string :=
  match s with
  | EmptyString => EmptyString
  | String c s' =>
      match rstrip_by p s' with
      | EmptyString => if p c then EmptyString else String c EmptyString
      | r => String c r
      end
  end.

Definition rstrip (s : string) : string := rstrip_by isspace s.

Definition strip (s : string) : string := rstrip (lstrip s).

(** [re.sub(r'\s+', ' ', s)]: every maximal run of whitespace becomes one
    space; [in_ws] records that the previous character belonged to a run. *)
Fixpoint collapse_ws (in_ws : bool) (s : string) : string :=
  match s with
  | EmptyString => EmptyString
  | String c s' =>
      if isspace c
      then if in_ws then collapse_ws true s'
           else String " " (collapse_ws true s')
      else String c (collapse_ws false s')
  end.

(** [a in b] for strings. *)
Fixpoint contains (a b : string) : bool :=
  if prefix a b then true
  else match b with
       | EmptyString => false
       | String _ b' => contains a b'
       end.

(** Truth value of a string: [bool(s)]. *)
Definition truthy (s : string) : bool :=
  match s with EmptyString => false | _ => true end.

(** [o or ""] for an optional string. *)
Definition or_empty (o : option string) : string :=
  match o with Some s => s | None => EmptyString end.

(** [o or None]: an empty string counts as absent. *)
Definition nonempty (o : option string) : option string :=
  match o with
  | Some s => if truthy s then Some s else None
  | None => None
  end.

(** [s.split(",")]. *)
Fixpoint split_comma (s : string) : list string :=
  match s with
  | EmptyString => [EmptyString]
  | String c s' =>
      if Ascii.eqb c "," then EmptyString :: split_comma s'
      else match split_comma s' with
           | [] => [String c EmptyString]
           | p :: ps => String c p :: ps
           end
  end.

(** [int(s)] for a string of decimal digits. *)
Definition digit_val (c : ascii) : nat := code c - 48.

Definition int_of_digits (s : string) : nat :=
  fold_left (fun acc c => 10 * acc + digit_val c) (list_ascii_of_string s) 0.

End PyStr.

(** ** Fuzzy matcher ([_normalize], [_similar]; the same text in both files) *)

Module Fuzzy.
Import PyStr.

Definition _normalize (s : string) : string :=
  collapse_ws false (strip (lower s)).

Definition _similar (a b : string) : bool :=
  let a := _normalize a in
  let b := _normalize b in
  String.eqb a b || ((3 <? String.length a) && (contains a b || contains b a)).

(** The matcher in the words of the spec (section 4.1), to compare
    [_similar] with: both texts are normalized; equal texts are similar;
    otherwise they are similar only if the shorter one has more than 3
    characters and is a substring of the longer one. *)
Definition similar_spec (a b : string) : bool :=
  let a := _normalize a in
  let b := _normalize b in
  let shorter := if String.length a <=? String.length b then a else b in
  let longer := if String.length a <=? String.length b then b else a in
  String.eqb a b || ((3 <? String.length shorter) && contains shorter longer).

End Fuzzy.

(** ** A backtracking matcher for the patterns of the source

    The regular expressions of [main.py] only repeat single-character
    classes, so [Star] takes a class.  The matcher explores alternatives in
    the order of Python's [re]: greedy repetition first, the left branch of
    an alternation first, and it backtracks into them when the rest of the
    pattern fails. *)

Module Re.
Import PyStr.

Inductive regex : Type :=
| Eps                                  (* the empty pattern *)
| Cls (p : ascii -> bool)              (* one character of a class *)
| Seq (r1 r2 : regex)
| Alt (r1 r2 : regex)                  (* r1|r2, r1 tried first *)
| Star (p : ascii -> bool)             (* p*, greedy *)
| Grp (n : nat) (r : regex)            (* capturing group number n *)
| WordB.                               (* \b *)

Definition Opt (r : regex) : regex := Alt r Eps.
Definition Plus (p : ascii -> bool) : regex := Seq (Cls p) (Star p).

(** A literal character, and its case-insensitive version under
    [re.IGNORECASE]. *)
Definition chr (c : ascii) : regex := Cls (Ascii.eqb c).
Definition chr_i (c : ascii) : regex :=
  Cls (fun x => Ascii.eqb (lower_char x) (lower_char c)).

Fixpoint lit (s : string) : regex :=
  match s with
  | EmptyString => Eps
  | String c s' => Seq (chr c) (lit s')
  end.

Fixpoint lit_i (s : string) : regex :=
  match s with
  | EmptyString => Eps
  | String c s' => Seq (chr_i c) (lit_i s')
  end.

Definition one_of (cs : string) (x : ascii) : bool :=
  existsb (Ascii.eqb x) (list_ascii_of_string cs).

Definition one_of_i (cs : string) (x : ascii) : bool :=
  existsb (fun c => Ascii.eqb (lower_char x) (lower_char c))
          (list_ascii_of_string cs).

Fixpoint alts (rs : list regex) : regex :=
  match rs with
  | [] => Cls (fun _ => false)
  | [r] => r
  | r :: rs' => Alt r (alts rs')
  end.

(** Captured groups: number and text; an absent number is a group that did
    not take part in the match ([m.group(n)] is [None]). *)
Definition captures : Type := list (nat * string).

Fixpoint group (n : nat) (cs : captures) : option string :=
  match cs with
  | [] => None
  | (k, s) :: cs' => if k =? n then Some s else group n cs'
  end.

Fixpoint take (n : nat) (s : string) : string :=
  match n, s with
  | S n', String c s' => String c (take n' s')
  | _, _ => EmptyString
  end.

(** The text consumed between the position whose remaining input is [s]
    and a later one whose remaining input is [s']. *)
Definition consumed (s s' : string) : string :=
  take (String.length s - String.length s') s.

Definition is_word_opt (o : option ascii) : bool :=
  match o with Some c => isword c | None => false end.

Definition head (s : string) : option ascii :=
  match s with String c _ => Some c | EmptyString => None end.

(** [\b]: exactly one side of the position is a word character. *)
Definition at_boundary (prev : option ascii) (s : string) : bool :=
  xorb (is_word_opt prev) (is_word_opt (head s)).

Section Matcher.
Context {R : Type}.

(** A continuation receives the character before the current position,
    the remaining input and the groups captured so far. *)
Definition cont : Type := option ascii -> string -> captures -> option R.

Fixpoint star (p : ascii -> bool) (prev : option ascii) (s : string)
         (cs : captures) (k : cont) : option R :=
  match s with
  | String c s' =>
      if p c then
        match star p (Some c) s' cs k with
        | Some x => Some x
        | None => k prev s cs
        end
      else k prev s cs
  | EmptyString => k prev s cs
  end.

Fixpoint run (r : regex) (prev : option ascii) (s : string)
         (cs : captures) (k : cont) : option R :=
  match r with
  | Eps => k prev s cs
  | Cls p =>
      match s with
      | String c s' => if p c then k (Some c) s' cs else None
      | EmptyString => None
      end
  | Seq r1 r2 => run r1 prev s cs (fun prev' s' cs' => run r2 prev' s' cs' k)
  | Alt r1 r2 =>
      match run r1 prev s cs k with
      | Some x => Some x
      | None => run r2 prev s cs k
      end
  | Star p => star p prev s cs k
  | Grp n r1 =>
      run r1 prev s cs
          (fun prev' s' cs' => k prev' s' ((n, consumed s s') :: cs'))
  | WordB => if at_boundary prev s then k prev s cs else None
  end.
End Matcher.

(** What a successful match reports: the matched text ([m.group(0)]), the
    groups, the input left after the match and the last character before
    that point. *)
Record found : Type := mkFound {
  matched : string;
  groups : captures;
  after : string;
  last : option ascii
}.

(** [pattern.match] at a position whose previous character is [prev]. *)
Definition match_at (r : regex) (prev : option ascii) (s : string)
  : option found :=
  run r prev s []
      (fun prev' s' cs => Some (mkFound (consumed s s') cs s' prev')).

(** [pattern.match(s)]: a match at the start of the string. *)
Definition match_ (r : regex) (s : string) : option found :=
  match_at r None s.

(** [pattern.search(s)]: the leftmost position with a match. *)
Fixpoint search_from (r : regex) (prev : option ascii) (s : string)
  : option found :=
  match match_at r prev s with
  | Some f => Some f
  | None =>
      match s with
      | String c s' => search_from r (Some c) s'
      | EmptyString => None
      end
  end.

Definition search (r : regex) (s : string) : option found :=
  search_from r None s.

(** [pattern.sub(repl, s)] for a pattern without empty matches: scan from
    the left, replace each match and go on after it.  [fuel] bounds the
    number of steps; [String.length s + 1] is enough since every step
    consumes a character. *)
Fixpoint sub_loop (fuel : nat) (r : regex) (repl : found -> string)
         (prev : option ascii) (s : string) : string :=
  match fuel with
  | O => s
  | S fuel' =>
      match s with
      | EmptyString => EmptyString
      | String c s' =>
          match match_at r prev s with
          | Some f =>
              match matched f with
              | EmptyString => String c (sub_loop fuel' r repl (Some c) s')
              | _ => repl f ++ sub_loop fuel' r repl (last f) (after f)
              end
          | None => String c (sub_loop fuel' r repl (Some c) s')
          end
      end
  end.

Definition sub (r : regex) (repl : found -> string) (s : string) : string :=
  sub_loop (S (String.length s)) r repl None s.

End Re.

(** ** Naive datetimes and timedeltas

    A [datetime] is kept as the proleptic Gregorian ordinal of its date
    ([date.toordinal()]) and its time fields.  The clock of the program is
    the wall clock, far from [datetime.max]: the range check of the
    addition (OverflowError outside years 1..9999) is not modelled. *)

Module DateTime.
Local Open Scope Z_scope.

Record datetime : Type := mkDatetime {
  ordinal : Z;
  hour : Z;
  minute : Z;
  second : Z;
  microsecond : Z
}.

Record timedelta : Type := mkTimedelta {
  days : Z;
  seconds : Z;
  microseconds : Z
}.

Definition us_per_second : Z := 1000000.
Definition us_per_day : Z := 86400 * us_per_second.

(** The normal form of a duration given in microseconds:
    [0 <= seconds < 86400] and [0 <= microseconds < 1000000]. *)
Definition td_of_us (us : Z) : timedelta :=
  let rem := us mod us_per_day in
  mkTimedelta (us / us_per_day) (rem / us_per_second) (rem mod us_per_second).

Definition td_to_us (d : timedelta) : Z :=
  (days d * 86400 + seconds d) * us_per_second + microseconds d.

(** [timedelta(days=d, hours=h, minutes=m, seconds=s, microseconds=us)]. *)
Definition new_timedelta (d h m s us : Z) : timedelta :=
  td_of_us ((d * 86400 + h * 3600 + m * 60 + s) * us_per_second + us).

Definition td_add (a b : timedelta) : timedelta :=
  td_of_us (td_to_us a + td_to_us b).

(** [datetime.__add__]: the datetime becomes a duration since ordinal 0,
    the durations are added and the sum is split into fields again. *)
Definition dt_add (t : datetime) (d : timedelta) : datetime :=
  let delta :=
    td_add (new_timedelta (ordinal t) (hour t) (minute t) (second t)
                          (microsecond t)) d in
  let rem := seconds delta mod 3600 in
  mkDatetime (days delta) (seconds delta / 3600) (rem / 60) (rem mod 60)
             (microseconds delta).

(** [t.replace(hour=h, minute=m, second=0, microsecond=0)]. *)
Definition replace_time (t : datetime) (h m : Z) : datetime :=
  mkDatetime (ordinal t) h m 0 0.

(** [t.weekday()]: Monday is 0; ordinal 1 (0001-01-01) is a Monday. *)
Definition weekday (t : datetime) : Z := (ordinal t + 6) mod 7.

(** [a <= b], field by field from the date down to the microsecond. *)
Fixpoint lex_leb (a b : list Z) : bool :=
  match a, b with
  | x :: a', y :: b' => (x <? y) || ((x =? y) && lex_leb a' b')
  | _, _ => true
  end.

Definition fields (t : datetime) : list Z :=
  [ordinal t; hour t; minute t; second t; microsecond t].

Definition dt_leb (a b : datetime) : bool := lex_leb (fields a) (fields b).

(** A datetime whose time fields are in range, as every value built by
    the [datetime] constructors is. *)
Definition wf (t : datetime) : Prop :=
  0 <= hour t < 24 /\ 0 <= minute t < 60 /\ 0 <= second t < 60
  /\ 0 <= microsecond t < 1000000.

End DateTime.

(** ** Temporal extractor ([_auto_fire_at]) *)

Module Temporal.
Import PyStr Re DateTime.

Definition n_tilde : ascii := "241"%char.   (* U+00F1 *)
Definition e_acute : ascii := "233"%char.   (* U+00E9 *)
Definition a_acute : ascii := "225"%char.   (* U+00E1 *)

(** [\ba\s+las?\s+(\d{1,2})(?:[:.h](\d{2}))?\s*(?:h(?:oras?)?)?\b],
    compiled with [re.IGNORECASE]. *)
Definition _TIME_IN_NOTE_RE : regex :=
  Seq WordB
 (Seq (chr_i "a")
 (Seq (Plus isspace)
 (Seq (lit_i "la")
 (Seq (Opt (chr_i "s"))
 (Seq (Plus isspace)
 (Seq (Grp 1 (Seq (Cls isdigit) (Opt (Cls isdigit))))
 (Seq (Opt (Seq (Cls (one_of_i ":.h"))
                (Grp 2 (Seq (Cls isdigit) (Cls isdigit)))))
 (Seq (Star isspace)
 (Seq (Opt (Seq (chr_i "h") (Opt (Seq (lit_i "ora") (Opt (chr_i "s"))))))
      WordB))))))))).

(** [_WEEKDAYS_BACKEND], in the insertion order of the dict. *)
Definition _WEEKDAYS_BACKEND : list (string * Z) :=
  [ ("lunes", 0%Z); ("martes", 1%Z); ("miercoles", 2%Z);
    ("mi" ++ String e_acute "rcoles", 2%Z);
    ("jueves", 3%Z); ("viernes", 4%Z); ("sabado", 5%Z);
    ("s" ++ String a_acute "bado", 5%Z); ("domingo", 6%Z) ].

Definition manana_tilde : string := "ma" ++ String n_tilde "ana".
Definition manana_plain : string := "manana".
Definition pasado_manana_tilde : string := "pasado " ++ manana_tilde.
Definition pasado_manana_plain : string := "pasado " ++ manana_plain.

(** Lines 41-47: the hour and minute of the first time pattern, [None]
    when there is no pattern or a field is out of range. *)
Definition time_in_note (note_text : string) : option (Z * Z) :=
  match search _TIME_IN_NOTE_RE (lower note_text) with
  | None => None
  | Some m =>
      let hour := Z.of_nat (int_of_digits (or_empty (group 1 m.(groups)))) in
      let minute :=
        match nonempty (group 2 m.(groups)) with
        | Some g => Z.of_nat (int_of_digits g)
        | None => 0%Z
        end in
      if ((0 <=? hour) && (hour <=? 23) && (0 <=? minute) && (minute <=? 59))%Z
      then Some (hour, minute) else None
  end.

(** The [for ... in _WEEKDAYS_BACKEND.items()] loop with its [break]:
    the offset given by the first name of the table found in the text. *)
Fixpoint weekday_offset (table : list (string * Z)) (text_l : string)
         (today : Z) : option Z :=
  match table with
  | [] => None
  | (wday_name, wday_num) :: rest =>
      if contains wday_name text_l then
        let diff := ((wday_num - today) mod 7)%Z in
        Some (if (diff >? 0)%Z then diff else 7%Z)
      else weekday_offset rest text_l today
  end.

(** Lines 52-62. *)
Definition day_offset_of (text_l : string) (today : Z) : option Z :=
  if contains manana_tilde text_l || contains manana_plain text_l
  then Some 1%Z
  else if contains pasado_manana_tilde text_l
          || contains pasado_manana_plain text_l
  then Some 2%Z
  else weekday_offset _WEEKDAYS_BACKEND text_l today.

(** [_auto_fire_at(note_text)], with the value of [datetime.now()]. *)
Definition _auto_fire_at (now : datetime) (note_text : string)
  : option datetime :=
  match time_in_note note_text with
  | None => None
  | Some (hour, minute) =>
      let text_l := lower note_text in
      let day_offset := day_offset_of text_l (weekday now) in
      let target := replace_time now hour minute in
      match day_offset with
      | Some d => Some (dt_add target (new_timedelta d 0 0 0 0))
      | None =>
          if dt_leb target now
          then Some (dt_add target (new_timedelta 1 0 0 0 0))
          else Some target
      end
  end.

End Temporal.

(** ** The persistent store and the records exchanged with it *)

Module Store.
Import DateTime.

Inductive status : Type := pending | processed | discarded.

Definition status_eqb (a b : status) : bool :=
  match a, b with
  | pending, pending | processed, processed | discarded, discarded => true
  | _, _ => false
  end.

(** Modelled from the spec: [app/models.py] is missing.  The columns are
    those that [main.py] and [ai_bridge.py] read and write; per section 3
    a new entry has status [pending], [content] is unique across entries
    and a new reminder has [sent = false]. *)
Record InboxEntry : Type := mkEntry {
  e_id : nat;
  e_content : string;
  e_origin : option string;
  e_type : string;
  e_summary : option string;
  e_tags : option string;
  e_source_url : option string;
  e_status : status;
  e_destination : option string;
  e_processed_at : option datetime
}.

Record Reminder : Type := mkReminder {
  r_id : nat;
  r_message : string;
  r_fire_at : datetime;
  r_sent : bool;
  r_entry_id : option nat
}.

(** One row per (group, subgroup) pair with the latest summary and the
    time it was written (section 3 of the spec). *)
Record GroupSummary : Type := mkGroupSummary {
  gs_group_name : string;
  gs_subgroup_name : option string;
  gs_summary : string;
  gs_updated_at : datetime
}.

(** The session on the store: the three tables in row order, the next
    primary keys and the number of commits that went through. *)
Record Db : Type := mkDb {
  entries : list InboxEntry;
  reminders : list Reminder;
  summaries : list GroupSummary;
  next_entry_id : nat;
  next_reminder_id : nat;
  commits : nat
}.

Definition with_entries (db : Db) (es : list InboxEntry) : Db :=
  mkDb es (reminders db) (summaries db) (next_entry_id db)
       (next_reminder_id db) (commits db).

Definition with_reminders (db : Db) (rs : list Reminder) : Db :=
  mkDb (entries db) rs (summaries db) (next_entry_id db)
       (next_reminder_id db) (commits db).

Definition with_summaries (db : Db) (gs : list GroupSummary) : Db :=
  mkDb (entries db) (reminders db) gs (next_entry_id db)
       (next_reminder_id db) (commits db).

(** [db.commit()] that goes through. *)
Definition commit (db : Db) : Db :=
  mkDb (entries db) (reminders db) (summaries db) (next_entry_id db)
       (next_reminder_id db) (S (commits db)).

Definition datetime_eq_dec (a b : datetime) : {a = b} + {a <> b}.
Proof. decide equality; apply Z.eq_dec. Defined.

Definition opt_string_eq_dec (a b : option string) : {a = b} + {a <> b}.
Proof. decide equality; apply string_dec. Defined.

Definition entry_eq_dec (a b : InboxEntry) : {a = b} + {a <> b}.
Proof.
  decide equality;
    try apply opt_string_eq_dec; try apply string_dec;
    try apply Nat.eq_dec.
  - decide equality; apply datetime_eq_dec.
  - decide equality.
Defined.

(** [db.delete(entry)]: the row leaves the table. *)
Fixpoint remove_row (e : InboxEntry) (es : list InboxEntry)
  : list InboxEntry :=
  match es with
  | [] => []
  | x :: es' => if entry_eq_dec e x then es' else x :: remove_row e es'
  end.

Definition db_delete (db : Db) (e : InboxEntry) : Db :=
  with_entries db (remove_row e (entries db)).

Definition opt_eqb (a : option string) (b : string) : bool :=
  match a with Some s => String.eqb s b | None => false end.

(** [db.add(InboxEntry(...)); db.commit()]: the row gets the next primary
    key; the unique constraint on [content] makes the commit fail (and the
    caller sees IntegrityError) when a row with that content exists. *)
Definition content_taken (db : Db) (content : string) : bool :=
  existsb (fun e => String.eqb (e_content e) content) (entries db).

Definition insert_entry (db : Db) (e : InboxEntry) : option Db :=
  if content_taken db (e_content e) then None
  else Some (mkDb (entries db ++ [e]) (reminders db) (summaries db)
                  (S (next_entry_id db)) (next_reminder_id db)
                  (S (commits db))).

(** [db.add(Reminder(...)); db.commit()]. *)
Definition insert_reminder (db : Db) (message : string) (fire_at : datetime)
           (entry_id : option nat) : Db :=
  mkDb (entries db)
       (reminders db
          ++ [mkReminder (next_reminder_id db) message fire_at false entry_id])
       (summaries db) (next_entry_id db) (S (next_reminder_id db))
       (S (commits db)).

(** [query(InboxEntry).filter(InboxEntry.id == i).first()]. *)
Definition entry_by_id (db : Db) (i : nat) : option InboxEntry :=
  find (fun e => e_id e =? i) (entries db).

(** [query(InboxEntry).filter(InboxEntry.status == "processed").all()]. *)
Definition processed_entries (db : Db) : list InboxEntry :=
  filter (fun e => status_eqb (e_status e) processed) (entries db).

(** What the program can raise to its caller: the IntegrityError of a
    commit that breaks a constraint, the InvalidRequestError of the ORM
    session (a refresh of an instance that is not persistent) and the
    HTTPException of the handlers. *)
Inductive exn : Type :=
| IntegrityError
| InvalidRequestError
| HTTPException (status_code : nat).

(** A call returns, or it raises; an error comes with the store as the
    call left it, since what was committed before the error stays. *)
Inductive result (A : Type) : Type :=
| Ok (a : A)
| Raise (e : exn) (db : Db).
Arguments Ok {A} a.
Arguments Raise {A} e db.

(** One value of the classifier's JSON object: the key may be missing,
    hold [null], or hold a value. *)
Inductive field (A : Type) : Type :=
| Absent
| Null
| Val (a : A).
Arguments Absent {A}.
Arguments Null {A}.
Arguments Val {A} a.

(** [ai.get(k)]. *)
Definition get {A : Type} (f : field A) : option A :=
  match f with Val a => Some a | _ => None end.

(** [ai.get(k, default)]: the default only replaces a missing key. *)
Definition get_default {A : Type} (f : field A) (d : A) : option A :=
  match f with Absent => Some d | Null => None | Val a => Some a end.

(** The classification result, a [dict] keyed by these names. *)
Record AiResult : Type := mkAi {
  makes_sense : field bool;
  action : field string;
  group : field string;
  subgroup : field string;
  idea : field string;
  remind_at : field string;
  url : field string
}.

Record NoteIn : Type := mkNoteIn {
  content : string;
  origin : option string;
  lang : option string
}.

Record NoteOut : Type := mkNoteOut {
  out_action : string;
  out_entry : option InboxEntry;
  out_group : option string;
  out_subgroup : option string;
  out_idea : option string;
  ai_skipped : bool;
  deleted_count : nat;
  out_remind_at : option datetime   (* the datetime shown by isoformat() *)
}.

End Store.

(** ** [ai_bridge.py] *)

Module AiBridge.
Import PyStr DateTime Store.

Definition _normalize := Fuzzy._normalize.
Definition _similar := Fuzzy._similar.

(** [[t.strip() for t in (tags or "").split(",") if t.strip()]]. *)
Definition tag_parts (tags : option string) : list string :=
  filter truthy (map strip (split_comma (or_empty tags))).

(** [parts[0] if parts else ""] and [parts[1] if len(parts) > 1 else None]. *)
Definition first_part (parts : list string) : string :=
  match parts with p :: _ => p | [] => EmptyString end.

Definition second_part (parts : list string) : option string :=
  match parts with _ :: p :: _ => Some p | _ => None end.

(** [e.summary or e.content or ""]. *)
Definition entry_idea_text (e : InboxEntry) : string :=
  match nonempty (e_summary e) with
  | Some s => s
  | None => e_content e
  end.

Record EntryFields : Type := mkFields {
  f_summary : string;
  f_tags : string;
  f_source_url : option string
}.

Definition ai_result_to_entry_fields (ai : AiResult) (content : string)
  : EntryFields :=
  let idea := or_empty (get (idea ai)) in
  let group := or_empty (get (group ai)) in
  let subgroup := or_empty (get (subgroup ai)) in
  let tags := if truthy subgroup then group ++ "," ++ subgroup else group in
  mkFields idea tags (nonempty (get (url ai))).

(** The three checks of the loop body of [_entries_matching_delete], for
    the normalized pattern fields. *)
Definition field_ok (pattern stored : string) : bool :=
  negb (truthy pattern) || _similar stored pattern.

Definition entry_matches (group subgroup idea : string) (e : InboxEntry)
  : bool :=
  let parts := tag_parts (e_tags e) in
  let entry_group := _normalize (first_part parts) in
  let entry_subgroup := _normalize (or_empty (second_part parts)) in
  let entry_idea := _normalize (entry_idea_text e) in
  let group_ok := field_ok group entry_group in
  let subgroup_ok := field_ok subgroup entry_subgroup in
  let idea_ok := field_ok idea entry_idea in
  group_ok && subgroup_ok && idea_ok.

Definition _entries_matching_delete (ai : AiResult) (db : Db)
  : list InboxEntry :=
  let idea := _normalize (or_empty (get (idea ai))) in
  let group := _normalize (or_empty (get (group ai))) in
  let subgroup := _normalize (or_empty (get (subgroup ai))) in
  let candidates := processed_entries db in
  fold_left
    (fun matches e =>
       if entry_matches group subgroup idea e then (matches ++ [e])%list
       else matches)
    candidates [].

Definition find_entry_to_delete (ai : AiResult) (db : Db)
  : option InboxEntry :=
  hd_error (_entries_matching_delete ai db).

Definition delete_entries_matching (ai : AiResult) (db : Db)
  : list InboxEntry * Db :=
  let matches := _entries_matching_delete ai db in
  let db1 := fold_left db_delete matches db in
  let db2 := match matches with [] => db1 | _ => commit db1 end in
  (matches, db2).

End AiBridge.

(** ** The collaborators outside the repository's engine *)

Module World.
Import DateTime Store.

(** The classifier of [app/classifier.py], the exporter of
    [app/exporter.py] ([None] when it raises), the two HTTP calls of
    [ai_bridge.py] ([None] when the [try] block raises), the SMTP delivery
    ([false] when it raises) and [datetime.fromisoformat] ([None] when it
    raises ValueError or TypeError). *)
Record Env : Type := mkEnv {
  classify : string -> string;
  export_to_markdown : InboxEntry -> option string;
  post_classify : string -> Db -> string -> option (list AiResult);
  post_summarize : string -> option string -> list string -> option string;
  smtp_send : string -> datetime -> bool;
  fromisoformat : string -> option datetime
}.

(** [classify_with_ai(content, db, lang)]: the list of results, or [None]
    when the service is not available. *)
Definition classify_with_ai (env : Env) (content : string) (db : Db)
           (lang : string) : option (list AiResult) :=
  post_classify env content db lang.

(** [request_summary(group, subgroup, ideas)]: the text, or the empty
    string when the call fails. *)
Definition request_summary (env : Env) (group : string)
           (subgroup : option string) (ideas : list string) : string :=
  match post_summarize env group subgroup ideas with
  | Some text => text
  | None => EmptyString
  end.

End World.

(** ** [main.py] *)

Module Main.
Import PyStr Re DateTime Store World.

Definition _normalize := Fuzzy._normalize.
Definition _similar := Fuzzy._similar.

(** [^(a[..n]ade|agrega|crea|abre|a[..n]adir|agregar|crear|abrir|pon|poner|mete|meter)\b]
    with [re.IGNORECASE]; the class holds U+00C3, U+00B1 and n, as the
    file has it.  The pattern is only used through [match], which anchors
    it at the start as [^] does. *)
Definition n_class : ascii -> bool :=
  one_of_i (String "195"%char (String "177"%char "n")).

Definition _CMD_VERBS : regex :=
  Seq (Grp 1 (alts
         [ Seq (chr_i "a") (Seq (Cls n_class) (lit_i "ade"));
           lit_i "agrega"; lit_i "crea"; lit_i "abre";
           Seq (chr_i "a") (Seq (Cls n_class) (lit_i "adir"));
           lit_i "agregar"; lit_i "crear"; lit_i "abrir";
           lit_i "pon"; lit_i "poner"; lit_i "mete"; lit_i "meter" ]))
      WordB.

(** [\b(\d{1,2}) (\d{2})\b]. *)
Definition _TIME_FIX_RE : regex :=
  Seq WordB
 (Seq (Grp 1 (Seq (Cls isdigit) (Opt (Cls isdigit))))
 (Seq (chr " ")
 (Seq (Grp 2 (Seq (Cls isdigit) (Cls isdigit)))
      WordB))).

Definition _repl (m : found) : string :=
  let g1 := or_empty (Re.group 1 m.(groups)) in
  let g2 := or_empty (Re.group 2 m.(groups)) in
  let h := int_of_digits g1 in
  let mn := int_of_digits g2 in
  if (h <=? 23) && (mn <=? 59) then g1 ++ ":" ++ g2 else m.(matched).

Definition _fix_time_colons (text : string) : string :=
  sub _TIME_FIX_RE _repl text.

(** [https?://\S+]. *)
Definition url_re : regex :=
  Seq (lit "http")
 (Seq (Opt (chr "s"))
 (Seq (lit "://") (Plus (fun c => negb (isspace c))))).

(** [_get_group_ideas(group, subgroup, db)]. *)
Definition opt_string_eqb (a b : option string) : bool :=
  match a, b with
  | Some x, Some y => String.eqb x y
  | None, None => true
  | _, _ => false
  end.

Definition in_group (group : string) (subgroup : option string)
           (e : InboxEntry) : bool :=
  let parts := AiBridge.tag_parts (e_tags e) in
  let g := AiBridge.first_part parts in
  let sg := AiBridge.second_part parts in
  String.eqb g group && opt_string_eqb sg subgroup
  && truthy (or_empty (e_summary e)).

Definition _get_group_ideas (group : string) (subgroup : option string)
           (db : Db) : list string :=
  fold_left
    (fun ideas e =>
       if in_group group subgroup e
       then (ideas ++ [or_empty (e_summary e)])%list else ideas)
    (processed_entries db) [].

(** One call of [request_summary], as seen from outside. *)
Record SummaryRequest : Type := mkRequest {
  req_group : string;
  req_subgroup : option string;
  req_ideas : list string
}.

Definition same_pair (group : string) (subgroup : option string)
           (g : GroupSummary) : bool :=
  String.eqb (gs_group_name g) group
  && opt_string_eqb (gs_subgroup_name g) subgroup.

(** [existing.summary = text; existing.updated_at = now] on the row that
    [.first()] returned. *)
Fixpoint update_first (group : string) (subgroup : option string)
         (text : string) (now : datetime) (gs : list GroupSummary)
  : list GroupSummary :=
  match gs with
  | [] => []
  | g :: gs' =>
      if same_pair group subgroup g
      then mkGroupSummary (gs_group_name g) (gs_subgroup_name g) text now
           :: gs'
      else g :: update_first group subgroup text now gs'
  end.

(** [_maybe_auto_summarize(group, subgroup, db)]; the second component
    lists the summary requests that were sent. *)
Definition _maybe_auto_summarize (env : Env) (now : datetime)
           (group : string) (subgroup : option string) (db : Db)
  : Db * list SummaryRequest :=
  let ideas := _get_group_ideas group subgroup db in
  if List.length ideas <=? 10 then (db, [])
  else
    let text := request_summary env group subgroup ideas in
    let sent := [mkRequest group subgroup ideas] in
    if negb (truthy text) then (db, sent)
    else
      let existing := find (same_pair group subgroup) (summaries db) in
      let rows :=
        match existing with
        | Some _ => update_first group subgroup text now (summaries db)
        | None =>
            (summaries db ++ [mkGroupSummary group subgroup text now])%list
        end in
      (commit (with_summaries db rows), sent).

(** One call of [_send_email_notification]: the reminder it was called
    for and whether the SMTP delivery went through.  A failure is caught
    inside the function and only logged. *)
Definition attempt : Type := (Reminder * bool)%type.

Definition is_due (now : datetime) (r : Reminder) : bool :=
  negb (r_sent r) && dt_leb (r_fire_at r) now.

Definition set_sent (r : Reminder) : Reminder :=
  mkReminder (r_id r) (r_message r) (r_fire_at r) true (r_entry_id r).

(** [r.sent = True]: the update of the row with the key of [r]. *)
Definition mark_sent (r : Reminder) (rs : list Reminder) : list Reminder :=
  map (fun x => if r_id x =? r_id r then set_sent x else x) rs.

(** [if r.entry_id]: a key that is present and not 0. *)
Definition truthy_id (o : option nat) : option nat :=
  match o with
  | Some 0 => None
  | Some i => Some i
  | None => None
  end.

(** The body of the loop of [_check_reminders]: the delivery is
    attempted, then the row is marked and the linked entry deleted. *)
Definition delivery (env : Env) (r : Reminder) : attempt :=
  (r, smtp_send env (r_message r) (r_fire_at r)).

Definition fire_db (db : Db) (r : Reminder) : Db :=
  let db1 := with_reminders db (mark_sent r (reminders db)) in
  match truthy_id (r_entry_id r) with
  | Some i =>
      match entry_by_id db1 i with
      | Some entry => db_delete db1 entry
      | None => db1
      end
  | None => db1
  end.

Definition fire (env : Env) (st : Db * list attempt) (r : Reminder)
  : Db * list attempt :=
  let (db, log) := st in
  let sent := delivery env r in
  (fire_db db r, (log ++ [sent])%list).

(** [_check_reminders()], with the value of [datetime.now()]; the second
    component lists the deliveries attempted by this poll. *)
Definition _check_reminders (env : Env) (now : datetime) (db : Db)
  : Db * list attempt :=
  let due := filter (is_due now) (reminders db) in
  let (db1, log) := fold_left (fire env) due (db, []) in
  match due with
  | [] => (db1, log)
  | _ => (commit db1, log)
  end.

Definition note_out (action : string) (entry : option InboxEntry)
           (group subgroup idea : option string) : NoteOut :=
  mkNoteOut action entry group subgroup idea false 0 None.

(** Lines 275-292 of [_process_single_ai]: the summary and the tag path
    that the Add pipeline computes. *)
Definition add_summary (ai : AiResult) (note : NoteIn) : string :=
  let fields := AiBridge.ai_result_to_entry_fields ai (content note) in
  let summary := _fix_time_colons (AiBridge.f_summary fields) in
  let summary :=
    if truthy summary
       && String.eqb (_normalize summary) (_normalize (content note))
    then EmptyString else summary in
  if truthy summary
     && (match match_ _CMD_VERBS (strip summary) with
         | Some _ => true | None => false end)
  then EmptyString else summary.

Definition add_tags (ai : AiResult) (note : NoteIn) : string :=
  AiBridge.f_tags (AiBridge.ai_result_to_entry_fields ai (content note)).

Definition add_source_url (ai : AiResult) (note : NoteIn) : option string :=
  let fields := AiBridge.ai_result_to_entry_fields ai (content note) in
  match nonempty (AiBridge.f_source_url fields) with
  | Some u => Some u
  | None =>
      match search url_re (content note) with
      | Some m => Some (rstrip_by (one_of ".,)>") m.(matched))
      | None => None
      end
  end.

(** The update of the columns of the row with the key of [e]. *)
Definition update_entry (e : InboxEntry) (es : list InboxEntry)
  : list InboxEntry :=
  map (fun x => if e_id x =? e_id e then e else x) es.

Definition dedup_candidate (tags summary : string) (e : InboxEntry) : bool :=
  status_eqb (e_status e) processed && opt_eqb (e_tags e) tags
  && _similar (or_empty (e_summary e)) summary.

(** The Add branch of [_process_single_ai] (lines 275-336). *)
Definition process_add (env : Env) (now : datetime) (ai : AiResult)
           (note : NoteIn) (db : Db) : result (NoteOut * Db) :=
  let summary := add_summary ai note in
  let entry_type := classify env (content note) in
  let tags := add_tags ai note in
  let source_url := add_source_url ai note in
  let content_to_store := if truthy summary then summary else content note in
  let out (e : InboxEntry) :=
    note_out "add" (Some e) (get (group ai)) (get (subgroup ai))
             (nonempty (Some summary)) in
  let existing_dup :=
    filter (fun e => status_eqb (e_status e) processed
                     && opt_eqb (e_tags e) tags) (entries db) in
  match find (fun dup => _similar (or_empty (e_summary dup)) summary)
             existing_dup with
  | Some dup => Ok (out dup, db)
  | None =>
      let db_entry :=
        mkEntry (next_entry_id db) content_to_store (origin note) entry_type
                (Some summary) (Some tags) source_url pending None None in
      match insert_entry db db_entry with
      | None =>
          (* IntegrityError: rollback, then look the content up *)
          match find (fun e => String.eqb (e_content e) content_to_store)
                     (entries db) with
          | Some existing => Ok (out existing, db)
          | None => Raise (HTTPException 409) db
          end
      | Some db1 =>
          let '(db_entry, db2) :=
            match export_to_markdown env db_entry with
            | Some destination =>
                let e := mkEntry (e_id db_entry) (e_content db_entry)
                                 (e_origin db_entry) (e_type db_entry)
                                 (e_summary db_entry) (e_tags db_entry)
                                 (e_source_url db_entry) processed
                                 (Some destination) (Some now) in
                (e, commit (with_entries db1 (update_entry e (entries db1))))
            | None => (db_entry, db1)
            end in
          let db3 :=
            match nonempty (get (group ai)) with
            | Some g =>
                fst (_maybe_auto_summarize env now g (get (subgroup ai)) db2)
            | None => db2
            end in
          Ok (out db_entry, db3)
      end
  end.

(** [_process_single_ai(ai, note, db)].  In the delete branch
    [db.refresh(first)] is called on a row that [delete_entries_matching]
    has just deleted, with the deletion committed: the instance is no
    longer persistent in the session and the refresh raises
    InvalidRequestError.  Only a delete that matched nothing gets past
    [if first:] and returns its outcome. *)
Definition _process_single_ai (env : Env) (now : datetime) (ai : AiResult)
           (note : NoteIn) (db : Db) : result (NoteOut * Db) :=
  match get_default (makes_sense ai) true with
  | Some true =>
      let action := get_default (action ai) "add" in
      if opt_eqb action "delete" then
        let (deleted, db1) := AiBridge.delete_entries_matching ai db in
        let first := hd_error deleted in
        match first with
        | Some _ => Raise InvalidRequestError db1
        | None =>
            Ok (mkNoteOut "delete" first (get (group ai))
                          (get (subgroup ai)) (get (idea ai)) false
                          (List.length deleted) None, db1)
        end
      else if opt_eqb action "remind" then
        let default := dt_add now (new_timedelta 0 0 5 0 0) in
        let fire_at :=
          match nonempty (get (remind_at ai)) with
          | Some remind_at_str =>
              match fromisoformat env remind_at_str with
              | Some t => t
              | None => default
              end
          | None => default
          end in
        let message :=
          match nonempty (get (idea ai)) with
          | Some i => i
          | None => content note
          end in
        Ok (mkNoteOut "remind" None (Some "recordatorios") None
                      (Some message) false 0 (Some fire_at),
            insert_reminder db message fire_at None)
      else process_add env now ai note db
  | _ => Ok (note_out "ignored" None None None None, db)
  end.

(** [_maybe_auto_reminder(note_content, add_results, db)]. *)
Definition is_add (r : NoteOut) : bool := String.eqb (out_action r) "add".

Definition has_idea (r : NoteOut) : bool :=
  match nonempty (out_idea r) with Some _ => true | None => false end.

Definition has_entry (r : NoteOut) : bool :=
  match out_entry r with Some _ => true | None => false end.

Definition _maybe_auto_reminder (now : datetime) (note_content : string)
           (add_results : list NoteOut) (db : Db) : option NoteOut * Db :=
  match Temporal._auto_fire_at now note_content with
  | None => (None, db)
  | Some fire_at =>
      let linked :=
        find (fun r => is_add r && has_idea r && has_entry r) add_results in
      let message :=
        match linked with
        | Some l => out_idea l
        | None =>
            match find (fun r => is_add r && has_idea r) add_results with
            | Some r => out_idea r
            | None => None
            end
        end in
      let entry_id :=
        match linked with
        | Some l => option_map e_id (out_entry l)
        | None => None
        end in
      match nonempty message with
      | None => (None, db)
      | Some message =>
          (Some (mkNoteOut "remind" None (Some "recordatorios") None
                           (Some message) false 0 (Some fire_at)),
           insert_reminder db message fire_at entry_id)
      end
  end.

(** [[_process_single_ai(ai, note, db) for ai in ai_list]]. *)
Fixpoint process_all (env : Env) (now : datetime) (ai_list : list AiResult)
         (note : NoteIn) (db : Db) : result (list NoteOut * Db) :=
  match ai_list with
  | [] => Ok ([], db)
  | ai :: rest =>
      match _process_single_ai env now ai note db with
      | Raise e db1 => Raise e db1
      | Ok (r, db1) =>
          match process_all env now rest note db1 with
          | Raise e db2 => Raise e db2
          | Ok (rs, db2) => Ok (r :: rs, db2)
          end
      end
  end.

(** [add_note(note, db)], the handler of [POST /note]. *)
Definition add_note (env : Env) (now : datetime) (note : NoteIn) (db : Db)
  : result (list NoteOut * Db) :=
  let lang :=
    match nonempty (lang note) with Some l => l | None => "es" end in
  match classify_with_ai env (content note) db lang with
  | None =>
      let entry_type := classify env (content note) in
      let db_entry :=
        mkEntry (next_entry_id db) (content note) (origin note) entry_type
                None None None pending None None in
      match insert_entry db db_entry with
      | None => Raise IntegrityError db
      | Some db1 =>
          Ok ([mkNoteOut "add" (Some db_entry) None None None true 0 None],
              db1)
      end
  | Some ai_list =>
      match process_all env now ai_list note db with
      | Raise e db1 => Raise e db1
      | Ok (results, db1) =>
          let has_add := existsb is_add results in
          let has_remind :=
            existsb (fun r => String.eqb (out_action r) "remind") results in
          if has_add && negb has_remind then
            match _maybe_auto_reminder now (content note) results db1 with
            | (Some auto, db2) => Ok ((results ++ [auto])%list, db2)
            | (None, db2) => Ok (results, db2)
            end
          else Ok (results, db1)
      end
  end.

End Main.

(** ** Concrete stores, notes and clocks used to run the model *)

Module Samples.
Import DateTime Store World.

(** 2024-01-01 08:00, a Monday, and the Friday of that week at 10:00. *)
Definition monday_8h : datetime := mkDatetime 738886 8 0 0 0.
Definition friday_10h : datetime := mkDatetime 738890 10 0 0 0.

Definition empty_db : Db := mkDb [] [] [] 1 1 0.

(** Every collaborator is down: no classification, no summary, the
    export raises, the SMTP delivery fails and no timestamp parses. *)
Definition offline_env : Env :=
  mkEnv (fun _ => "note") (fun _ => None) (fun _ _ _ => None)
        (fun _ _ _ => None) (fun _ _ => false) (fun _ => None).

(** The exporter works and the summarizer answers; the rest is down. *)
Definition exporting_env : Env :=
  mkEnv (fun _ => "note") (fun _ => Some "notes.md") (fun _ _ _ => None)
        (fun _ _ _ => Some "resumen") (fun _ _ => false) (fun _ => None).

Definition stored (i : nat) (text tags : string) (st : status) : InboxEntry :=
  mkEntry i text (Some "manual") "note" (Some text) (Some tags) None st
          None None.

(** A store with a processed entry and a reminder linked to it that was
    due on Monday, and a second reminder already sent. *)
Definition due_reminder : Reminder :=
  mkReminder 1 "llamar al banco" monday_8h false (Some 1).

(** A delete result that names no group, no subgroup and no idea: one
    key is missing, one is null and one holds the empty string. *)
Definition blank_delete : AiResult :=
  mkAi (Val true) (Val "delete") Absent Null (Val "") Absent Absent.

Definition ai_pan : AiResult :=
  mkAi (Val true) Absent (Val "casa") Null (Val "comprar pan integral")
       Absent Absent.

Definition note_pan : NoteIn :=
  mkNoteIn "tengo que comprar pan integral" (Some "manual") (Some "es").

(** A remind result whose timestamp does not parse and whose idea is
    empty. *)
Definition remind_bad_timestamp : AiResult :=
  mkAi (Val true) (Val "remind") Null Null (Val "") (Val "pronto") Absent.

(** Eleven processed ideas under the group "casa" (no subgroup). *)
Definition db_eleven_ideas : Db :=
  mkDb (map (fun i => stored i ("idea " ++ String (ascii_of_nat (96 + i)) "")
                             "casa" processed)
            (seq 1 11))
       [] [] 12 1 0.

(** An idea that only echoes the note: the Add pipeline drops it as a
    summary and stores the note under its raw content. *)
Definition ai_echo : AiResult :=
  mkAi (Val true) Absent (Val "casa") Null
       (Val "Tengo que  comprar pan integral") Absent Absent.

Definition note_pan_18 : NoteIn :=
  mkNoteIn "comprar pan integral a las 18" (Some "manual") None.

(** The classifier answers with one Add result; the exporter works. *)
Definition classifying_env : Env :=
  mkEnv (fun _ => "note") (fun _ => Some "notes.md")
        (fun _ _ _ => Some [ai_pan]) (fun _ _ _ => None) (fun _ _ => true)
        (fun _ => None).

Definition ai_hogar_compras : AiResult :=
  mkAi (Val true) Absent (Val "hogar") (Val "compras")
       (Val "comprar pan integral") Absent Absent.




Definition db_with_pan : Db :=
  mkDb [stored 1 "llamar al fontanero" "casa" processed] [] [] 2 1 0.

Definition db_with_due_reminder : Db :=
  mkDb [stored 1 "llamar al banco" "tareas" processed;
        stored 2 "comprar pan integral" "casa,compras" processed]
       [due_reminder; mkReminder 2 "pagar el alquiler" monday_8h true None]
       [] 3 3 0.

End Samples.

(** ** The delete pattern, field by field *)

Module DeletePattern.
Import PyStr Store AiBridge.

(** The pattern fields as [_entries_matching_delete] reads them. *)
Definition pattern_group (ai : AiResult) : string :=
  _normalize (or_empty (get (group ai))).
Definition pattern_subgroup (ai : AiResult) : string :=
  _normalize (or_empty (get (subgroup ai))).
Definition pattern_idea (ai : AiResult) : string :=
  _normalize (or_empty (get (idea ai))).

(** The fields of a stored entry: first and second segment of the tag
    path, and the summary or else the content. *)
Definition stored_group (e : InboxEntry) : string :=
  _normalize (first_part (tag_parts (e_tags e))).
Definition stored_subgroup (e : InboxEntry) : string :=
  _normalize (or_empty (second_part (tag_parts (e_tags e)))).
Definition stored_idea (e : InboxEntry) : string :=
  _normalize (entry_idea_text e).

(** An empty pattern field is a wildcard; any other one has to be
    similar to the stored field. *)
Definition wildcard_or_similar (pattern stored : string) : Prop :=
  pattern = EmptyString \/ _similar stored pattern = true.

(** A field of the classification result that is missing, null or the
    empty string. *)
Definition is_blank (f : field string) : bool :=
  negb (truthy (or_empty (get f))).

End DeletePattern.

(** ** Repeated polls of the scheduler *)

Module Scheduler.
Import DateTime Store World Main.

(** One run of the job: the store moves on and the deliveries attempted
    by the run are added to those seen so far. *)
Definition poll (env : Env) (st : Db * list attempt) (now : datetime)
  : Db * list attempt :=
  let (db, log) := st in
  let (db1, sent) := _check_reminders env now db in
  (db1, (log ++ sent)%list).

Definition run_polls (env : Env) (times : list datetime)
           (st : Db * list attempt) : Db * list attempt :=
  fold_left (poll env) times st.

(** How many deliveries were attempted for the reminder with key [rid]. *)
Definition attempts_for (rid : nat) (log : list attempt) : nat :=
  List.length (filter (fun a => r_id (fst a) =? rid) log).

Fixpoint distinct (l : list nat) : bool :=
  match l with
  | [] => true
  | x :: l' => negb (existsb (Nat.eqb x) l') && distinct l'
  end.

(** The reminders table after the rows of [ds] were marked. *)
Definition sent_by (ds : list Reminder) (x : Reminder) : Reminder :=
  if existsb (fun d => r_id x =? r_id d) ds then set_sent x else x.

(** Every reminder with key [rid] has been marked as sent. *)
Definition all_sent (rid : nat) (db : Db) : Prop :=
  forall x, In x (reminders db) -> r_id x = rid -> r_sent x = true.

(** Primary keys: no two rows of a table share one, and the keys of the
    entries start at 1. *)
Definition keys_ok (db : Db) : bool :=
  distinct (map r_id (reminders db))
  && distinct (map e_id (entries db))
  && forallb (fun e => negb (e_id e =? 0)) (entries db).

End Scheduler.

(** ** The branches of the intent resolver *)

Module Dispatch.
Import PyStr DateTime Store World Main.

(** The result makes sense (the key is missing or holds [true]). *)
Definition makes_sense_ok (ai : AiResult) : bool :=
  match get_default (makes_sense ai) true with
  | Some true => true
  | _ => false
  end.

(** The result is dispatched to the delete branch. *)
Definition takes_delete_path (ai : AiResult) : bool :=
  makes_sense_ok ai && opt_eqb (get_default (action ai) "add") "delete".

(** The result is dispatched to the remind branch. *)
Definition takes_remind_path (ai : AiResult) : bool :=
  makes_sense_ok ai
  && negb (opt_eqb (get_default (action ai) "add") "delete")
  && opt_eqb (get_default (action ai) "add") "remind".


(** [remind_at] is missing, null or empty, or its text does not parse. *)
Definition no_usable_timestamp (env : Env) (ai : AiResult) : bool :=
  match nonempty (get (remind_at ai)) with
  | None => true
  | Some s => match fromisoformat env s with None => true | Some _ => false end
  end.

(** [ai.get("idea") or note.content]. *)
Definition remind_message (ai : AiResult) (note : NoteIn) : string :=
  match nonempty (get (idea ai)) with
  | Some i => i
  | None => content note
  end.

(** The Add outcome that reports the entry [e]. *)
Definition add_out (ai : AiResult) (note : NoteIn) (e : InboxEntry)
  : NoteOut :=
  note_out "add" (Some e) (get (group ai)) (get (subgroup ai))
           (nonempty (Some (add_summary ai note))).


(** No stored entry carries the next primary key or a later one. *)
Definition keys_fresh (db : Db) : bool :=
  forallb (fun e => e_id e <? next_entry_id db) (entries db).

End Dispatch.

(** ** Shapes of stripped text *)

Module Shape.
Import PyStr.

(** The text does not start with whitespace. *)
Definition head_ok (t : string) : Prop :=
  match t with
  | EmptyString => True
  | String c _ => isspace c = false
  end.

(** The text does not end with whitespace. *)
Definition tail_ok (t : string) : Prop := rstrip t = t.

End Shape.

(** ** Labels that survive the tag-path encoding *)

Module TagPath.
Import PyStr.

(** The label holds no comma, the delimiter of the tag path. *)
Fixpoint comma_free (s : string) : bool :=
  match s with
  | EmptyString => true
  | String c s' => negb (Ascii.eqb c ",") && comma_free s'
  end.

(** The label is not blank: something is left after [strip]. *)
Definition not_blank (s : string) : bool := truthy (strip s).

End TagPath.

(** ** The invariant of the entries table *)

Module Invariant.
Import Store Dispatch.

(** No two entries share their content, and every key in use is below the
    next key to hand out. *)
Definition entries_ok (db : Db) : Prop :=
  NoDup (map e_content (entries db)) /\ keys_fresh db = true.

End Invariant.

(** ** [batch_save], the handler of [POST /batch-save] *)

Module Batch.
Import PyStr DateTime Store World Main.

Record BatchSaveItem : Type := mkItem {
  item_idea : string;
  item_group : string;
  item_subgroup : option string
}.

Record BatchSaveIn : Type := mkBatch {
  items : list BatchSaveItem;
  batch_origin : string
}.

(** [f"{item.group},{item.subgroup}" if item.subgroup else item.group]. *)
Definition item_tags (item : BatchSaveItem) : string :=
  match nonempty (item_subgroup item) with
  | Some sg => item_group item ++ "," ++ sg
  | None => item_group item
  end.

(** The body of the loop: the store and the counter [saved] after one
    item.  A commit that breaks the unique constraint on [content] is
    rolled back and the item is skipped. *)
Definition save_item (origin : string) (now : datetime)
           (st : Db * nat) (item : BatchSaveItem) : Db * nat :=
  let (db, saved) := st in
  let tags := item_tags item in
  let existing_dup :=
    filter (fun e => status_eqb (e_status e) processed
                     && opt_eqb (e_tags e) tags) (entries db) in
  if existsb (fun dup => _similar (or_empty (e_summary dup)) (item_idea item))
             existing_dup
  then (db, saved)
  else
    let db_entry :=
      mkEntry (next_entry_id db) (item_idea item) (Some origin) "note"
              (Some (item_idea item)) (Some tags) None processed None
              (Some now) in
    match insert_entry db db_entry with
    | Some db1 => (db1, S saved)
    | None => (db, saved)
    end.

(** [batch_save(batch, db)]: the store afterwards, [saved] and [total]. *)
Definition batch_save (now : datetime) (batch : BatchSaveIn) (db : Db)
  : Db * nat * nat :=
  (fold_left (save_item (batch_origin batch) now) (items batch) (db, 0),
   List.length (items batch)).

(** The item would be skipped on this table: a similar processed entry
    sits under its tag path, or its text is the content of some entry. *)
Definition settled (es : list InboxEntry) (item : BatchSaveItem) : bool :=
  existsb (dedup_candidate (item_tags item) (item_idea item)) es
  || existsb (fun e => String.eqb (e_content e) (item_idea item)) es.

End Batch.

(** ** Taxonomy rewrites and reminder deletion (handlers of [main.py]) *)

Module Taxonomy.
Import PyStr DateTime Store World Main.

(** [", ".join(parts)]. *)
Fixpoint join_comma_space (parts : list string) : string :=
  match parts with
  | [] => EmptyString
  | [p] => p
  | p :: ps => p ++ ", " ++ join_comma_space ps
  end.

Definition set_status (e : InboxEntry) (st : status) : InboxEntry :=
  mkEntry (e_id e) (e_content e) (e_origin e) (e_type e) (e_summary e)
          (e_tags e) (e_source_url e) st (e_destination e) (e_processed_at e).

Definition set_tags (e : InboxEntry) (tags : string) : InboxEntry :=
  mkEntry (e_id e) (e_content e) (e_origin e) (e_type e) (e_summary e)
          (Some tags) (e_source_url e) (e_status e) (e_destination e)
          (e_processed_at e).

Definition is_processed (e : InboxEntry) : bool :=
  status_eqb (e_status e) processed.

(** [parts and parts[0] == group_name]. *)
Definition in_group_named (group_name : string) (e : InboxEntry) : bool :=
  match AiBridge.tag_parts (e_tags e) with
  | p :: _ => String.eqb p group_name
  | [] => false
  end.

(** [len(parts) >= 2 and parts[0] == group_name and parts[1] == subgroup_name]. *)
Definition in_subgroup_named (group_name subgroup_name : string)
           (e : InboxEntry) : bool :=
  match AiBridge.tag_parts (e_tags e) with
  | p :: q :: _ => String.eqb p group_name && String.eqb q subgroup_name
  | _ => false
  end.

(** [delete_group(group_name, db)]: the entries of the group are marked
    as discarded; the rows stay in the table. *)
Definition delete_group (group_name : string) (db : Db) : Db :=
  commit
    (with_entries db
       (map (fun e => if is_processed e && in_group_named group_name e
                      then set_status e discarded else e)
            (entries db))).

(** [delete_subgroup(group_name, subgroup_name, db)]. *)
Definition delete_subgroup (group_name subgroup_name : string) (db : Db)
  : Db :=
  commit
    (with_entries db
       (map (fun e =>
               if is_processed e
                  && in_subgroup_named group_name subgroup_name e
               then set_status e discarded else e)
            (entries db))).

(** [parts[0] = body.new_name; entry.tags = ", ".join(parts)]. *)
Definition renamed_group_tags (new_name : string) (e : InboxEntry) : string :=
  match AiBridge.tag_parts (e_tags e) with
  | _ :: rest => join_comma_space (new_name :: rest)
  | [] => EmptyString
  end.

(** [rename_group(group_name, body, db)]. *)
Definition rename_group (group_name new_name : string) (db : Db) : Db :=
  commit
    (with_entries db
       (map (fun e => if is_processed e && in_group_named group_name e
                      then set_tags e (renamed_group_tags new_name e) else e)
            (entries db))).

(** [parts[1] = body.new_name; entry.tags = ", ".join(parts)]. *)
Definition renamed_subgroup_tags (new_name : string) (e : InboxEntry)
  : string :=
  match AiBridge.tag_parts (e_tags e) with
  | p :: _ :: rest => join_comma_space (p :: new_name :: rest)
  | _ => EmptyString
  end.

(** [rename_subgroup(group_name, subgroup_name, body, db)]. *)
Definition rename_subgroup (group_name subgroup_name new_name : string)
           (db : Db) : Db :=
  commit
    (with_entries db
       (map (fun e =>
               if is_processed e
                  && in_subgroup_named group_name subgroup_name e
               then set_tags e (renamed_subgroup_tags new_name e) else e)
            (entries db))).

(** [discard_entry(entry_id, db)]: 404 for an unknown key. *)
Definition discard_entry (entry_id : nat) (db : Db) : result Db :=
  match entry_by_id db entry_id with
  | None => Raise (HTTPException 404) db
  | Some entry =>
      Ok (commit
            (with_entries db
               (map (fun e => if e_id e =? e_id entry
                              then set_status e discarded else e)
                    (entries db))))
  end.

Definition reminder_eq_dec (a b : Reminder) : {a = b} + {a <> b}.
Proof.
  decide equality;
    try apply string_dec; try apply Nat.eq_dec; try apply Bool.bool_dec;
    try apply datetime_eq_dec.
  decide equality; apply Nat.eq_dec.
Defined.

(** [db.delete(r)] for a reminder. *)
Fixpoint remove_reminder (r : Reminder) (rs : list Reminder)
  : list Reminder :=
  match rs with
  | [] => []
  | x :: rs' => if reminder_eq_dec r x then rs' else x :: remove_reminder r rs'
  end.

(** [delete_reminder(reminder_id, db)]: 404 for an unknown key; otherwise
    the linked entry, when the key is set and resolves, and the reminder
    are deleted in one commit. *)
Definition delete_reminder (reminder_id : nat) (db : Db) : result Db :=
  match find (fun r => r_id r =? reminder_id) (reminders db) with
  | None => Raise (HTTPException 404) db
  | Some r =>
      let db1 :=
        match truthy_id (r_entry_id r) with
        | Some i =>
            match entry_by_id db i with
            | Some entry => db_delete db entry
            | None => db
            end
        | None => db
        end in
      Ok (commit (with_reminders db1 (remove_reminder r (reminders db1))))
  end.

End Taxonomy.

(** ** The taxonomy snapshot sent to the classifier *)

Module Snapshot.
Import PyStr DateTime Store AiBridge.

Record SubgroupNode : Type := mkSub {
  sg_name : string;
  sg_ideas : list string
}.

Record GroupNode : Type := mkGroup {
  g_name : string;
  g_ideas : list string;
  g_subgroups : list SubgroupNode
}.

(** [if idea and idea not in ideas: ideas.append(idea)]. *)
Definition add_idea (idea : string) (ideas : list string) : list string :=
  if truthy idea && negb (existsb (String.eqb idea) ideas)
  then (ideas ++ [idea])%list else ideas.

(** The subgroup with that name (the first one, created at the end of the
    list when there is none) receives the idea. *)
Fixpoint add_to_subgroup (name idea : string) (sgs : list SubgroupNode)
  : list SubgroupNode :=
  match sgs with
  | [] => [mkSub name (add_idea idea [])]
  | s :: rest =>
      if String.eqb (sg_name s) name
      then mkSub (sg_name s) (add_idea idea (sg_ideas s)) :: rest
      else s :: add_to_subgroup name idea rest
  end.

Definition add_to_group (sub : option string) (idea : string) (g : GroupNode)
  : GroupNode :=
  match nonempty sub with
  | Some subgroup_name =>
      mkGroup (g_name g) (g_ideas g)
              (add_to_subgroup subgroup_name idea (g_subgroups g))
  | None => mkGroup (g_name g) (add_idea idea (g_ideas g)) (g_subgroups g)
  end.

(** [groups[group_name]], created at the end of the dict when the key is
    new, receives the idea. *)
Fixpoint add_to_groups (name : string) (sub : option string) (idea : string)
         (groups : list GroupNode) : list GroupNode :=
  match groups with
  | [] => [add_to_group sub idea (mkGroup name [] [])]
  | g :: rest =>
      if String.eqb (g_name g) name
      then add_to_group sub idea g :: rest
      else g :: add_to_groups name sub idea rest
  end.

(** The body of the loop over the entries. *)
Definition snapshot_step (groups : list GroupNode) (e : InboxEntry)
  : list GroupNode :=
  match tag_parts (e_tags e) with
  | [] => groups
  | group_name :: _ =>
      add_to_groups group_name (second_part (tag_parts (e_tags e)))
                    (entry_idea_text e) groups
  end.

Definition has_tags (e : InboxEntry) : bool :=
  match e_tags e with Some _ => true | None => false end.

(** [_build_existing_groups(db)]: the groups in the order in which they
    were first met. *)
Definition _build_existing_groups (db : Db) : list GroupNode :=
  fold_left snapshot_step
            (filter (fun e => status_eqb (e_status e) processed && has_tags e)
                    (entries db))
            [].

(** A snapshot without repetition: distinct group names, and inside each
    group distinct ideas, distinct subgroup names and distinct ideas in
    each subgroup; no idea is the empty text. *)
Definition ideas_ok (ideas : list string) : Prop :=
  NoDup ideas /\ ~ In EmptyString ideas.

Definition group_ok (g : GroupNode) : Prop :=
  ideas_ok (g_ideas g)
  /\ NoDup (map sg_name (g_subgroups g))
  /\ Forall (fun s => ideas_ok (sg_ideas s)) (g_subgroups g).

Definition snapshot_ok (groups : list GroupNode) : Prop :=
  NoDup (map g_name groups) /\ Forall group_ok groups.

(** The idea is listed under the group, or under its subgroup. *)
Definition listed (groups : list GroupNode) (name : string)
           (sub : option string) (idea : string) : Prop :=
  exists g, In g groups /\ g_name g = name
            /\ match nonempty sub with
               | None => In idea (g_ideas g)
               | Some s => exists sg, In sg (g_subgroups g)
                                      /\ sg_name sg = s
                                      /\ In idea (sg_ideas sg)
               end.

(** [g'] lists at least what [g] lists, under the same names. *)
Definition grows (g g' : GroupNode) : Prop :=
  g_name g' = g_name g
  /\ incl (g_ideas g) (g_ideas g')
  /\ forall sg, In sg (g_subgroups g) ->
                exists sg', In sg' (g_subgroups g')
                            /\ sg_name sg' = sg_name sg
                            /\ incl (sg_ideas sg) (sg_ideas sg').

End Snapshot.

(** ** Document import in [ai-service/main.py] *)

Module AiService.
Import PyStr.

(** [CHUNK_SIZE] and [OVERLAP] of [_extract_ideas_from_document]. *)
Definition CHUNK_SIZE : nat := 8 * 1000.
Definition OVERLAP : nat := 5 * 100.

(** [s[n:]]. *)
Fixpoint drop (n : nat) (s : string) : string :=
  match n, s with
  | S n', String _ s' => drop n' s'
  | _, _ => s
  end.

(** The [while i < len(text)] loop, on the text that is left from
    position [i] on: the chunk [text[i : i + size]] is cut and [i] moves
    on by [step].  [fuel] bounds the number of rounds. *)
Fixpoint chunk_loop (fuel size step : nat) (rest : string) : list string :=
  match fuel with
  | O => []
  | S fuel' =>
      match rest with
      | EmptyString => []
      | _ => Re.take size rest :: chunk_loop fuel' size step (drop step rest)
      end
  end.

(** The chunks of a document; a round consumes at least one character,
    so the length of the text is fuel enough. *)
Definition chunks (text : string) : list string :=
  chunk_loop (String.length text) CHUNK_SIZE (CHUNK_SIZE - OVERLAP) text.

(** ["".join(l)]. *)
Fixpoint concat_strings (l : list string) : string :=
  match l with
  | [] => EmptyString
  | s :: l' => s ++ concat_strings l'
  end.

(** One extracted idea, a dict with the keys group, subgroup and idea. *)
Record Extracted : Type := mkExtracted {
  x_group : string;
  x_subgroup : option string;
  x_idea : string
}.

Definition idea_key (r : Extracted) : string := lower (x_idea r).

(** The body of the deduplication loop, on the pair of [seen] and
    [unique]. *)
Definition keep_first (st : list string * list Extracted) (r : Extracted)
  : list string * list Extracted :=
  let (seen, unique) := st in
  let key := idea_key r in
  if existsb (String.eqb key) seen then (seen, unique)
  else (key :: seen, (unique ++ [r])%list).

(** The last lines of [_extract_ideas_from_document]: the results without
    the ideas already seen, case ignored. *)
Definition deduplicate (results : list Extracted) : list Extracted :=
  snd (fold_left keep_first results ([], [])).

(** The same loop as a recursion on the results that are left. *)
Fixpoint unseen (seen : list string) (results : list Extracted)
  : list Extracted :=
  match results with
  | [] => []
  | r :: rest =>
      if existsb (String.eqb (idea_key r)) seen then unseen seen rest
      else r :: unseen (idea_key r :: seen) rest
  end.

End AiService.

(** * Properties *)

(** ** Strings *)

Module PyStrFacts.
Import PyStr.

Lemma append_assoc (a b c : string) : (a ++ b) ++ c = a ++ (b ++ c).
Proof. induction a as [|x a IH]; simpl; [reflexivity | now rewrite IH]. Qed.

Lemma prefix_app (a q : string) : prefix a (a ++ q) = true.
Proof.
  induction a as [|x a IH]; simpl.
  - now destruct q.
  - destruct (ascii_dec x x) as [_|ne]; [exact IH | now elim ne].
Qed.

Lemma prefix_inv (a b : string) :
  prefix a b = true -> exists q, b = a ++ q.
Proof.
  revert b; induction a as [|x a IH]; intros b H.
  - now exists b.
  - destruct b as [|y b]; simpl in H; [discriminate|].
    destruct (ascii_dec x y) as [->|]; [|discriminate].
    destruct (IH b H) as [q ->]. now exists q.
Qed.

Lemma contains_prefix (a b : string) :
  prefix a b = true -> contains a b = true.
Proof. intros H. destruct b; cbn [contains]; now rewrite H. Qed.

Lemma contains_intro (p a q : string) : contains a (p ++ a ++ q) = true.
Proof.
  induction p as [|x p IH].
  - change (contains a (a ++ q) = true). apply contains_prefix, prefix_app.
  - change (contains a (String x (p ++ a ++ q)) = true).
    cbn [contains]. rewrite IH.
    now destruct (prefix a (String x (p ++ a ++ q))).
Qed.

Lemma contains_inv (a b : string) :
  contains a b = true -> exists p q, b = p ++ a ++ q.
Proof.
  induction b as [|y b IH]; cbn [contains]; intros H.
  - destruct (prefix a "") eqn:E; [|discriminate].
    destruct (prefix_inv _ _ E) as [q Hq]. now exists "", q.
  - destruct (prefix a (String y b)) eqn:E.
    + destruct (prefix_inv _ _ E) as [q Hq]. now exists "", q.
    + destruct (IH H) as (p & q & ->). now exists (String y p), q.
Qed.

(** A text that contains [x ++ y] contains [y]. *)
Lemma contains_tail (x y t : string) :
  contains (x ++ y) t = true -> contains y t = true.
Proof.
  intros H. destruct (contains_inv _ _ H) as (p & q & ->).
  rewrite append_assoc, <- (append_assoc p x). apply contains_intro.
Qed.

End PyStrFacts.

(** ** Fuzzy matcher *)

Module FuzzyFacts.
Import PyStr Fuzzy.

Lemma _similar_refl (a : string) : _similar a a = true.
Proof. unfold _similar. now rewrite String.eqb_refl. Qed.

(** The matcher is symmetric as soon as the length test gives the same
    answer on both normalized texts. *)
Lemma _similar_sym_same_guard (a b : string) :
  (3 <? String.length (_normalize a)) = (3 <? String.length (_normalize b)) ->
  _similar a b = _similar b a.
Proof.
  unfold _similar. intros ->.
  rewrite (String.eqb_sym (_normalize a)).
  now rewrite (orb_comm (contains (_normalize a) (_normalize b))).
Qed.

(** C2: [similar(a, a)] holds for every text, but [similar] is not
    symmetric: the length test only looks at the first argument, so a long
    first text matches a short second one that it contains
    ([_similar("abcd", "a")] is true, even against the empty text), while
    in the other order the short first text fails the test
    ([_similar("a", "abcd")] is false). *)
Theorem similar_not_symmetric_on_short_text :
  _similar "abcd" "a" = true /\ _similar "a" "abcd" = false
  /\ _similar "abcd" "" = true /\ _similar "" "abcd" = false
  /\ (forall a, _similar a a = true).
Proof.
  repeat split; try reflexivity. apply _similar_refl.
Qed.

(** Texts that the spec calls similar pass [_similar], in either order:
    the code only matches more than the spec. *)
Lemma similar_spec_implies_similar (a b : string) :
  similar_spec a b = true -> _similar a b = true.
Proof.
  unfold similar_spec, _similar.
  destruct (String.eqb (_normalize a) (_normalize b)); [reflexivity|].
  cbn [orb]. rewrite andb_true_iff, Nat.ltb_lt.
  destruct (String.length (_normalize a) <=? String.length (_normalize b))
    eqn:E; intros [Hlen Hc].
  - apply Nat.ltb_lt in Hlen. now rewrite Hlen, Hc.
  - apply Nat.leb_gt in E.
    assert (H : (3 <? String.length (_normalize a)) = true)
      by (apply Nat.ltb_lt; lia).
    rewrite H, Hc. now rewrite orb_true_r.
Qed.

End FuzzyFacts.

(** ** Datetimes *)

Module DateTimeFacts.
Import DateTime.
Local Open Scope Z_scope.

Lemma td_of_us_normal (d s u : Z) :
  0 <= s < 86400 -> 0 <= u < 1000000 ->
  td_of_us ((d * 86400 + s) * us_per_second + u) = mkTimedelta d s u.
Proof.
  intros Hs Hu. unfold td_of_us, us_per_day, us_per_second.
  assert (Hq : ((d * 86400 + s) * 1000000 + u) / (86400 * 1000000) = d).
  { symmetry. apply Z.div_unique with (r := s * 1000000 + u); lia. }
  assert (Hr : ((d * 86400 + s) * 1000000 + u) mod (86400 * 1000000)
               = s * 1000000 + u).
  { symmetry. apply Z.mod_unique with (q := d); lia. }
  rewrite Hq, Hr. f_equal.
  - symmetry. apply Z.div_unique with (r := u); lia.
  - symmetry. apply Z.mod_unique with (q := s); lia.
Qed.

(** Adding whole days to a datetime with its time fields in range only
    moves the date. *)
Lemma dt_add_days (t : datetime) (d : Z) :
  wf t ->
  dt_add t (new_timedelta d 0 0 0 0)
  = mkDatetime (ordinal t + d) (hour t) (minute t) (second t) (microsecond t).
Proof.
  intros (Hh & Hm & Hs & Hu). unfold dt_add, new_timedelta, td_add.
  replace ((d * 86400 + 0 * 3600 + 0 * 60 + 0) * us_per_second + 0)
    with ((d * 86400 + 0) * us_per_second + 0) by lia.
  rewrite (td_of_us_normal d 0 0) by lia.
  replace ((ordinal t * 86400 + hour t * 3600 + minute t * 60 + second t)
           * us_per_second + microsecond t)
    with ((ordinal t * 86400 + (hour t * 3600 + minute t * 60 + second t))
          * us_per_second + microsecond t) by lia.
  rewrite td_of_us_normal by lia.
  unfold td_to_us; cbn [days seconds microseconds].
  replace ((ordinal t * 86400 + (hour t * 3600 + minute t * 60 + second t))
           * us_per_second + microsecond t
           + ((d * 86400 + 0) * us_per_second + 0))
    with (((ordinal t + d) * 86400
           + (hour t * 3600 + minute t * 60 + second t))
          * us_per_second + microsecond t) by lia.
  rewrite td_of_us_normal by lia. cbn [days seconds microseconds].
  assert (Hq : (hour t * 3600 + minute t * 60 + second t) / 3600 = hour t).
  { symmetry. apply Z.div_unique with (r := minute t * 60 + second t); lia. }
  assert (Hr : (hour t * 3600 + minute t * 60 + second t) mod 3600
               = minute t * 60 + second t).
  { symmetry. apply Z.mod_unique with (q := hour t); lia. }
  rewrite Hq, Hr. f_equal.
  - symmetry. apply Z.div_unique with (r := second t); lia.
  - symmetry. apply Z.mod_unique with (q := minute t); lia.
Qed.

Lemma replace_time_wf (t : datetime) (h m : Z) :
  0 <= h <= 23 -> 0 <= m <= 59 -> wf (replace_time t h m).
Proof. unfold wf; simpl; lia. Qed.

End DateTimeFacts.

(** ** Temporal extractor *)

Module TemporalFacts.
Import PyStr DateTime Temporal Samples.
Import PyStrFacts DateTimeFacts.
Local Open Scope Z_scope.

Lemma time_in_note_range (text : string) (h m : Z) :
  time_in_note text = Some (h, m) -> 0 <= h <= 23 /\ 0 <= m <= 59.
Proof.
  unfold time_in_note.
  destruct (Re.search _TIME_IN_NOTE_RE (lower text)) as [f|]; [|discriminate].
  match goal with
  | |- (if ?c then _ else _) = _ -> _ => destruct c eqn:E; [|discriminate]
  end.
  intros H; inversion H; subst; clear H. lia.
Qed.

(** The test for "tomorrow" comes first and every text with "pasado
    manana" contains "manana": the second branch of the [if] is never
    taken. *)
Lemma day_offset_pasado_manana (text_l : string) (today : Z) :
  contains pasado_manana_tilde text_l = true
  \/ contains pasado_manana_plain text_l = true ->
  day_offset_of text_l today = Some 1.
Proof.
  unfold day_offset_of, pasado_manana_tilde, pasado_manana_plain.
  intros [H|H]; apply contains_tail in H; rewrite H;
    [reflexivity | now rewrite orb_true_r].
Qed.

Lemma day_offset_never_two (text_l : string) (today : Z) :
  day_offset_of text_l today = Some 2 ->
  contains manana_tilde text_l = false
  /\ contains manana_plain text_l = false
  /\ contains pasado_manana_tilde text_l = false
  /\ contains pasado_manana_plain text_l = false.
Proof.
  unfold day_offset_of.
  destruct (contains manana_tilde text_l) eqn:E1; [discriminate|].
  destruct (contains manana_plain text_l) eqn:E2; [discriminate|].
  cbn [orb]. intros _. repeat split.
  - destruct (contains pasado_manana_tilde text_l) eqn:E; [|reflexivity].
    apply contains_tail in E. congruence.
  - destruct (contains pasado_manana_plain text_l) eqn:E; [|reflexivity].
    apply contains_tail in E. congruence.
Qed.

Lemma auto_fire_at_pasado_manana (now : datetime) (text : string) (h m : Z) :
  time_in_note text = Some (h, m) ->
  contains pasado_manana_tilde (lower text) = true
  \/ contains pasado_manana_plain (lower text) = true ->
  _auto_fire_at now text = Some (mkDatetime (ordinal now + 1) h m 0 0).
Proof.
  intros Ht Hp. unfold _auto_fire_at. rewrite Ht.
  rewrite (day_offset_pasado_manana _ _ Hp).
  destruct (time_in_note_range _ _ _ Ht).
  now rewrite dt_add_days by (apply replace_time_wf; lia).
Qed.

(** C3: the "day after tomorrow" keyword does not take priority over
    "tomorrow".  The test for 'manana' comes first in [_auto_fire_at], so
    a note with a valid time and 'pasado manana' (with or without the
    tilde) resolves to now + 1 day, the same date as plain 'manana', and
    not to now + 2 days. *)
Theorem pasado_manana_resolves_to_tomorrow :
  _auto_fire_at monday_8h "a las 18 pasado manana"
  = Some (mkDatetime (ordinal monday_8h + 1) 18 0 0 0)
  /\ _auto_fire_at monday_8h ("a las 18 pasado ma" ++ String n_tilde "ana")
     = Some (mkDatetime (ordinal monday_8h + 1) 18 0 0 0)
  /\ _auto_fire_at monday_8h "a las 18 manana"
     = Some (mkDatetime (ordinal monday_8h + 1) 18 0 0 0).
Proof. repeat split; vm_compute; reflexivity. Qed.

Lemma weekday_table_range (name : string) (w : Z) :
  In (name, w) _WEEKDAYS_BACKEND -> 0 <= w <= 6.
Proof.
  unfold _WEEKDAYS_BACKEND. simpl.
  intros H.
  repeat (destruct H as [H|H]; [inversion H; lia|]). contradiction.
Qed.

(** The loop over the table, when every name found in the text stands
    for the same day [w]. *)
Lemma weekday_offset_named (table : list (string * Z)) (text_l : string)
      (today w : Z) :
  (exists name, In (name, w) table /\ contains name text_l = true) ->
  (forall n' w', In (n', w') table -> contains n' text_l = true -> w' = w) ->
  weekday_offset table text_l today
  = Some (if (w - today) mod 7 >? 0 then (w - today) mod 7 else 7).
Proof.
  induction table as [|[n0 w0] table IH]; intros (name & Hin & Hc) Hall.
  - contradiction.
  - cbn [weekday_offset]. destruct (contains n0 text_l) eqn:E.
    + rewrite (Hall n0 w0 (or_introl eq_refl) E). reflexivity.
    + apply IH.
      * destruct Hin as [Heq|Hin]; [inversion Heq; subst; congruence|].
        now exists name.
      * intros n' w' Hin' Hc'. apply (Hall n' w'); [now right | exact Hc'].
Qed.

(** C9: with a valid time pattern and a weekday name in the text (and
    no "tomorrow" keyword, which is looked at before the weekdays), the
    date is the next occurrence of that weekday strictly after today: the
    offset is [(weekday - today) mod 7] when positive and 7 when today is
    that weekday, so it lies between 1 and 7 and is never 0. *)
Theorem weekday_resolves_to_next_occurrence
        (now : datetime) (text name : string) (w h m : Z) :
  time_in_note text = Some (h, m) ->
  contains manana_tilde (lower text) = false ->
  contains manana_plain (lower text) = false ->
  In (name, w) _WEEKDAYS_BACKEND ->
  contains name (lower text) = true ->
  (forall n' w', In (n', w') _WEEKDAYS_BACKEND ->
                 contains n' (lower text) = true -> w' = w) ->
  exists d,
    _auto_fire_at now text = Some (mkDatetime (ordinal now + d) h m 0 0)
    /\ d = (if (w - weekday now) mod 7 >? 0
            then (w - weekday now) mod 7 else 7)
    /\ 1 <= d <= 7
    /\ weekday (mkDatetime (ordinal now + d) h m 0 0) = w
    /\ (weekday now = w -> d = 7)
    /\ (weekday now <> w -> d = (w - weekday now) mod 7).
Proof.
  intros Ht Hm1 Hm2 Hin Hc Hall.
  pose proof (weekday_table_range _ _ Hin) as Hw.
  destruct (time_in_note_range _ _ _ Ht) as [Hh Hmi].
  set (d := if (w - weekday now) mod 7 >? 0
            then (w - weekday now) mod 7 else 7).
  exists d. split; [|split; [reflexivity|]].
  - unfold _auto_fire_at. rewrite Ht.
    unfold day_offset_of. rewrite Hm1, Hm2. cbn [orb].
    destruct (contains pasado_manana_tilde (lower text)) eqn:E1;
      [apply contains_tail in E1; congruence|].
    destruct (contains pasado_manana_plain (lower text)) eqn:E2;
      [apply contains_tail in E2; congruence|].
    cbn [orb].
    rewrite (weekday_offset_named _ _ _ w) by eauto.
    now rewrite dt_add_days by (apply replace_time_wf; lia).
  - subst d. unfold weekday in *. cbn [ordinal].
    destruct ((w - (ordinal now + 6) mod 7) mod 7 >? 0) eqn:E;
      [apply Z.gtb_lt in E | rewrite Z.gtb_ltb in E; apply Z.ltb_ge in E];
      repeat split; intros; Z.div_mod_to_equations; lia.
Qed.

(** Asked on Friday 2024-01-05 at 10:00, 'el viernes a las 9:30' is the
    Friday of the following week. *)
Lemma weekday_resolves_to_next_occurrence_witness :
  exists d,
    _auto_fire_at friday_10h "reunion el viernes a las 9:30"
    = Some (mkDatetime (ordinal friday_10h + d) 9 30 0 0)
    /\ d = (if (4 - weekday friday_10h) mod 7 >? 0
            then (4 - weekday friday_10h) mod 7 else 7)
    /\ 1 <= d <= 7
    /\ weekday (mkDatetime (ordinal friday_10h + d) 9 30 0 0) = 4
    /\ (weekday friday_10h = 4 -> d = 7)
    /\ (weekday friday_10h <> 4 -> d = (4 - weekday friday_10h) mod 7).
Proof.
  apply (weekday_resolves_to_next_occurrence
           friday_10h "reunion el viernes a las 9:30" "viernes" 4 9 30).
  - reflexivity.
  - reflexivity.
  - reflexivity.
  - simpl. tauto.
  - reflexivity.
  - intros n' w' Hin Hc. simpl in Hin.
    repeat (destruct Hin as [Heq|Hin];
            [inversion Heq; subst; first [reflexivity | discriminate Hc]|]).
    contradiction.
Defined.

Example friday_query_rolls_a_week :
  _auto_fire_at friday_10h "reunion el viernes a las 9:30"
  = Some (mkDatetime (ordinal friday_10h + 7) 9 30 0 0)
  /\ _auto_fire_at monday_8h "reunion el viernes a las 9:30"
     = Some (mkDatetime (ordinal monday_8h + 4) 9 30 0 0).
Proof. split; vm_compute; reflexivity. Qed.

End TemporalFacts.

(** ** Delete resolver *)

Module DeleteFacts.
Import PyStr DateTime Store AiBridge DeletePattern.

Lemma fold_append_filter {A : Type} (p : A -> bool) (l acc : list A) :
  fold_left (fun matches e => if p e then (matches ++ [e])%list else matches)
            l acc
  = (acc ++ filter p l)%list.
Proof.
  revert acc; induction l as [|x l IH]; intros acc; simpl.
  - now rewrite app_nil_r.
  - rewrite IH. destruct (p x); [|reflexivity].
    now rewrite <- app_assoc.
Qed.

(** The loop of [_entries_matching_delete] keeps, in store order, the
    processed entries that pass the three checks. *)
Lemma entries_matching_delete_filter (ai : AiResult) (db : Db) :
  _entries_matching_delete ai db
  = filter (entry_matches (pattern_group ai) (pattern_subgroup ai)
                          (pattern_idea ai))
           (processed_entries db).
Proof. unfold _entries_matching_delete. now rewrite fold_append_filter. Qed.

Lemma field_ok_spec (pattern stored : string) :
  field_ok pattern stored = true <-> wildcard_or_similar pattern stored.
Proof.
  unfold field_ok, wildcard_or_similar. rewrite orb_true_iff.
  split; intros [H|H]; auto.
  - left. now destruct pattern.
  - left. now subst.
Qed.

Lemma status_eqb_eq (a b : status) : status_eqb a b = true <-> a = b.
Proof. destruct a, b; simpl; split; congruence. Qed.

Lemma in_processed_entries (db : Db) (e : InboxEntry) :
  In e (processed_entries db) <-> In e (entries db) /\ e_status e = processed.
Proof.
  unfold processed_entries. rewrite filter_In. now rewrite status_eqb_eq.
Qed.

(** The delete resolver looks at the processed entries only; an empty
    pattern field is a wildcard and any other field must pass
    [_similar(stored, pattern)] (group: first tag segment, subgroup:
    second tag segment, idea: summary or else content); an entry matches
    exactly when the three checks pass.  With only the idea set the tag
    path plays no part, and with the three fields set the three stored
    fields must pass. *)
Theorem delete_resolver_matches_all_fields (ai : AiResult) (db : Db) :
  (forall e,
      In e (_entries_matching_delete ai db) <->
      In e (entries db) /\ e_status e = processed
      /\ wildcard_or_similar (pattern_group ai) (stored_group e)
      /\ wildcard_or_similar (pattern_subgroup ai) (stored_subgroup e)
      /\ wildcard_or_similar (pattern_idea ai) (stored_idea e))
  /\ (pattern_group ai = EmptyString -> pattern_subgroup ai = EmptyString ->
      pattern_idea ai <> EmptyString ->
      forall e,
        In e (_entries_matching_delete ai db) <->
        In e (entries db) /\ e_status e = processed
        /\ _similar (stored_idea e) (pattern_idea ai) = true)
  /\ (pattern_group ai <> EmptyString ->
      pattern_subgroup ai <> EmptyString ->
      pattern_idea ai <> EmptyString ->
      forall e,
        In e (_entries_matching_delete ai db) <->
        In e (entries db) /\ e_status e = processed
        /\ _similar (stored_group e) (pattern_group ai) = true
        /\ _similar (stored_subgroup e) (pattern_subgroup ai) = true
        /\ _similar (stored_idea e) (pattern_idea ai) = true).
Proof.
  assert (Hmain : forall e,
      In e (_entries_matching_delete ai db) <->
      In e (entries db) /\ e_status e = processed
      /\ wildcard_or_similar (pattern_group ai) (stored_group e)
      /\ wildcard_or_similar (pattern_subgroup ai) (stored_subgroup e)
      /\ wildcard_or_similar (pattern_idea ai) (stored_idea e)).
  { intros e. rewrite entries_matching_delete_filter, filter_In.
    rewrite in_processed_entries. unfold entry_matches.
    rewrite !andb_true_iff, !field_ok_spec.
    unfold stored_group, stored_subgroup, stored_idea. tauto. }
  split; [exact Hmain|]. unfold wildcard_or_similar in Hmain.
  split.
  - intros Hg Hs Hi e. rewrite Hmain. intuition congruence.
  - intros Hg Hs Hi e. rewrite Hmain. intuition congruence.
Qed.

(** Deleting rows, one call of [db.delete] after the other. *)
Lemma fold_db_delete (ms : list InboxEntry) (db : Db) :
  fold_left db_delete ms db
  = with_entries db (fold_left (fun es e => remove_row e es) ms (entries db)).
Proof.
  revert db; induction ms as [|m ms IH]; intros db; simpl.
  - now destruct db.
  - rewrite IH. reflexivity.
Qed.

Lemma remove_row_skip (a : InboxEntry) (pre es : list InboxEntry) :
  Forall (fun x => x <> a) pre ->
  remove_row a (pre ++ a :: es) = (pre ++ es)%list.
Proof.
  induction 1 as [|x pre Hx _ IH]; simpl.
  - destruct (entry_eq_dec a a); congruence.
  - destruct (entry_eq_dec a x); [congruence | now rewrite IH].
Qed.

Lemma remove_filtered_rows (p : InboxEntry -> bool)
      (es pre : list InboxEntry) :
  Forall (fun x => p x = false) pre ->
  fold_left (fun acc e => remove_row e acc) (filter p es) (pre ++ es)%list
  = (pre ++ filter (fun e => negb (p e)) es)%list.
Proof.
  revert pre; induction es as [|a es IH]; intros pre Hpre; simpl.
  - reflexivity.
  - destruct (p a) eqn:E; simpl.
    + rewrite remove_row_skip.
      * now apply IH.
      * eapply Forall_impl; [|exact Hpre]. simpl. intros x Hx ->. congruence.
    + replace (pre ++ a :: es)%list with ((pre ++ [a]) ++ es)%list
        by now rewrite <- app_assoc.
      rewrite IH.
      * now rewrite <- app_assoc.
      * apply Forall_app. split; [exact Hpre | now constructor].
Qed.

Lemma is_blank_normalize (f : field string) :
  is_blank f = true -> _normalize (or_empty (get f)) = EmptyString.
Proof.
  unfold is_blank. destruct (or_empty (get f)); [reflexivity | discriminate].
Qed.

(** C10: a delete result whose group, subgroup and idea are all empty
    or absent matches every processed entry, and
    [delete_entries_matching] then removes all of them from the store,
    commits once and returns them; the other rows and tables are left as
    they were. *)
Theorem blank_delete_pattern_empties_processed_store
        (ai : AiResult) (db : Db) :
  is_blank (group ai) = true ->
  is_blank (subgroup ai) = true ->
  is_blank (idea ai) = true ->
  _entries_matching_delete ai db = processed_entries db
  /\ fst (delete_entries_matching ai db) = processed_entries db
  /\ entries (snd (delete_entries_matching ai db))
     = filter (fun e => negb (status_eqb (e_status e) processed)) (entries db)
  /\ (forall e, In e (entries (snd (delete_entries_matching ai db))) ->
                e_status e <> processed)
  /\ commits (snd (delete_entries_matching ai db))
     = (match processed_entries db with
        | [] => commits db
        | _ => S (commits db)
        end)
  /\ reminders (snd (delete_entries_matching ai db)) = reminders db
  /\ summaries (snd (delete_entries_matching ai db)) = summaries db.
Proof.
  intros Hg Hs Hi.
  assert (Hall : _entries_matching_delete ai db = processed_entries db).
  { rewrite entries_matching_delete_filter.
    unfold pattern_group, pattern_subgroup, pattern_idea.
    rewrite (is_blank_normalize _ Hg), (is_blank_normalize _ Hs),
      (is_blank_normalize _ Hi).
    apply forallb_filter_id. apply forallb_forall. reflexivity. }
  assert (Hent : entries (snd (delete_entries_matching ai db))
     = filter (fun e => negb (status_eqb (e_status e) processed)) (entries db)).
  { unfold delete_entries_matching. rewrite Hall, fold_db_delete.
    unfold processed_entries.
    rewrite (remove_filtered_rows _ (entries db) []) by constructor.
    simpl. now destruct (filter _ (entries db)). }
  split; [exact Hall|]. split; [exact Hall|]. split; [exact Hent|].
  split.
  - intros e He. rewrite Hent in He. apply filter_In in He.
    destruct He as [_ He]. intros Heq. rewrite Heq in He. discriminate.
  - unfold delete_entries_matching. rewrite Hall, fold_db_delete.
    destruct (processed_entries db); simpl; auto.
Qed.

Lemma blank_delete_pattern_empties_processed_store_witness :
  _entries_matching_delete Samples.blank_delete Samples.db_with_due_reminder
  = processed_entries Samples.db_with_due_reminder
  /\ fst (delete_entries_matching Samples.blank_delete
                                  Samples.db_with_due_reminder)
     = processed_entries Samples.db_with_due_reminder
  /\ entries (snd (delete_entries_matching Samples.blank_delete
                                           Samples.db_with_due_reminder))
     = filter (fun e => negb (status_eqb (e_status e) processed))
              (entries Samples.db_with_due_reminder)
  /\ (forall e,
         In e (entries (snd (delete_entries_matching
                               Samples.blank_delete
                               Samples.db_with_due_reminder))) ->
         e_status e <> processed)
  /\ commits (snd (delete_entries_matching Samples.blank_delete
                                           Samples.db_with_due_reminder))
     = (match processed_entries Samples.db_with_due_reminder with
        | [] => commits Samples.db_with_due_reminder
        | _ => S (commits Samples.db_with_due_reminder)
        end)
  /\ reminders (snd (delete_entries_matching Samples.blank_delete
                                             Samples.db_with_due_reminder))
     = reminders Samples.db_with_due_reminder
  /\ summaries (snd (delete_entries_matching Samples.blank_delete
                                             Samples.db_with_due_reminder))
     = summaries Samples.db_with_due_reminder.
Proof.
  apply (blank_delete_pattern_empties_processed_store
           Samples.blank_delete Samples.db_with_due_reminder);
    reflexivity.
Defined.

Example blank_delete_wipes_both_entries :
  delete_entries_matching Samples.blank_delete Samples.db_with_due_reminder
  = (entries Samples.db_with_due_reminder,
     mkDb [] (reminders Samples.db_with_due_reminder) [] 3 3 1).
Proof. reflexivity. Qed.

(** C5: the wildcards and the conjunction of the three checks are as the
    claim says, but the check of a field is [_similar(stored, pattern)],
    whose length test looks at the stored field only.  A pattern of 3
    characters or fewer therefore matches every stored field of more than
    3 characters that contains it: the pattern idea "pan" makes the
    resolver return the entry "comprar pan integral", which is not similar
    to it in the sense of the spec (the shorter text has 3 characters).
    In the other direction nothing is lost: what the spec calls similar
    passes the check of the code. *)
Theorem delete_resolver_matches_dissimilar_idea :
  let e := Samples.stored 1 "comprar pan integral" "casa" processed in
  let db := mkDb [e] [] [] 2 1 0 in
  let ai := mkAi (Val true) (Val "delete") Absent Absent (Val "pan") Absent
                 Absent in
  _entries_matching_delete ai db = [e]
  /\ Fuzzy.similar_spec (stored_idea e) (pattern_idea ai) = false
  /\ Fuzzy.similar_spec (pattern_idea ai) (stored_idea e) = false
  /\ _similar (stored_idea e) (pattern_idea ai) = true
  /\ (forall a b, Fuzzy.similar_spec a b = true -> _similar a b = true).
Proof.
  cbv zeta. split; [reflexivity|]. split; [reflexivity|].
  split; [reflexivity|]. split; [reflexivity|].
  exact FuzzyFacts.similar_spec_implies_similar.
Qed.

End DeleteFacts.

(** ** Reminder scheduler *)

Module SchedulerFacts.
Import PyStr DateTime Store World Main Scheduler Samples.

Lemma distinct_NoDup (l : list nat) : distinct l = true -> NoDup l.
Proof.
  induction l as [|a l IH]; simpl; intros H; [constructor|].
  apply andb_true_iff in H as [H1 H2]. constructor; [|auto].
  intros Hin. apply negb_true_iff in H1.
  assert (existsb (Nat.eqb a) l = true) as E
      by (apply existsb_exists; exists a; split; [exact Hin | apply Nat.eqb_refl]).
  congruence.
Qed.

Lemma NoDup_map_filter {A : Type} (f : A -> nat) (p : A -> bool) (l : list A) :
  NoDup (map f l) -> NoDup (map f (filter p l)).
Proof.
  induction l as [|a l IH]; simpl; intros H; [constructor|].
  inversion H as [|? ? Hn Hd]; subst.
  destruct (p a); simpl; [|auto].
  constructor; [|auto].
  intros Hin. apply Hn. apply in_map_iff in Hin as (x & Hx & Hin).
  apply filter_In in Hin as [Hin _]. apply in_map_iff. now exists x.
Qed.

(** *** Counting rows by key *)

Lemma count_key_zero (rid : nat) (ds : list Reminder) :
  (forall d, In d ds -> r_id d <> rid) ->
  filter (fun d => r_id d =? rid) ds = [].
Proof.
  induction ds as [|a ds IH]; simpl; intros H; [reflexivity|].
  destruct (r_id a =? rid) eqn:E.
  - apply Nat.eqb_eq in E. now elim (H a (or_introl eq_refl)).
  - apply IH. intros d Hd. apply H. now right.
Qed.

Lemma count_key_le_1 (rid : nat) (ds : list Reminder) :
  NoDup (map r_id ds) ->
  List.length (filter (fun d => r_id d =? rid) ds) <= 1.
Proof.
  induction ds as [|a ds IH]; simpl; intros H; [lia|].
  inversion H as [|? ? Hn Hd]; subst.
  destruct (r_id a =? rid) eqn:E; [|auto].
  apply Nat.eqb_eq in E. rewrite count_key_zero; [simpl; lia|].
  intros d Hd' Heq. apply Hn. apply in_map_iff. exists d. split; congruence.
Qed.

Lemma count_key_pos (r : Reminder) (ds : list Reminder) :
  In r ds -> 1 <= List.length (filter (fun d => r_id d =? r_id r) ds).
Proof.
  intros Hin.
  assert (In r (filter (fun d => r_id d =? r_id r) ds)) as H
      by (apply filter_In; split; [exact Hin | apply Nat.eqb_refl]).
  destruct (filter _ ds); [contradiction | simpl; lia].
Qed.

Lemma attempts_for_app (rid : nat) (l1 l2 : list attempt) :
  attempts_for rid (l1 ++ l2) = attempts_for rid l1 + attempts_for rid l2.
Proof. unfold attempts_for. now rewrite filter_app, length_app. Qed.

Section OneEnvironment.
Variable env : Env.

Lemma attempts_for_deliveries (rid : nat) (ds : list Reminder) :
  attempts_for rid (map (delivery env) ds)
  = List.length (filter (fun d => r_id d =? rid) ds).
Proof.
  unfold attempts_for. induction ds as [|a ds IH]; simpl; [reflexivity|].
  destruct (r_id a =? rid); simpl; now rewrite IH.
Qed.

(** *** One poll, unfolded *)

Lemma fold_fire (ds : list Reminder) (db : Db) (log : list attempt) :
  fold_left (fire env) ds (db, log)
  = (fold_left fire_db ds db, (log ++ map (delivery env) ds)%list).
Proof.
  revert db log; induction ds as [|a ds IH]; intros db log; simpl.
  - now rewrite app_nil_r.
  - rewrite IH. now rewrite <- app_assoc.
Qed.

Lemma check_reminders_eq (now : datetime) (db : Db) :
  _check_reminders env now db
  = (match filter (is_due now) (reminders db) with
     | [] => db
     | due => commit (fold_left fire_db due db)
     end,
     map (delivery env) (filter (is_due now) (reminders db))).
Proof.
  unfold _check_reminders. rewrite fold_fire. simpl.
  now destruct (filter (is_due now) (reminders db)).
Qed.

Lemma reminders_fire_db (db : Db) (r : Reminder) :
  reminders (fire_db db r) = mark_sent r (reminders db).
Proof.
  unfold fire_db. destruct (truthy_id (r_entry_id r)) as [i|]; [|reflexivity].
  now destruct (entry_by_id _ i).
Qed.

Lemma reminders_fold_fire_db (ds : list Reminder) (db : Db) :
  reminders (fold_left fire_db ds db) = map (sent_by ds) (reminders db).
Proof.
  revert db; induction ds as [|a ds IH]; intros db; simpl.
  - symmetry. apply map_id.
  - rewrite IH, reminders_fire_db. unfold mark_sent. rewrite map_map.
    apply map_ext. intros x. unfold sent_by. simpl.
    destruct (r_id x =? r_id a); simpl; [|reflexivity].
    now destruct (existsb _ ds).
Qed.

Lemma reminders_after_poll (now : datetime) (db : Db) :
  reminders (fst (_check_reminders env now db))
  = map (sent_by (filter (is_due now) (reminders db))) (reminders db).
Proof.
  rewrite check_reminders_eq. cbn [fst].
  rewrite <- reminders_fold_fire_db.
  now destruct (filter (is_due now) (reminders db)).
Qed.

Lemma log_of_poll (now : datetime) (db : Db) :
  snd (_check_reminders env now db)
  = map (delivery env) (filter (is_due now) (reminders db)).
Proof. now rewrite check_reminders_eq. Qed.

Lemma sent_by_id (ds : list Reminder) (x : Reminder) :
  r_id (sent_by ds x) = r_id x.
Proof. unfold sent_by. now destruct (existsb _ ds). Qed.

Lemma keys_after_poll (now : datetime) (db : Db) :
  map r_id (reminders (fst (_check_reminders env now db)))
  = map r_id (reminders db).
Proof.
  rewrite reminders_after_poll, map_map. apply map_ext.
  intros x. apply sent_by_id.
Qed.

(** *** The linked entries *)

Lemma remove_row_incl (e x : InboxEntry) (es : list InboxEntry) :
  In x (remove_row e es) -> In x es.
Proof.
  induction es as [|a es IH]; simpl; [auto|].
  destruct (entry_eq_dec e a); simpl; intuition.
Qed.

Lemma find_none_remove_row (p : InboxEntry -> bool) (e : InboxEntry)
      (es : list InboxEntry) :
  find p es = None -> find p (remove_row e es) = None.
Proof.
  intros H.
  destruct (find p (remove_row e es)) as [x|] eqn:E; [|reflexivity].
  apply find_some in E as [Hin Hp]. apply remove_row_incl in Hin.
  now rewrite (find_none _ _ H x Hin) in Hp.
Qed.

Lemma NoDup_remove_row (e : InboxEntry) (es : list InboxEntry) :
  NoDup (map e_id es) -> NoDup (map e_id (remove_row e es)).
Proof.
  induction es as [|a es IH]; simpl; intros H; [constructor|].
  inversion H as [|? ? Hn Hd]; subst.
  destruct (entry_eq_dec e a); [exact Hd|]. simpl.
  constructor; [|auto].
  intros Hin. apply Hn. apply in_map_iff in Hin as (x & Hx & Hin).
  apply remove_row_incl in Hin. apply in_map_iff. now exists x.
Qed.

Lemma find_remove_found (i : nat) (e : InboxEntry) (es : list InboxEntry) :
  NoDup (map e_id es) ->
  find (fun x => e_id x =? i) es = Some e ->
  find (fun x => e_id x =? i) (remove_row e es) = None.
Proof.
  induction es as [|a es IH]; simpl; intros Hnd H; [discriminate|].
  inversion Hnd as [|? ? Hn Hd]; subst.
  destruct (e_id a =? i) eqn:E.
  - inversion H; subst a. destruct (entry_eq_dec e e); [|congruence].
    apply Nat.eqb_eq in E. subst i.
    destruct (find (fun x => e_id x =? e_id e) es) as [x|] eqn:F;
      [|reflexivity].
    apply find_some in F as [Hin Hx]. apply Nat.eqb_eq in Hx.
    elim Hn. apply in_map_iff. now exists x.
  - destruct (entry_eq_dec e a) as [->|].
    + apply find_some in H as [_ Hx]. congruence.
    + simpl. rewrite E. auto.
Qed.

Lemma fire_db_keeps_keys (db : Db) (r : Reminder) :
  NoDup (map e_id (entries db)) ->
  NoDup (map e_id (entries (fire_db db r))).
Proof.
  intros H. unfold fire_db.
  destruct (truthy_id (r_entry_id r)) as [i|]; [|exact H].
  destruct (entry_by_id _ i); [|exact H].
  now apply NoDup_remove_row.
Qed.

Lemma fire_db_keeps_absent (db : Db) (r : Reminder) (i : nat) :
  entry_by_id db i = None -> entry_by_id (fire_db db r) i = None.
Proof.
  intros H. unfold fire_db.
  destruct (truthy_id (r_entry_id r)) as [j|]; [|exact H].
  destruct (entry_by_id _ j); [|exact H].
  now apply find_none_remove_row.
Qed.

Lemma fire_db_deletes_linked (db : Db) (r : Reminder) (i : nat) :
  NoDup (map e_id (entries db)) ->
  truthy_id (r_entry_id r) = Some i ->
  entry_by_id (fire_db db r) i = None.
Proof.
  intros Hnd Hi. unfold fire_db. rewrite Hi.
  destruct (entry_by_id (with_reminders db _) i) as [e|] eqn:E.
  - now apply find_remove_found.
  - exact E.
Qed.

Lemma fold_fire_db_keeps_absent (ds : list Reminder) (db : Db) (i : nat) :
  entry_by_id db i = None -> entry_by_id (fold_left fire_db ds db) i = None.
Proof.
  revert db; induction ds as [|a ds IH]; intros db H; simpl; [exact H|].
  now apply IH, fire_db_keeps_absent.
Qed.

Lemma fold_fire_db_deletes_linked (ds : list Reminder) (db : Db)
      (r : Reminder) (i : nat) :
  NoDup (map e_id (entries db)) ->
  In r ds -> truthy_id (r_entry_id r) = Some i ->
  entry_by_id (fold_left fire_db ds db) i = None.
Proof.
  revert db; induction ds as [|a ds IH]; intros db Hnd Hin Hi; simpl.
  - contradiction.
  - destruct Hin as [->|Hin].
    + now apply fold_fire_db_keeps_absent, fire_db_deletes_linked.
    + apply IH; [now apply fire_db_keeps_keys | exact Hin | exact Hi].
Qed.

(** *** Repeated polls *)

Lemma all_sent_after_poll (rid : nat) (now : datetime) (db : Db) :
  all_sent rid db -> all_sent rid (fst (_check_reminders env now db)).
Proof.
  unfold all_sent. intros H x' Hin Hid.
  rewrite reminders_after_poll in Hin.
  apply in_map_iff in Hin as (x & <- & Hin).
  rewrite sent_by_id in Hid. unfold sent_by.
  destruct (existsb _ _); [reflexivity | auto].
Qed.

Lemma no_attempt_when_sent (rid : nat) (now : datetime) (db : Db) :
  all_sent rid db ->
  attempts_for rid (snd (_check_reminders env now db)) = 0.
Proof.
  intros H. rewrite log_of_poll, attempts_for_deliveries.
  rewrite count_key_zero; [reflexivity|].
  intros d Hd Hid. apply filter_In in Hd as [Hin Hdue].
  unfold is_due in Hdue. rewrite (H d Hin Hid) in Hdue. discriminate.
Qed.

Lemma all_sent_once_attempted (rid : nat) (now : datetime) (db : Db) :
  1 <= attempts_for rid (snd (_check_reminders env now db)) ->
  all_sent rid (fst (_check_reminders env now db)).
Proof.
  rewrite log_of_poll, attempts_for_deliveries. intros Hc x' Hin Hid.
  rewrite reminders_after_poll in Hin.
  apply in_map_iff in Hin as (x & <- & Hin).
  rewrite sent_by_id in Hid. unfold sent_by.
  destruct (filter (fun d => r_id d =? rid)
                   (filter (is_due now) (reminders db))) as [|d ds] eqn:F;
    [simpl in Hc; lia|].
  assert (In d (d :: ds)) as Hd by now left.
  rewrite <- F in Hd. apply filter_In in Hd as [Hd Hk].
  apply Nat.eqb_eq in Hk.
  assert (existsb (fun d0 => r_id x =? r_id d0)
                  (filter (is_due now) (reminders db)) = true) as ->;
    [|reflexivity].
  apply existsb_exists. exists d. split; [exact Hd|].
  apply Nat.eqb_eq. congruence.
Qed.

Lemma run_polls_when_sent (rid : nat) (times : list datetime) :
  forall db log,
    all_sent rid db ->
    attempts_for rid (snd (run_polls env times (db, log)))
    = attempts_for rid log.
Proof.
  induction times as [|t times IH]; intros db log H; [reflexivity|].
  unfold run_polls in *. cbn [fold_left poll].
  destruct (_check_reminders env t db) as [db1 sent] eqn:E.
  rewrite IH.
  - rewrite attempts_for_app.
    pose proof (no_attempt_when_sent rid t db H) as Hz.
    rewrite E in Hz. cbn [snd] in Hz. lia.
  - pose proof (all_sent_after_poll rid t db H) as Hs.
    now rewrite E in Hs.
Qed.

Lemma run_polls_at_most_once (rid : nat) (times : list datetime) :
  forall db log,
    NoDup (map r_id (reminders db)) ->
    attempts_for rid (snd (run_polls env times (db, log)))
    <= attempts_for rid log + 1.
Proof.
  induction times as [|t times IH]; intros db log Hnd; [simpl; lia|].
  unfold run_polls in *. cbn [fold_left poll].
  pose proof (keys_after_poll t db) as Hk.
  pose proof (all_sent_once_attempted rid t db) as Hs.
  assert (attempts_for rid (snd (_check_reminders env t db)) <= 1) as Hle.
  { rewrite log_of_poll, attempts_for_deliveries.
    apply count_key_le_1. now apply NoDup_map_filter. }
  destruct (_check_reminders env t db) as [db1 sent]. cbn [fst snd] in *.
  destruct (attempts_for rid sent) as [|n] eqn:En.
  - etransitivity; [apply IH; now rewrite Hk|].
    rewrite attempts_for_app. lia.
  - pose proof (run_polls_when_sent rid times db1 (log ++ sent)%list
                                    (Hs ltac:(lia))) as Hr.
    unfold run_polls in Hr. rewrite Hr, attempts_for_app. lia.
Qed.

End OneEnvironment.

Lemma keys_ok_spec (db : Db) :
  keys_ok db = true ->
  NoDup (map r_id (reminders db)) /\ NoDup (map e_id (entries db))
  /\ (forall e, In e (entries db) -> e_id e <> 0).
Proof.
  unfold keys_ok. rewrite !andb_true_iff. intros [[H1 H2] H3].
  repeat split; try now apply distinct_NoDup.
  intros e He Hz. rewrite forallb_forall in H3. specialize (H3 e He).
  rewrite Hz in H3. discriminate.
Qed.

(** C4: a reminder that is unsent and due when the scheduler polls gets
    one delivery attempt in that poll and is marked as sent whatever the
    outcome of the delivery; the entry it links to, when the key is
    present and resolves, is deleted; later polls never attempt it again,
    and over any sequence of polls no reminder is attempted more than
    once. *)
Theorem due_reminder_fires_exactly_once
        (env : Env) (now : datetime) (db : Db) (r : Reminder) :
  keys_ok db = true ->
  In r (reminders db) ->
  r_sent r = false ->
  dt_leb (r_fire_at r) now = true ->
  attempts_for (r_id r) (snd (_check_reminders env now db)) = 1
  /\ In (r, smtp_send env (r_message r) (r_fire_at r))
        (snd (_check_reminders env now db))
  /\ In (set_sent r) (reminders (fst (_check_reminders env now db)))
  /\ all_sent (r_id r) (fst (_check_reminders env now db))
  /\ (forall i e, r_entry_id r = Some i -> entry_by_id db i = Some e ->
                  entry_by_id (fst (_check_reminders env now db)) i = None)
  /\ (forall times,
         attempts_for (r_id r)
           (snd (run_polls env times (_check_reminders env now db))) = 1)
  /\ (forall times rid,
         attempts_for rid (snd (run_polls env times (db, []))) <= 1).
Proof.
  intros Hk Hin Hs Hd.
  destruct (keys_ok_spec db Hk) as (Hr & He & Hz).
  assert (Hdue : In r (filter (is_due now) (reminders db))).
  { apply filter_In. split; [exact Hin|]. unfold is_due. now rewrite Hs, Hd. }
  assert (Hone : attempts_for (r_id r) (snd (_check_reminders env now db)) = 1).
  { rewrite log_of_poll, attempts_for_deliveries.
    pose proof (count_key_pos r _ Hdue).
    pose proof (count_key_le_1 (r_id r) _
                  (NoDup_map_filter r_id (is_due now) _ Hr)).
    lia. }
  assert (Hall : all_sent (r_id r) (fst (_check_reminders env now db))).
  { apply all_sent_once_attempted. lia. }
  split; [exact Hone|]. split.
  { rewrite log_of_poll. apply in_map_iff. now exists r. }
  split.
  { rewrite reminders_after_poll. apply in_map_iff. exists r.
    split; [|exact Hin]. unfold sent_by.
    assert (existsb (fun d => r_id r =? r_id d)
                    (filter (is_due now) (reminders db)) = true) as ->;
      [|reflexivity].
    apply existsb_exists. exists r. split; [exact Hdue | apply Nat.eqb_refl]. }
  split; [exact Hall|]. split.
  { intros i e Hi Hfind. rewrite check_reminders_eq. cbn [fst].
    assert (truthy_id (r_entry_id r) = Some i) as Ht.
    { rewrite Hi. apply find_some in Hfind as [Hine Hid].
      apply Nat.eqb_eq in Hid. specialize (Hz e Hine).
      destruct i; [congruence | reflexivity]. }
    pose proof (fold_fire_db_deletes_linked _ db r i He Hdue Ht) as Hgone.
    now destruct (filter (is_due now) (reminders db)). }
  split.
  { intros times.
    destruct (_check_reminders env now db) as [db1 sent] eqn:E.
    cbn [fst snd] in *. now rewrite run_polls_when_sent. }
  intros times rid.
  pose proof (run_polls_at_most_once env rid times db [] Hr) as H.
  exact H.
Qed.

(** The due reminder of [db_with_due_reminder], polled on the following
    Friday with an SMTP server that refuses every delivery. *)
Lemma due_reminder_fires_exactly_once_witness :
  attempts_for (r_id due_reminder)
    (snd (_check_reminders offline_env friday_10h db_with_due_reminder)) = 1
  /\ In (due_reminder,
         smtp_send offline_env (r_message due_reminder)
                   (r_fire_at due_reminder))
        (snd (_check_reminders offline_env friday_10h db_with_due_reminder))
  /\ In (set_sent due_reminder)
        (reminders
           (fst (_check_reminders offline_env friday_10h
                                  db_with_due_reminder)))
  /\ all_sent (r_id due_reminder)
        (fst (_check_reminders offline_env friday_10h db_with_due_reminder))
  /\ (forall i e,
         r_entry_id due_reminder = Some i ->
         entry_by_id db_with_due_reminder i = Some e ->
         entry_by_id
           (fst (_check_reminders offline_env friday_10h
                                  db_with_due_reminder)) i = None)
  /\ (forall times,
         attempts_for (r_id due_reminder)
           (snd (run_polls offline_env times
                   (_check_reminders offline_env friday_10h
                                     db_with_due_reminder))) = 1)
  /\ (forall times rid,
         attempts_for rid
           (snd (run_polls offline_env times (db_with_due_reminder, [])))
         <= 1).
Proof.
  apply (due_reminder_fires_exactly_once
           offline_env friday_10h db_with_due_reminder due_reminder).
  - reflexivity.
  - simpl. tauto.
  - reflexivity.
  - reflexivity.
Defined.

Example failed_delivery_still_marks_sent :
  _check_reminders offline_env friday_10h db_with_due_reminder
  = (mkDb [stored 2 "comprar pan integral" "casa,compras" processed]
          [mkReminder 1 "llamar al banco" monday_8h true (Some 1);
           mkReminder 2 "pagar el alquiler" monday_8h true None]
          [] 3 3 1,
     [(due_reminder, false)]).
Proof. reflexivity. Qed.

End SchedulerFacts.

(** ** Intent resolver: the remind branch and the degraded submission *)

Module ResolverFacts.
Import PyStr DateTime Store World Main Dispatch Samples.

Lemma opt_eqb_eq (o : option string) (s : string) :
  opt_eqb o s = true <-> o = Some s.
Proof.
  destruct o as [x|]; simpl; [|split; discriminate].
  rewrite String.eqb_eq. split; congruence.
Qed.

Lemma process_single_remind (env : Env) (now : datetime) (ai : AiResult)
      (note : NoteIn) (db : Db) :
  takes_remind_path ai = true ->
  exists fire_at,
    _process_single_ai env now ai note db
    = Ok (mkNoteOut "remind" None (Some "recordatorios") None
                    (Some (remind_message ai note)) false 0 (Some fire_at),
          insert_reminder db (remind_message ai note) fire_at None)
    /\ (no_usable_timestamp env ai = true ->
        fire_at = dt_add now (new_timedelta 0 0 5 0 0)).
Proof.
  unfold takes_remind_path, makes_sense_ok, _process_single_ai,
    no_usable_timestamp, remind_message.
  rewrite !andb_true_iff, negb_true_iff. intros [[Hm Hd] Hr].
  destruct (get_default (makes_sense ai) true) as [[|]|]; try discriminate.
  rewrite Hd, Hr.
  destruct (nonempty (get (remind_at ai))) as [s|].
  - destruct (fromisoformat env s) as [t|]; eexists; split;
      try reflexivity; intros; congruence.
  - eexists; split; reflexivity.
Qed.

(** C7: for a result dispatched to the remind branch whose [remind_at]
    is absent (missing, null or empty) or does not parse, the request
    succeeds and the reminder that is created fires at now + 5 minutes;
    its message is the idea of the result, or the raw content of the note
    when the idea is empty. *)
Theorem remind_without_timestamp_defaults_to_five_minutes
        (env : Env) (now : datetime) (ai : AiResult) (note : NoteIn)
        (db : Db) :
  takes_remind_path ai = true ->
  no_usable_timestamp env ai = true ->
  let fire_at := dt_add now (new_timedelta 0 0 5 0 0) in
  let message := remind_message ai note in
  exists out db1,
    _process_single_ai env now ai note db = Ok (out, db1)
    /\ out_action out = "remind"
    /\ out_idea out = Some message
    /\ out_remind_at out = Some fire_at
    /\ reminders db1
       = (reminders db
            ++ [mkReminder (next_reminder_id db) message fire_at false None])%list
    /\ entries db1 = entries db
    /\ (forall i, get (idea ai) = Some i -> i <> EmptyString -> message = i)
    /\ (nonempty (get (idea ai)) = None -> message = content note).
Proof.
  intros Hp Ht fire_at message.
  destruct (process_single_remind env now ai note db Hp) as (f & Heq & Hf).
  specialize (Hf Ht). subst f.
  eexists _, _. split; [exact Heq|].
  repeat split.
  - intros i Hi Hne. subst message. unfold remind_message. rewrite Hi.
    simpl. now destruct i.
  - intros Hn. subst message. unfold remind_message. now rewrite Hn.
Qed.

Lemma remind_without_timestamp_defaults_to_five_minutes_witness :
  let fire_at := dt_add monday_8h (new_timedelta 0 0 5 0 0) in
  let message := remind_message remind_bad_timestamp note_pan in
  exists out db1,
    _process_single_ai offline_env monday_8h remind_bad_timestamp note_pan
                       empty_db = Ok (out, db1)
    /\ out_action out = "remind"
    /\ out_idea out = Some message
    /\ out_remind_at out = Some fire_at
    /\ reminders db1
       = (reminders empty_db
            ++ [mkReminder (next_reminder_id empty_db) message fire_at
                           false None])%list
    /\ entries db1 = entries empty_db
    /\ (forall i, get (idea remind_bad_timestamp) = Some i ->
                  i <> EmptyString -> message = i)
    /\ (nonempty (get (idea remind_bad_timestamp)) = None ->
        message = content note_pan).
Proof.
  apply (remind_without_timestamp_defaults_to_five_minutes
           offline_env monday_8h remind_bad_timestamp note_pan empty_db);
    reflexivity.
Defined.

Example remind_bad_timestamp_at_8h05 :
  _process_single_ai offline_env monday_8h remind_bad_timestamp note_pan
                     empty_db
  = Ok (mkNoteOut "remind" None (Some "recordatorios") None
                  (Some "tengo que comprar pan integral") false 0
                  (Some (mkDatetime 738886 8 5 0 0)),
        mkDb [] [mkReminder 1 "tengo que comprar pan integral"
                            (mkDatetime 738886 8 5 0 0) false None]
             [] 1 2 1).
Proof. reflexivity. Qed.

(** The degraded submission, as long as the content is new. *)
Lemma add_note_unavailable_fresh (env : Env) (now : datetime) (note : NoteIn)
      (db : Db) :
  (forall l, post_classify env (content note) db l = None) ->
  content_taken db (content note) = false ->
  let e := mkEntry (next_entry_id db) (content note) (origin note)
                   (classify env (content note)) None None None pending
                   None None in
  exists db1,
    add_note env now note db
    = Ok ([mkNoteOut "add" (Some e) None None None true 0 None], db1)
    /\ entries db1 = (entries db ++ [e])%list.
Proof.
  intros Hdown Hfresh e. unfold add_note, classify_with_ai.
  rewrite Hdown. unfold insert_entry. cbn [e_content]. rewrite Hfresh.
  eexists. split; reflexivity.
Qed.

(** C6: with the classifier down the first submission of a note is
    stored raw and reported as one [ai_skipped] Add outcome, but the
    commit of that path is not guarded: submitting the same content again
    (or any content that is already stored) breaks the unique constraint
    and the IntegrityError reaches the caller. *)
Theorem degraded_submission_raises_on_known_content :
  exists e db1,
    add_note offline_env monday_8h note_pan empty_db
    = Ok ([mkNoteOut "add" (Some e) None None None true 0 None], db1)
    /\ e_content e = content note_pan
    /\ e_summary e = None /\ e_tags e = None
    /\ add_note offline_env monday_8h note_pan db1
       = Raise IntegrityError db1.
Proof. eexists _, _. repeat split. Qed.

End ResolverFacts.

(** ** Auto-summarizer *)

Module SummarizerFacts.
Import PyStr DateTime Store World Main Samples.

Lemma fold_append_map_filter {A B : Type} (p : A -> bool) (f : A -> B)
      (l : list A) (acc : list B) :
  fold_left (fun ideas e => if p e then (ideas ++ [f e])%list else ideas)
            l acc
  = (acc ++ map f (filter p l))%list.
Proof.
  revert acc; induction l as [|x l IH]; intros acc; simpl.
  - now rewrite app_nil_r.
  - rewrite IH. destruct (p x); [|reflexivity].
    simpl. now rewrite <- app_assoc.
Qed.

(** The ideas that are counted: the summaries of the processed entries
    whose tag path is exactly the pair and whose summary is not empty. *)
Lemma get_group_ideas_eq (group : string) (subgroup : option string)
      (db : Db) :
  _get_group_ideas group subgroup db
  = map (fun e => or_empty (e_summary e))
        (filter (in_group group subgroup) (processed_entries db)).
Proof. unfold _get_group_ideas. now rewrite fold_append_map_filter. Qed.

Lemma opt_string_eqb_refl (o : option string) : opt_string_eqb o o = true.
Proof. destruct o; simpl; [apply String.eqb_refl | reflexivity]. Qed.

Lemma same_pair_new (group : string) (subgroup : option string)
      (text : string) (now : datetime) :
  same_pair group subgroup (mkGroupSummary group subgroup text now) = true.
Proof.
  unfold same_pair. simpl. now rewrite String.eqb_refl, opt_string_eqb_refl.
Qed.

Lemma find_update_first (group : string) (subgroup : option string)
      (text : string) (now : datetime) (gs : list GroupSummary)
      (x : GroupSummary) :
  find (same_pair group subgroup) gs = Some x ->
  find (same_pair group subgroup) (update_first group subgroup text now gs)
  = Some (mkGroupSummary (gs_group_name x) (gs_subgroup_name x) text now).
Proof.
  induction gs as [|g gs IH]; simpl; [discriminate|].
  destruct (same_pair group subgroup g) eqn:E; intros H.
  - inversion H; subst. simpl.
    unfold same_pair in *. simpl. now rewrite E.
  - simpl. rewrite E. auto.
Qed.

Lemma length_update_first (group : string) (subgroup : option string)
      (text : string) (now : datetime) (gs : list GroupSummary) :
  List.length (update_first group subgroup text now gs) = List.length gs.
Proof.
  induction gs as [|g gs IH]; simpl; [reflexivity|].
  destruct (same_pair group subgroup g); simpl; congruence.
Qed.

Lemma find_app_new {A : Type} (p : A -> bool) (l : list A) (x : A) :
  find p l = None -> p x = true -> find p (l ++ [x]) = Some x.
Proof.
  induction l as [|a l IH]; simpl; intros H Hx.
  - now rewrite Hx.
  - destruct (p a); [discriminate | auto].
Qed.



(** With eleven ideas under "casa" and a summarizer that is down, the
    summary is requested but no row is written: "requests and upserts iff
    the count is above 10" fails on the upsert. *)
Lemma summary_requested_but_not_upserted :
  10 < List.length (_get_group_ideas "casa" None db_eleven_ideas)
  /\ List.length
       (snd (_maybe_auto_summarize offline_env monday_8h "casa" None
                                   db_eleven_ideas)) = 1
  /\ ~ (exists row,
           In row (summaries
                     (fst (_maybe_auto_summarize offline_env monday_8h
                                                 "casa" None
                                                 db_eleven_ideas)))
           /\ same_pair "casa" None row = true).
Proof.
  split; [vm_compute; lia|]. split; [reflexivity|].
  intros (row & Hin & _). vm_compute in Hin. exact Hin.
Qed.

(** C8, amended: the auto-summarizer counts the non-empty summaries of
    the processed entries under the exact (group, subgroup) pair; it
    sends exactly one summary request when the count is above 10 and none
    otherwise; the GroupSummary row of the pair is written (the first
    existing row updated, or a new row appended) exactly when, in
    addition, the summarizer returned a non-empty text; with an empty
    text or a count of 10 or fewer the store is left as it was. *)
Theorem auto_summarize_requests_above_ten_and_upserts_on_text
        (env : Env) (now : datetime) (group : string)
        (subgroup : option string) (db : Db) :
  let ideas := _get_group_ideas group subgroup db in
  let text := request_summary env group subgroup ideas in
  let r := _maybe_auto_summarize env now group subgroup db in
  ideas = map (fun e => or_empty (e_summary e))
              (filter (in_group group subgroup) (processed_entries db))
  /\ snd r = (if 10 <? List.length ideas
              then [mkRequest group subgroup ideas] else [])
  /\ (List.length ideas <= 10 -> fst r = db)
  /\ (text = EmptyString -> fst r = db)
  /\ (10 < List.length ideas -> text <> EmptyString ->
      (exists row,
          find (same_pair group subgroup) (summaries (fst r)) = Some row
          /\ gs_summary row = text /\ gs_updated_at row = now)
      /\ (find (same_pair group subgroup) (summaries db) = None ->
          summaries (fst r)
          = (summaries db ++ [mkGroupSummary group subgroup text now])%list)
      /\ (forall old,
             find (same_pair group subgroup) (summaries db) = Some old ->
             summaries (fst r)
             = update_first group subgroup text now (summaries db)
             /\ List.length (summaries (fst r))
                = List.length (summaries db))
      /\ entries (fst r) = entries db
      /\ reminders (fst r) = reminders db
      /\ commits (fst r) = S (commits db)).
Proof.
  intros ideas text r.
  split; [apply get_group_ideas_eq|].
  subst r. unfold _maybe_auto_summarize. fold ideas. fold text.
  destruct (List.length ideas <=? 10) eqn:E.
  - apply Nat.leb_le in E.
    assert ((10 <? List.length ideas) = false) as ->
        by (apply Nat.ltb_ge; lia).
    split; [reflexivity|]. split; [reflexivity|]. split; [reflexivity|].
    intros; lia.
  - apply Nat.leb_gt in E.
    assert ((10 <? List.length ideas) = true) as ->
        by (apply Nat.ltb_lt; lia).
    destruct text as [|c text'] eqn:Et; cbn [truthy negb].
    + split; [reflexivity|]. split; [intros; lia|]. split; [reflexivity|].
      intros _ Hne. now elim Hne.
    + split; [reflexivity|]. split; [intros; lia|].
      split; [discriminate|]. intros _ _. cbn [fst].
      destruct (find (same_pair group subgroup) (summaries db)) as [old|] eqn:F.
      * repeat split; try discriminate.
        -- eexists. cbn [summaries commit with_summaries].
           split; [exact (find_update_first _ _ _ _ _ old F)|].
           split; reflexivity.
        -- cbn [summaries commit with_summaries].
           apply length_update_first.
      * repeat split; try discriminate.
        eexists. cbn [summaries commit with_summaries].
        split; [apply find_app_new; [exact F | apply same_pair_new]|].
        split; reflexivity.
Qed.

Example eleven_ideas_one_request :
  snd (_maybe_auto_summarize exporting_env monday_8h "casa" None
                             db_eleven_ideas)
  = [mkRequest "casa" None (_get_group_ideas "casa" None db_eleven_ideas)]
  /\ summaries (fst (_maybe_auto_summarize exporting_env monday_8h "casa"
                                           None db_eleven_ideas))
     = [mkGroupSummary "casa" None "resumen" monday_8h].
Proof. split; reflexivity. Qed.

End SummarizerFacts.

(** ** Add pipeline and dedup guard *)

Module AddFacts.
Import PyStr DateTime Store World Main Dispatch Samples.
Import SummarizerFacts.

Lemma find_filter {A : Type} (p q : A -> bool) (l : list A) :
  find q (filter p l) = find (fun x => p x && q x) l.
Proof.
  induction l as [|a l IH]; simpl; [reflexivity|].
  destruct (p a); simpl; [|exact IH]. now destruct (q a).
Qed.


Lemma existsb_find {A : Type} (p : A -> bool) (l : list A) :
  existsb p l = match find p l with Some _ => true | None => false end.
Proof.
  induction l as [|a l IH]; simpl; [reflexivity|]. now destruct (p a).
Qed.


(** The guard finds a duplicate: nothing is written. *)
Lemma process_add_dedup (env : Env) (now : datetime) (ai : AiResult)
      (note : NoteIn) (db : Db) (dup : InboxEntry) :
  find (dedup_candidate (add_tags ai note) (add_summary ai note))
       (entries db) = Some dup ->
  process_add env now ai note db = Ok (add_out ai note dup, db).
Proof.
  intros H. unfold process_add. rewrite find_filter.
  unfold dedup_candidate in H. now rewrite H.
Qed.





Lemma dedup_candidate_spec (tags summary : string) (e : InboxEntry) :
  dedup_candidate tags summary e = true <->
  e_status e = processed /\ e_tags e = Some tags
  /\ _similar (or_empty (e_summary e)) summary = true.
Proof.
  unfold dedup_candidate. rewrite !andb_true_iff.
  rewrite DeleteFacts.status_eqb_eq, ResolverFacts.opt_eqb_eq. tauto.
Qed.




(** A stored idea that contains the new one is a near duplicate: the
    guard returns the stored row and the store is left untouched. *)
Example near_duplicate_returns_stored_row :
  let db := mkDb [stored 1 "comprar pan integral hoy" "casa" processed]
                 [] [] 2 1 0 in
  _process_single_ai exporting_env monday_8h ai_pan note_pan db
  = Ok (add_out ai_pan note_pan
                (stored 1 "comprar pan integral hoy" "casa" processed),
        db).
Proof. reflexivity. Qed.

(** The same note twice with a working exporter (the guard answers the
    second time) and with a failing one (the row stays pending and the
    unique constraint answers): one row either way. *)
Example same_note_twice_one_row :
  (match _process_single_ai exporting_env monday_8h ai_pan note_pan empty_db
   with
   | Ok (out1, db1) =>
       match _process_single_ai exporting_env friday_10h ai_pan note_pan db1
       with
       | Ok (out2, db2) =>
           (option_map e_id (out_entry out1),
            option_map e_id (out_entry out2),
            List.length (entries db2))
       | Raise _ _ => (None, None, 0)
       end
   | Raise _ _ => (None, None, 0)
   end) = (Some 1, Some 1, 1)
  /\ (match _process_single_ai offline_env monday_8h ai_pan note_pan empty_db
      with
      | Ok (out1, db1) =>
          match _process_single_ai offline_env friday_10h ai_pan note_pan db1
          with
          | Ok (out2, db2) =>
              (option_map e_status (out_entry out1),
               option_map e_id (out_entry out2),
               List.length (entries db2))
          | Raise _ _ => (None, None, 0)
          end
      | Raise _ _ => (None, None, 0)
      end) = (Some pending, Some 1, 1).
Proof. split; reflexivity. Qed.

End AddFacts.

(** ** Normalization is a projection *)

Module NormalizeFacts.
Import PyStr Fuzzy Shape.

Lemma lower_char_idem (c : ascii) : lower_char (lower_char c) = lower_char c.
Proof. destruct c as [[] [] [] [] [] [] [] []]; reflexivity. Qed.

Lemma isspace_lower_char (c : ascii) : isspace (lower_char c) = isspace c.
Proof. destruct c as [[] [] [] [] [] [] [] []]; reflexivity. Qed.

Lemma lower_idem (s : string) : lower (lower s) = lower s.
Proof.
  induction s as [|c s IH]; simpl; [reflexivity|].
  now rewrite lower_char_idem, IH.
Qed.

Lemma lower_lstrip (s : string) : lower (lstrip s) = lstrip (lower s).
Proof.
  induction s as [|c s IH]; simpl; [reflexivity|].
  rewrite isspace_lower_char. now destruct (isspace c).
Qed.

Lemma lower_rstrip (s : string) : lower (rstrip s) = rstrip (lower s).
Proof.
  unfold rstrip. induction s as [|c s IH]; simpl; [reflexivity|].
  rewrite <- IH, isspace_lower_char.
  destruct (rstrip_by isspace s); simpl; [now destruct (isspace c) | reflexivity].
Qed.

Lemma lower_collapse (b : bool) (s : string) :
  lower (collapse_ws b s) = collapse_ws b (lower s).
Proof.
  revert b; induction s as [|c s IH]; intros b; simpl; [reflexivity|].
  rewrite isspace_lower_char.
  destruct (isspace c); [destruct b|]; simpl; now rewrite IH.
Qed.

Lemma lstrip_head_ok (s : string) : head_ok (lstrip s).
Proof.
  induction s as [|c s IH]; simpl; [exact I|].
  destruct (isspace c) eqn:E; [exact IH | exact E].
Qed.

Lemma lstrip_id (t : string) : head_ok t -> lstrip t = t.
Proof. destruct t as [|c t]; simpl; [reflexivity | now intros ->]. Qed.

Lemma rstrip_head_ok (t : string) : head_ok t -> head_ok (rstrip t).
Proof.
  unfold rstrip. destruct t as [|c t]; simpl; [auto|]. intros H.
  destruct (rstrip_by isspace t); [rewrite H|]; exact H.
Qed.

Lemma rstrip_idem (t : string) : rstrip (rstrip t) = rstrip t.
Proof.
  unfold rstrip. induction t as [|c t IH]; simpl; [reflexivity|].
  destruct (rstrip_by isspace t) as [|d r] eqn:E.
  - destruct (isspace c) eqn:Ec; simpl; [reflexivity | now rewrite Ec].
  - cbn [rstrip_by] in *. fold (rstrip_by isspace) in *.
    change (rstrip_by isspace (String c (String d r)))
      with (match rstrip_by isspace (String d r) with
            | EmptyString =>
                if isspace c then EmptyString else String c EmptyString
            | String x y => String c (String x y)
            end).
    now rewrite IH.
Qed.

Lemma strip_shape (s : string) : head_ok (strip s) /\ tail_ok (strip s).
Proof.
  unfold strip, tail_ok. split.
  - apply rstrip_head_ok, lstrip_head_ok.
  - apply rstrip_idem.
Qed.

Lemma collapse_head_ok (t : string) :
  head_ok t -> head_ok (collapse_ws false t).
Proof. destruct t as [|c t]; simpl; [auto|]. intros H. now rewrite H. Qed.

Lemma collapse_empty (b : bool) (t : string) :
  collapse_ws b t = EmptyString -> rstrip t = EmptyString.
Proof.
  unfold rstrip. revert b; induction t as [|c t IH]; intros b; simpl;
    [reflexivity|].
  destruct (isspace c) eqn:E; [destruct b|]; try discriminate.
  intros H. now rewrite (IH true H).
Qed.

Lemma collapse_tail_ok (b : bool) (t : string) :
  tail_ok t -> tail_ok (collapse_ws b t).
Proof.
  unfold tail_ok, rstrip.
  revert b; induction t as [|c t IH]; intros b; [reflexivity|].
  cbn [rstrip_by collapse_ws].
  destruct (rstrip_by isspace t) as [|d r] eqn:E.
  - destruct (isspace c) eqn:Ec; [discriminate|].
    intros H; inversion H; subst. simpl. now rewrite Ec.
  - intros H; inversion H as [Ht]. rewrite Ht in *.
    assert (Hne : forall b', collapse_ws b' t <> EmptyString).
    { intros b' Hb. apply collapse_empty in Hb. unfold rstrip in Hb.
      congruence. }
    destruct (isspace c) eqn:Ec; [destruct b|].
    + now apply IH.
    + cbn [rstrip_by]. rewrite (IH true eq_refl).
      destruct (collapse_ws true t) eqn:Ecol; [now elim (Hne true)|].
      reflexivity.
    + cbn [rstrip_by]. rewrite (IH false eq_refl).
      destruct (collapse_ws false t) eqn:Ecol; [|reflexivity].
      now rewrite Ec.
Qed.

Lemma collapse_idem_both (t : string) :
  (forall b, collapse_ws false (collapse_ws b t) = collapse_ws b t)
  /\ collapse_ws true (collapse_ws true t) = collapse_ws true t.
Proof.
  induction t as [|c t [IHa IHb]]; [split; [intros []|]; reflexivity|].
  split.
  - intros b. cbn [collapse_ws]. destruct (isspace c) eqn:E.
    + destruct b; [apply IHa|].
      cbn [collapse_ws].
      change (isspace " ") with true. cbn iota. now rewrite IHb.
    + cbn [collapse_ws]. rewrite E. now rewrite IHa.
  - cbn [collapse_ws]. destruct (isspace c) eqn:E; [exact IHb|].
    cbn [collapse_ws]. rewrite E. now rewrite IHa.
Qed.

Lemma normalize_shape (s : string) :
  head_ok (_normalize s) /\ tail_ok (_normalize s).
Proof.
  unfold _normalize. destruct (strip_shape (lower s)) as [H1 H2].
  split; [now apply collapse_head_ok | now apply collapse_tail_ok].
Qed.

(** X1: normalizing is idempotent, so [_similar] gives the same answer
    on texts that were normalized beforehand, as the delete resolver does
    with the pattern and the stored fields. *)
Theorem normalize_idempotent_and_similar_stable (a b : string) :
  _normalize (_normalize a) = _normalize a
  /\ _similar (_normalize a) b = _similar a b
  /\ _similar a (_normalize b) = _similar a b
  /\ _similar (_normalize a) (_normalize b) = _similar a b.
Proof.
  assert (Hn : forall s, _normalize (_normalize s) = _normalize s).
  { intros s. destruct (normalize_shape s) as [Hh Ht].
    unfold _normalize at 1.
    assert (lower (_normalize s) = _normalize s) as ->.
    { unfold _normalize, strip.
      now rewrite lower_collapse, lower_rstrip, lower_lstrip, lower_idem. }
    unfold strip. rewrite (lstrip_id _ Hh). rewrite Ht.
    unfold _normalize. apply (proj1 (collapse_idem_both _)). }
  split; [apply Hn|]. unfold _similar. now rewrite !Hn.
Qed.

End NormalizeFacts.

(** ** More on the fuzzy matcher and the temporal extractor *)

Module MatcherFacts.
Import PyStr Fuzzy.

(** X2: a first text of at most 3 characters (after normalization) is
    only similar to a text with the same normal form, and the matcher is
    symmetric on every pair whose normal forms are both longer than 3
    characters. *)
Theorem similar_short_exact_long_symmetric (a b : string) :
  (String.length (_normalize a) <= 3 ->
   _similar a b = String.eqb (_normalize a) (_normalize b))
  /\ (3 < String.length (_normalize a) ->
      3 < String.length (_normalize b) ->
      _similar a b = _similar b a).
Proof.
  split.
  - intros H. unfold _similar.
    assert ((3 <? String.length (_normalize a)) = false) as ->
        by (apply Nat.ltb_ge; exact H).
    now rewrite orb_false_r.
  - intros Ha Hb. unfold _similar.
    apply Nat.ltb_lt in Ha. apply Nat.ltb_lt in Hb. rewrite Ha, Hb.
    rewrite (String.eqb_sym (_normalize a)).
    now rewrite (orb_comm (contains (_normalize a) (_normalize b))).
Qed.

End MatcherFacts.

Module FireTimeFacts.
Import PyStr DateTime Temporal Samples.
Import PyStrFacts DateTimeFacts.
Import TemporalFacts.
Local Open Scope Z_scope.

Lemma weekday_offset_range (table : list (string * Z)) (text_l : string)
      (today d : Z) :
  weekday_offset table text_l today = Some d -> 1 <= d <= 7.
Proof.
  induction table as [|[n w] table IH]; simpl; [discriminate|].
  destruct (contains n text_l); [|exact IH].
  intros H; inversion H; subst; clear H.
  destruct ((w - today) mod 7 >? 0) eqn:E; [|lia].
  apply Z.gtb_lt in E. pose proof (Z.mod_pos_bound (w - today) 7). lia.
Qed.

Lemma day_offset_range (text_l : string) (today d : Z) :
  day_offset_of text_l today = Some d -> 1 <= d <= 7.
Proof.
  unfold day_offset_of.
  destruct (contains manana_tilde text_l || contains manana_plain text_l);
    [intros H; inversion H; lia|].
  destruct (contains pasado_manana_tilde text_l
            || contains pasado_manana_plain text_l);
    [intros H; inversion H; lia|].
  apply weekday_offset_range.
Qed.

Lemma weekday_offset_none (table : list (string * Z)) (text_l : string)
      (today : Z) :
  (forall n w, In (n, w) table -> contains n text_l = false) ->
  weekday_offset table text_l today = None.
Proof.
  induction table as [|[n w] table IH]; simpl; intros H; [reflexivity|].
  rewrite (H n w (or_introl eq_refl)). apply IH.
  intros n' w' Hin. apply (H n' w'). now right.
Qed.

Lemma later_date_not_leb (t now : datetime) :
  ordinal now < ordinal t -> dt_leb t now = false.
Proof.
  intros H. unfold dt_leb, fields. cbn [lex_leb].
  assert ((ordinal t <? ordinal now) = false) as -> by (apply Z.ltb_ge; lia).
  assert ((ordinal t =? ordinal now) = false) as -> by (apply Z.eqb_neq; lia).
  reflexivity.
Qed.

(** X3: whenever the extractor infers a fire time, that time is
    strictly after the clock, at most 7 days ahead, carries exactly the
    hour and minute read from the note and has its seconds and
    microseconds set to zero. *)
Theorem auto_fire_at_is_in_the_future
        (now : datetime) (text : string) (t : datetime) :
  _auto_fire_at now text = Some t ->
  dt_leb t now = false
  /\ ordinal now <= ordinal t <= ordinal now + 7
  /\ time_in_note text = Some (hour t, minute t)
  /\ 0 <= hour t <= 23 /\ 0 <= minute t <= 59
  /\ second t = 0 /\ microsecond t = 0.
Proof.
  unfold _auto_fire_at.
  destruct (time_in_note text) as [[h m]|] eqn:Ht; [|discriminate].
  destruct (time_in_note_range _ _ _ Ht) as [Hh Hm].
  assert (Hadd : forall d, dt_add (replace_time now h m)
                                  (new_timedelta d 0 0 0 0)
                           = mkDatetime (ordinal now + d) h m 0 0).
  { intros d. now rewrite dt_add_days by (apply replace_time_wf; lia). }
  destruct (day_offset_of (lower text) (weekday now)) as [d|] eqn:Hd.
  - apply day_offset_range in Hd. rewrite Hadd.
    intros H; inversion H; subst; clear H.
    cbn [ordinal hour minute second microsecond].
    split; [apply later_date_not_leb; cbn [ordinal]; lia|].
    repeat split; try lia; exact Ht.
  - destruct (dt_leb (replace_time now h m) now) eqn:Hle.
    + rewrite Hadd. intros H; inversion H; subst; clear H.
      cbn [ordinal hour minute second microsecond].
      split; [apply later_date_not_leb; cbn [ordinal]; lia|].
      repeat split; try lia; exact Ht.
    + intros H; inversion H; subst; clear H.
      split; [exact Hle|]. unfold replace_time.
      cbn [ordinal hour minute second microsecond].
      repeat split; try lia; exact Ht.
Qed.

Lemma auto_fire_at_is_in_the_future_witness :
  dt_leb (mkDatetime 738887 7 0 0 0) monday_8h = false
  /\ ordinal monday_8h <= ordinal (mkDatetime 738887 7 0 0 0)
     <= ordinal monday_8h + 7
  /\ time_in_note "a las 7"
     = Some (hour (mkDatetime 738887 7 0 0 0),
             minute (mkDatetime 738887 7 0 0 0))
  /\ 0 <= hour (mkDatetime 738887 7 0 0 0) <= 23
  /\ 0 <= minute (mkDatetime 738887 7 0 0 0) <= 59
  /\ second (mkDatetime 738887 7 0 0 0) = 0
  /\ microsecond (mkDatetime 738887 7 0 0 0) = 0.
Proof.
  apply (auto_fire_at_is_in_the_future monday_8h "a las 7").
  reflexivity.
Defined.

(** X4: with a valid time and the word for "tomorrow" (with or without
    the tilde) anywhere in the note, the fire time is the next day at that
    time, whatever weekday names the note also contains. *)
Theorem manana_resolves_to_next_day
        (now : datetime) (text : string) (h m : Z) :
  time_in_note text = Some (h, m) ->
  contains manana_tilde (lower text) = true
  \/ contains manana_plain (lower text) = true ->
  _auto_fire_at now text = Some (mkDatetime (ordinal now + 1) h m 0 0).
Proof.
  intros Ht Hc. unfold _auto_fire_at. rewrite Ht.
  destruct (time_in_note_range _ _ _ Ht).
  assert (day_offset_of (lower text) (weekday now) = Some 1) as ->.
  { unfold day_offset_of. destruct Hc as [-> | ->];
      [reflexivity | now rewrite orb_true_r]. }
  now rewrite dt_add_days by (apply replace_time_wf; lia).
Qed.

Lemma manana_resolves_to_next_day_witness :
  _auto_fire_at monday_8h "Recuerdame a las 18 manana, viernes"
  = Some (mkDatetime (ordinal monday_8h + 1) 18 0 0 0).
Proof.
  apply (manana_resolves_to_next_day
           monday_8h "Recuerdame a las 18 manana, viernes" 18 0).
  - reflexivity.
  - right. reflexivity.
Defined.

(** X5: with a valid time and neither "tomorrow" nor a weekday name in
    the note, the fire time is today at that time when it is still ahead
    of the clock, and tomorrow at that time otherwise (also when the clock
    shows exactly that time). *)
Theorem no_keyword_rolls_to_tomorrow_when_passed
        (now : datetime) (text : string) (h m : Z) :
  time_in_note text = Some (h, m) ->
  contains manana_tilde (lower text) = false ->
  contains manana_plain (lower text) = false ->
  (forall n w, In (n, w) _WEEKDAYS_BACKEND -> contains n (lower text) = false) ->
  _auto_fire_at now text
  = Some (mkDatetime
            (if dt_leb (mkDatetime (ordinal now) h m 0 0) now
             then ordinal now + 1 else ordinal now) h m 0 0).
Proof.
  intros Ht H1 H2 Hw. unfold _auto_fire_at. rewrite Ht.
  destruct (time_in_note_range _ _ _ Ht).
  assert (day_offset_of (lower text) (weekday now) = None) as ->.
  { unfold day_offset_of. rewrite H1, H2. cbn [orb].
    destruct (contains pasado_manana_tilde (lower text)) eqn:E1;
      [apply contains_tail in E1; congruence|].
    destruct (contains pasado_manana_plain (lower text)) eqn:E2;
      [apply contains_tail in E2; congruence|].
    cbn [orb]. now apply weekday_offset_none. }
  unfold replace_time.
  destruct (dt_leb (mkDatetime (ordinal now) h m 0 0) now); [|reflexivity].
  change (mkDatetime (ordinal now) h m 0 0) with (replace_time now h m).
  now rewrite dt_add_days by (apply replace_time_wf; lia).
Qed.

Lemma no_keyword_rolls_to_tomorrow_when_passed_witness :
  _auto_fire_at monday_8h "a las 8"
  = Some (mkDatetime
            (if dt_leb (mkDatetime (ordinal monday_8h) 8 0 0 0) monday_8h
             then ordinal monday_8h + 1 else ordinal monday_8h) 8 0 0 0).
Proof.
  apply (no_keyword_rolls_to_tomorrow_when_passed monday_8h "a las 8" 8 0).
  - reflexivity.
  - reflexivity.
  - reflexivity.
  - intros n w Hin. simpl in Hin.
    repeat (destruct Hin as [Heq|Hin]; [inversion Heq; reflexivity|]).
    contradiction.
Defined.

End FireTimeFacts.

(** ** Bulk delete: what goes and what stays *)

Module BulkDeleteFacts.
Import PyStr DateTime Store AiBridge DeletePattern.
Import DeleteFacts.

Lemma filter_filter_and {A : Type} (p q : A -> bool) (l : list A) :
  filter q (filter p l) = filter (fun x => p x && q x) l.
Proof.
  induction l as [|a l IH]; simpl; [reflexivity|].
  destruct (p a); simpl; [|exact IH]. destruct (q a); now rewrite IH.
Qed.

Lemma filter_none {A : Type} (p : A -> bool) (l : list A) :
  filter p (filter (fun x => negb (p x)) l) = [].
Proof.
  induction l as [|a l IH]; simpl; [reflexivity|].
  destruct (p a) eqn:E; simpl; [exact IH | now rewrite E].
Qed.

(** The rows that the delete resolver picks, as one test on a row. *)
Lemma matching_rows (ai : AiResult) (db : Db) :
  _entries_matching_delete ai db
  = filter (fun e => status_eqb (e_status e) processed
                     && entry_matches (pattern_group ai) (pattern_subgroup ai)
                                      (pattern_idea ai) e)
           (entries db).
Proof.
  rewrite entries_matching_delete_filter. unfold processed_entries.
  apply filter_filter_and.
Qed.

Lemma entries_after_delete (ai : AiResult) (db : Db) :
  entries (snd (delete_entries_matching ai db))
  = filter (fun e => negb (status_eqb (e_status e) processed
                           && entry_matches (pattern_group ai)
                                            (pattern_subgroup ai)
                                            (pattern_idea ai) e))
           (entries db).
Proof.
  unfold delete_entries_matching. cbn [snd].
  rewrite fold_db_delete, matching_rows.
  rewrite (remove_filtered_rows _ (entries db) []) by constructor.
  now destruct (filter _ (entries db)).
Qed.

Lemma find_none_filter {A : Type} (p : A -> bool) (l : list A) :
  (forall x, In x l -> p x = false) -> filter p l = [].
Proof.
  induction l as [|a l IH]; simpl; intros H; [reflexivity|].
  rewrite (H a (or_introl eq_refl)). apply IH. intros x Hx. apply H. now right.
Qed.

Lemma length_filter_split {A : Type} (p : A -> bool) (l : list A) :
  List.length (filter p l) + List.length (filter (fun x => negb (p x)) l)
  = List.length l.
Proof.
  induction l as [|a l IH]; simpl; [reflexivity|].
  destruct (p a); simpl; lia.
Qed.

(** X6: [delete_entries_matching] removes exactly the rows it returns and
    nothing else: a stored row is kept if and only if it is not among the
    matches, the rows that stay keep their order, every row that is not
    processed stays, the number of rows drops by the number of matches,
    and the reminders and summaries are not touched. *)
Theorem bulk_delete_removes_exactly_the_matches (ai : AiResult) (db : Db) :
  fst (delete_entries_matching ai db) = _entries_matching_delete ai db
  /\ (forall e,
         In e (entries (snd (delete_entries_matching ai db))) <->
         In e (entries db) /\ ~ In e (_entries_matching_delete ai db))
  /\ (exists keep,
         entries (snd (delete_entries_matching ai db))
         = filter keep (entries db))
  /\ (forall e, In e (entries db) -> e_status e <> processed ->
                In e (entries (snd (delete_entries_matching ai db))))
  /\ List.length (entries (snd (delete_entries_matching ai db)))
     + List.length (_entries_matching_delete ai db)
     = List.length (entries db)
  /\ reminders (snd (delete_entries_matching ai db)) = reminders db
  /\ summaries (snd (delete_entries_matching ai db)) = summaries db.
Proof.
  split; [reflexivity|]. split.
  { intros e. rewrite entries_after_delete, matching_rows, !filter_In.
    rewrite negb_true_iff.
    destruct (status_eqb (e_status e) processed && entry_matches _ _ _ e);
      intuition congruence. }
  split; [eexists; apply entries_after_delete|]. split.
  { intros e Hin Hs. rewrite entries_after_delete. apply filter_In.
    split; [exact Hin|]. destruct (status_eqb (e_status e) processed) eqn:E;
      [apply status_eqb_eq in E; contradiction | reflexivity]. }
  split.
  { rewrite entries_after_delete, matching_rows, Nat.add_comm.
    apply length_filter_split. }
  unfold delete_entries_matching. cbn [snd]. rewrite fold_db_delete.
  destruct (_entries_matching_delete ai db); split; reflexivity.
Qed.

(** X7: deleting twice with the same pattern is deleting once: right
    after [delete_entries_matching], no entry matches the pattern any
    more, [find_entry_to_delete] finds nothing, and a second call returns
    the empty list and leaves the store, commits included, as it is. *)
Theorem bulk_delete_is_idempotent (ai : AiResult) (db : Db) :
  _entries_matching_delete ai (snd (delete_entries_matching ai db)) = []
  /\ find_entry_to_delete ai (snd (delete_entries_matching ai db)) = None
  /\ delete_entries_matching ai (snd (delete_entries_matching ai db))
     = ([], snd (delete_entries_matching ai db)).
Proof.
  assert (H : _entries_matching_delete ai
                (snd (delete_entries_matching ai db)) = []).
  { rewrite matching_rows, entries_after_delete. apply filter_none. }
  split; [exact H|]. split.
  - unfold find_entry_to_delete. now rewrite H.
  - unfold delete_entries_matching at 1. now rewrite H.
Qed.

End BulkDeleteFacts.

(** ** Tag paths written by the Add pipeline and read back *)

Module TagPathFacts.
Import PyStr Store AiBridge TagPath.

Lemma split_comma_free (s : string) :
  comma_free s = true -> split_comma s = [s].
Proof.
  induction s as [|c s IH]; simpl; [reflexivity|].
  intros H. apply andb_true_iff in H as [Hc Hs].
  apply negb_true_iff in Hc. rewrite Hc, (IH Hs). reflexivity.
Qed.

Lemma split_comma_app (a b : string) :
  comma_free a = true ->
  split_comma (a ++ String "," b) = a :: split_comma b.
Proof.
  induction a as [|c a IH]; simpl; [reflexivity|].
  intros H. apply andb_true_iff in H as [Hc Ha].
  apply negb_true_iff in Hc. rewrite Hc, (IH Ha). reflexivity.
Qed.

(** X8: the tag path that [ai_result_to_entry_fields] writes is read
    back by the resolvers as the labels of the result: when group and
    subgroup hold no comma and the group is not blank, the first segment
    is the stripped group and the second the stripped subgroup (none when
    the subgroup is missing, empty or blank).  A comma inside the group
    breaks the round trip: the text after it is read as the subgroup. *)
Theorem tag_path_round_trip (ai : AiResult) (content : string) :
  let g := or_empty (get (group ai)) in
  let sg := or_empty (get (subgroup ai)) in
  let tags := f_tags (ai_result_to_entry_fields ai content) in
  (comma_free g = true -> comma_free sg = true -> not_blank g = true ->
   first_part (tag_parts (Some tags)) = strip g
   /\ second_part (tag_parts (Some tags))
      = (if not_blank sg then Some (strip sg) else None))
  /\ (forall a b,
         g = a ++ String "," b -> sg = EmptyString ->
         comma_free a = true -> comma_free b = true ->
         not_blank a = true -> not_blank b = true ->
         first_part (tag_parts (Some tags)) = strip a
         /\ second_part (tag_parts (Some tags)) = Some (strip b)).
Proof.
  intros g sg tags. subst tags. unfold ai_result_to_entry_fields.
  fold g. fold sg. cbn [f_tags]. unfold tag_parts, not_blank.
  cbn [or_empty]. split.
  - intros Hg Hsg Hn. destruct (truthy sg) eqn:Et.
    + change (g ++ "," ++ sg) with (g ++ String "," sg).
      rewrite split_comma_app, split_comma_free by assumption.
      cbn [map filter]. rewrite Hn.
      destruct (truthy (strip sg)); split; reflexivity.
    + rewrite split_comma_free by assumption.
      cbn [map filter]. rewrite Hn.
      destruct sg; [|discriminate]. split; reflexivity.
  - intros a b Hg Hsg Ha Hb Hna Hnb. rewrite Hsg. cbn [truthy].
    rewrite Hg, split_comma_app, split_comma_free by assumption.
    cbn [map filter]. rewrite Hna, Hnb. split; reflexivity.
Qed.

End TagPathFacts.

(** ** More on the auto-summarizer *)

Module SummaryTableFacts.
Import PyStr DateTime Store World Main Dispatch Samples.
Import SummarizerFacts.

Lemma second_part_not_empty (tags : option string) :
  AiBridge.second_part (AiBridge.tag_parts tags) <> Some EmptyString.
Proof.
  unfold AiBridge.tag_parts.
  set (l := map strip (split_comma (or_empty tags))). clearbody l.
  assert (H : Forall (fun p => truthy p = true) (filter truthy l)).
  { apply Forall_forall. intros x Hx. now apply filter_In in Hx. }
  destruct (filter truthy l) as [|p [|q r]]; simpl; try discriminate.
  inversion H as [|? ? _ H']; subst. inversion H' as [|? ? Hq _]; subst.
  intros Heq; inversion Heq; subst. discriminate.
Qed.

Lemma get_group_ideas_empty_subgroup (group : string) (db : Db) :
  _get_group_ideas group (Some EmptyString) db = [].
Proof.
  rewrite get_group_ideas_eq.
  assert (filter (in_group group (Some EmptyString)) (processed_entries db)
          = []) as ->; [|reflexivity].
  induction (processed_entries db) as [|e l IH]; simpl; [reflexivity|].
  assert (in_group group (Some EmptyString) e = false) as ->; [|exact IH].
  unfold in_group.
  pose proof (second_part_not_empty (e_tags e)) as H.
  destruct (AiBridge.second_part (AiBridge.tag_parts (e_tags e))) as [x|];
    simpl.
  - destruct x; [congruence|]. simpl. now rewrite andb_false_r.
  - now rewrite andb_false_r.
Qed.

(** X9: a subgroup given as the empty string is never summarized.  The
    entries of such a result are stored under the group alone, but the
    summarizer is asked for the pair (group, ""), which no stored tag path
    reads as: it counts no idea, sends no request and writes nothing,
    however many ideas the group holds, and the Add pipeline leaves the
    summary table as it was. *)
Theorem empty_subgroup_is_never_summarized
        (env : Env) (now : datetime) (name : string) (db : Db)
        (ai : AiResult) (note : NoteIn) :
  _get_group_ideas name (Some EmptyString) db = []
  /\ _maybe_auto_summarize env now name (Some EmptyString) db = (db, [])
  /\ (get (subgroup ai) = Some EmptyString ->
      forall out db1,
        process_add env now ai note db = Ok (out, db1) ->
        summaries db1 = summaries db).
Proof.
  assert (Hs : forall g d,
             _maybe_auto_summarize env now g (Some EmptyString) d = (d, [])).
  { intros g d. unfold _maybe_auto_summarize.
    now rewrite get_group_ideas_empty_subgroup. }
  split; [apply get_group_ideas_empty_subgroup|]. split; [apply Hs|].
  intros Hsub out db1. unfold process_add. rewrite Hsub.
  destruct (find _ (filter _ (entries db))).
  { intros H; inversion H; reflexivity. }
  destruct (insert_entry db _) as [d|] eqn:Ei.
  - unfold insert_entry in Ei.
    destruct (content_taken db _); [discriminate|].
    inversion Ei; subst; clear Ei.
    destruct (export_to_markdown env _);
      destruct (nonempty (get (group ai)));
      rewrite ?Hs; intros H; inversion H; reflexivity.
  - destruct (find _ (entries db)); intros H; inversion H; reflexivity.
Qed.

Lemma same_pair_names (g : string) (sg : option string) (r : GroupSummary)
      (text : string) (now : datetime) :
  same_pair g sg (mkGroupSummary (gs_group_name r) (gs_subgroup_name r)
                                 text now)
  = same_pair g sg r.
Proof. reflexivity. Qed.

Lemma count_after_update (g g' : string) (sg sg' : option string)
      (text : string) (now : datetime) (rows : list GroupSummary) :
  List.length (filter (same_pair g' sg') (update_first g sg text now rows))
  = List.length (filter (same_pair g' sg') rows).
Proof.
  induction rows as [|r rows IH]; simpl; [reflexivity|].
  destruct (same_pair g sg r); simpl.
  - rewrite same_pair_names. now destruct (same_pair g' sg' r).
  - destruct (same_pair g' sg' r); simpl; now rewrite IH.
Qed.

Lemma opt_string_eqb_eq (a b : option string) :
  opt_string_eqb a b = true <-> a = b.
Proof.
  destruct a as [x|], b as [y|]; simpl; try (split; congruence).
  rewrite String.eqb_eq. split; congruence.
Qed.

Lemma same_pair_eq (g : string) (sg : option string) (r : GroupSummary) :
  same_pair g sg r = true <-> gs_group_name r = g /\ gs_subgroup_name r = sg.
Proof.
  unfold same_pair. now rewrite andb_true_iff, String.eqb_eq, opt_string_eqb_eq.
Qed.

Lemma find_none_count {A : Type} (p : A -> bool) (l : list A) :
  find p l = None -> filter p l = [].
Proof.
  induction l as [|a l IH]; simpl; [reflexivity|].
  destruct (p a); [discriminate | exact IH].
Qed.

(** X10: the summarizer never gives a pair a second row.  If the summary
    table holds at most one row for every (group, subgroup) pair, it still
    does after [_maybe_auto_summarize], and the table grows by at most one
    row. *)
Theorem summaries_keep_one_row_per_pair
        (env : Env) (now : datetime) (group : string)
        (subgroup : option string) (db : Db) :
  (forall g sg, List.length (filter (same_pair g sg) (summaries db)) <= 1) ->
  (forall g sg,
      List.length
        (filter (same_pair g sg)
                (summaries (fst (_maybe_auto_summarize env now group subgroup
                                                       db)))) <= 1)
  /\ List.length (summaries (fst (_maybe_auto_summarize env now group subgroup
                                                        db)))
     <= S (List.length (summaries db)).
Proof.
  intros Hone. unfold _maybe_auto_summarize.
  destruct (List.length _ <=? 10); [split; [exact Hone | cbn; lia]|].
  destruct (negb (truthy _)); [split; [exact Hone | cbn; lia]|].
  cbn [fst summaries commit with_summaries].
  destruct (find (same_pair group subgroup) (summaries db)) as [old|] eqn:F.
  - split.
    + intros g sg. rewrite count_after_update. apply Hone.
    + rewrite length_update_first. lia.
  - split.
    + intros g sg. rewrite filter_app, length_app. cbn [filter].
      destruct (same_pair g sg (mkGroupSummary group subgroup _ now)) eqn:E.
      * apply same_pair_eq in E as [<- <-]. cbn [gs_group_name gs_subgroup_name].
        rewrite (find_none_count _ _ F). simpl. lia.
      * specialize (Hone g sg). simpl. lia.
    + rewrite length_app. simpl. lia.
Qed.

Lemma summaries_keep_one_row_per_pair_witness :
  (forall g sg,
      List.length
        (filter (same_pair g sg)
                (summaries (fst (_maybe_auto_summarize exporting_env monday_8h
                                   "casa" None db_eleven_ideas)))) <= 1)
  /\ List.length (summaries (fst (_maybe_auto_summarize exporting_env monday_8h
                                    "casa" None db_eleven_ideas)))
     <= S (List.length (summaries db_eleven_ideas)).
Proof.
  apply (summaries_keep_one_row_per_pair
           exporting_env monday_8h "casa" None db_eleven_ideas).
  intros g sg. simpl. lia.
Defined.

End SummaryTableFacts.

(** ** What a poll of the scheduler leaves alone *)

Module PollFacts.
Import PyStr DateTime Store World Main Scheduler Samples.
Import SchedulerFacts.

Lemma NoDup_map_inj {A : Type} (f : A -> nat) (l : list A) (a b : A) :
  NoDup (map f l) -> In a l -> In b l -> f a = f b -> a = b.
Proof.
  induction l as [|x l IH]; simpl; intros Hnd Ha Hb Hf; [contradiction|].
  inversion Hnd as [|? ? Hn Hd]; subst.
  destruct Ha as [->|Ha], Hb as [->|Hb]; auto.
  - elim Hn. rewrite Hf. now apply in_map.
  - elim Hn. rewrite <- Hf. now apply in_map.
Qed.

Lemma sent_by_due (now : datetime) (rs : list Reminder) (x : Reminder) :
  NoDup (map r_id rs) -> In x rs ->
  sent_by (filter (is_due now) rs) x
  = if is_due now x then set_sent x else x.
Proof.
  intros Hnd Hin. unfold sent_by.
  destruct (is_due now x) eqn:E.
  - assert (existsb (fun d => r_id x =? r_id d) (filter (is_due now) rs)
            = true) as ->; [|reflexivity].
    apply existsb_exists. exists x. split; [|apply Nat.eqb_refl].
    now apply filter_In.
  - destruct (existsb _ (filter (is_due now) rs)) eqn:Ex; [|reflexivity].
    apply existsb_exists in Ex as (d & Hd & Hk).
    apply filter_In in Hd as [Hd Hdue]. apply Nat.eqb_eq in Hk.
    assert (x = d) by (eapply NoDup_map_inj; eauto). subst. congruence.
Qed.

Lemma in_remove_row_other (e x : InboxEntry) (es : list InboxEntry) :
  In e es -> x <> e -> In e (remove_row x es).
Proof.
  induction es as [|a es IH]; simpl; [auto|]. intros [->|Hin] Hne.
  - destruct (entry_eq_dec x e); [contradiction | now left].
  - destruct (entry_eq_dec x a); [exact Hin | right; auto].
Qed.

Lemma fire_db_keeps_unlinked (db : Db) (r : Reminder) (e : InboxEntry) :
  In e (entries db) -> truthy_id (r_entry_id r) <> Some (e_id e) ->
  In e (entries (fire_db db r)).
Proof.
  intros Hin Hne. unfold fire_db.
  destruct (truthy_id (r_entry_id r)) as [i|]; [|exact Hin].
  destruct (entry_by_id _ i) as [x|] eqn:F; [|exact Hin].
  apply in_remove_row_other; [exact Hin|].
  apply find_some in F as [_ Hx]. apply Nat.eqb_eq in Hx.
  intros ->. congruence.
Qed.

Lemma fold_fire_db_keeps_unlinked (ds : list Reminder) (db : Db)
      (e : InboxEntry) :
  In e (entries db) ->
  (forall r, In r ds -> truthy_id (r_entry_id r) <> Some (e_id e)) ->
  In e (entries (fold_left fire_db ds db)).
Proof.
  revert db; induction ds as [|a ds IH]; intros db Hin H; simpl; [exact Hin|].
  apply IH.
  - apply fire_db_keeps_unlinked; [exact Hin | apply H; now left].
  - intros r Hr. apply H. now right.
Qed.

Lemma summaries_fire_db (db : Db) (r : Reminder) :
  summaries (fire_db db r) = summaries db.
Proof.
  unfold fire_db. destruct (truthy_id (r_entry_id r)) as [i|]; [|reflexivity].
  now destruct (entry_by_id _ i).
Qed.

Lemma summaries_fold_fire_db (ds : list Reminder) (db : Db) :
  summaries (fold_left fire_db ds db) = summaries db.
Proof.
  revert db; induction ds as [|a ds IH]; intros db; simpl; [reflexivity|].
  now rewrite IH, summaries_fire_db.
Qed.

(** X11: a poll changes nothing but what is due.  With distinct
    reminder keys, the reminders table after the poll is the old one with
    the [sent] flag set on exactly the due rows (no reminder is removed,
    and message, fire time and link are kept); an entry is only deleted if
    a due reminder links to it; the summaries are not touched; and when no
    reminder is due the store is returned as it is, without a commit or a
    delivery. *)
Theorem poll_changes_only_what_is_due
        (env : Env) (now : datetime) (db : Db) :
  NoDup (map r_id (reminders db)) ->
  reminders (fst (_check_reminders env now db))
  = map (fun x => if is_due now x then set_sent x else x) (reminders db)
  /\ (forall e,
         In e (entries db) ->
         (forall r, In r (reminders db) -> is_due now r = true ->
                    truthy_id (r_entry_id r) <> Some (e_id e)) ->
         In e (entries (fst (_check_reminders env now db))))
  /\ summaries (fst (_check_reminders env now db)) = summaries db
  /\ (filter (is_due now) (reminders db) = [] ->
      _check_reminders env now db = (db, [])).
Proof.
  intros Hnd. split.
  { rewrite reminders_after_poll. apply map_ext_in.
    intros x Hx. now apply sent_by_due. }
  split.
  { intros e Hin Hl. rewrite check_reminders_eq. cbn [fst].
    assert (In e (entries (fold_left fire_db
                             (filter (is_due now) (reminders db)) db))) as H.
    { apply fold_fire_db_keeps_unlinked; [exact Hin|].
      intros r Hr. apply filter_In in Hr as [Hr Hd]. now apply Hl. }
    destruct (filter (is_due now) (reminders db)); [exact Hin | exact H]. }
  split.
  { rewrite check_reminders_eq. cbn [fst].
    pose proof (summaries_fold_fire_db
                  (filter (is_due now) (reminders db)) db) as H.
    destruct (filter (is_due now) (reminders db)); [reflexivity | exact H]. }
  intros Hnone. rewrite check_reminders_eq, Hnone. reflexivity.
Qed.

Lemma poll_changes_only_what_is_due_witness :
  reminders (fst (_check_reminders offline_env friday_10h
                                   db_with_due_reminder))
  = map (fun x => if is_due friday_10h x then set_sent x else x)
        (reminders db_with_due_reminder)
  /\ (forall e,
         In e (entries db_with_due_reminder) ->
         (forall r, In r (reminders db_with_due_reminder) ->
                    is_due friday_10h r = true ->
                    truthy_id (r_entry_id r) <> Some (e_id e)) ->
         In e (entries (fst (_check_reminders offline_env friday_10h
                                              db_with_due_reminder))))
  /\ summaries (fst (_check_reminders offline_env friday_10h
                                      db_with_due_reminder))
     = summaries db_with_due_reminder
  /\ (filter (is_due friday_10h) (reminders db_with_due_reminder) = [] ->
      _check_reminders offline_env friday_10h db_with_due_reminder
      = (db_with_due_reminder, [])).
Proof.
  apply (poll_changes_only_what_is_due offline_env friday_10h
                                       db_with_due_reminder).
  simpl. repeat constructor; simpl; intuition discriminate.
Defined.

Lemma not_due_after_marking (now : datetime) (ds : list Reminder)
      (x : Reminder) :
  (is_due now x = true -> In x ds) -> is_due now (sent_by ds x) = false.
Proof.
  intros H. unfold sent_by.
  destruct (existsb (fun d => r_id x =? r_id d) ds) eqn:E; [reflexivity|].
  destruct (is_due now x) eqn:Ed; [|reflexivity].
  assert (existsb (fun d => r_id x =? r_id d) ds = true).
  { apply existsb_exists. exists x. split; [auto | apply Nat.eqb_refl]. }
  congruence.
Qed.

Lemma none_due_after_marking (now : datetime) (ds l : list Reminder) :
  (forall x, In x l -> is_due now x = true -> In x ds) ->
  filter (is_due now) (map (sent_by ds) l) = [].
Proof.
  induction l as [|x l IH]; simpl; intros H; [reflexivity|].
  rewrite not_due_after_marking by (intros Hd; apply H; auto).
  apply IH. intros y Hy. apply H. now right.
Qed.

(** X12: right after a poll nothing is due any more: a second poll at
    the same instant attempts no delivery, commits nothing and returns the
    store as the first poll left it. *)
Theorem second_poll_at_same_instant_is_a_no_op
        (env : Env) (now : datetime) (db : Db) :
  filter (is_due now) (reminders (fst (_check_reminders env now db))) = []
  /\ _check_reminders env now (fst (_check_reminders env now db))
     = (fst (_check_reminders env now db), []).
Proof.
  assert (H : filter (is_due now)
                     (reminders (fst (_check_reminders env now db))) = []).
  { rewrite reminders_after_poll. apply none_due_after_marking.
    intros x Hx Hd. now apply filter_In. }
  split; [exact H|]. rewrite check_reminders_eq, H. reflexivity.
Qed.

End PollFacts.

(** ** The resolver as a whole: failures, invariants, swallowed notes *)

Module PipelineFacts.
Import PyStr DateTime Store World Main Dispatch Invariant Samples.
Import SummarizerFacts AddFacts.

Lemma process_add_never_raises (env : Env) (now : datetime) (ai : AiResult)
      (note : NoteIn) (db : Db) :
  exists out db1, process_add env now ai note db = Ok (out, db1).
Proof.
  unfold process_add.
  destruct (find _ (filter _ (entries db))); [eauto|].
  unfold insert_entry, content_taken. cbn [e_content].
  rewrite existsb_find.
  destruct (find _ (entries db)); [eauto|].
  destruct (export_to_markdown env _); eauto.
Qed.

(** How the delete branch ends: a delete that matched nothing returns
    an outcome that reports no entry; a delete that matched fails in the
    refresh, with the deletion already committed. *)
Lemma process_single_delete (env : Env) (now : datetime) (ai : AiResult)
      (note : NoteIn) (db : Db) :
  takes_delete_path ai = true ->
  _process_single_ai env now ai note db
  = match AiBridge._entries_matching_delete ai db with
    | [] => Ok (mkNoteOut "delete" None (get (group ai)) (get (subgroup ai))
                          (get (idea ai)) false 0 None, db)
    | _ :: _ =>
        Raise InvalidRequestError
              (snd (AiBridge.delete_entries_matching ai db))
    end.
Proof.
  unfold takes_delete_path, makes_sense_ok, _process_single_ai.
  rewrite andb_true_iff. intros [Hm Hd].
  destruct (get_default (makes_sense ai) true) as [[|]|]; try discriminate.
  rewrite Hd. unfold AiBridge.delete_entries_matching.
  now destruct (AiBridge._entries_matching_delete ai db).
Qed.

Lemma process_single_not_delete (env : Env) (now : datetime)
      (ai : AiResult) (note : NoteIn) (db : Db) :
  takes_delete_path ai = false ->
  exists out db1, _process_single_ai env now ai note db = Ok (out, db1).
Proof.
  unfold takes_delete_path, makes_sense_ok, _process_single_ai.
  destruct (get_default (makes_sense ai) true) as [[|]|]; eauto.
  cbn [andb]. intros ->.
  destruct (opt_eqb _ "remind"); [eauto|]. apply process_add_never_raises.
Qed.

Lemma process_single_raise (env : Env) (now : datetime) (ai : AiResult)
      (note : NoteIn) (db : Db) (e : exn) (d : Db) :
  _process_single_ai env now ai note db = Raise e d ->
  e = InvalidRequestError /\ takes_delete_path ai = true
  /\ AiBridge._entries_matching_delete ai db <> []
  /\ d = snd (AiBridge.delete_entries_matching ai db).
Proof.
  destruct (takes_delete_path ai) eqn:Hp.
  - rewrite process_single_delete by exact Hp.
    destruct (AiBridge._entries_matching_delete ai db) as [|m ms];
      [discriminate|].
    intros H; inversion H; subst. repeat split. discriminate.
  - destruct (process_single_not_delete env now ai note db Hp)
      as (out & db1 & ->).
    discriminate.
Qed.



Lemma process_all_raise (env : Env) (now : datetime)
      (ai_list : list AiResult) (note : NoteIn) :
  forall db e d,
    process_all env now ai_list note db = Raise e d ->
    e = InvalidRequestError
    /\ exists ai, In ai ai_list /\ takes_delete_path ai = true.
Proof.
  induction ai_list as [|ai rest IH]; intros db e d; simpl; [discriminate|].
  destruct (_process_single_ai env now ai note db) as [[o d1]|e1 d1] eqn:E.
  - destruct (process_all env now rest note d1) as [[os d2]|e2 d2] eqn:E2;
      [discriminate|].
    intros H; inversion H; subst.
    destruct (IH _ _ _ E2) as (-> & ai' & Hin & Hp).
    split; [reflexivity|]. exists ai'. auto.
  - intros H; inversion H; subst.
    apply process_single_raise in E as (-> & Hp & _).
    split; [reflexivity|]. exists ai. auto.
Qed.

(** X13: what a note submission can raise.  The Add pipeline never
    raises: its 409 cannot be reached, because the unique constraint only
    fails when a row with that content exists, and that row is then
    returned.  Processing a result raises in exactly one case: a delete
    that matched at least one entry; the error is the InvalidRequestError
    of the refresh and the store is left with the matched rows deleted.
    So a delete outcome is only ever returned for a delete that matched
    nothing: it reports no entry and a count of 0, and the store is as
    before.  A submission raises only with the IntegrityError of the degraded path
    (classifier unavailable, content already stored, store unchanged) or
    with the InvalidRequestError of a delete result. *)
Theorem submission_raises_on_matched_delete_or_known_content
        (env : Env) (now : datetime) (note : NoteIn) (db : Db) :
  (forall ai, exists out db1,
        process_add env now ai note db = Ok (out, db1))
  /\ (forall ai e d,
         _process_single_ai env now ai note db = Raise e d <->
         e = InvalidRequestError /\ takes_delete_path ai = true
         /\ AiBridge._entries_matching_delete ai db <> []
         /\ d = snd (AiBridge.delete_entries_matching ai db))
  /\ (forall ai,
         takes_delete_path ai = true ->
         AiBridge._entries_matching_delete ai db = [] ->
         _process_single_ai env now ai note db
         = Ok (mkNoteOut "delete" None (get (group ai)) (get (subgroup ai))
                         (get (idea ai)) false 0 None, db))
  /\ (forall e d,
         add_note env now note db = Raise e d ->
         (e = IntegrityError /\ d = db
          /\ classify_with_ai env (content note) db
               (match nonempty (lang note) with Some l => l | None => "es" end)
             = None
          /\ content_taken db (content note) = true)
         \/ (e = InvalidRequestError
             /\ exists ai_list ai,
                 classify_with_ai env (content note) db
                   (match nonempty (lang note) with
                    | Some l => l | None => "es" end)
                 = Some ai_list
                 /\ In ai ai_list /\ takes_delete_path ai = true)).
Proof.
  split; [intros ai; apply process_add_never_raises|].
  split.
  { intros ai e d. split; [apply process_single_raise|].
    intros (-> & Hp & Hm & ->). rewrite process_single_delete by exact Hp.
    destruct (AiBridge._entries_matching_delete ai db); congruence. }
  split.
  { intros ai Hp Hm. rewrite process_single_delete by exact Hp.
    now rewrite Hm. }
  intros e d. unfold add_note.
  destruct (classify_with_ai env (content note) db _) as [ai_list|].
  - destruct (process_all env now ai_list note db) as [[outs db1]|e1 d1]
      eqn:E.
    + destruct (existsb is_add outs && negb _); [|discriminate].
      destruct (_maybe_auto_reminder now (content note) outs db1)
        as [[a|] d2]; discriminate.
    + intros H; inversion H; subst. right.
      destruct (process_all_raise _ _ _ _ _ _ _ E) as (-> & ai & Hin & Hp).
      split; [reflexivity|]. exists ai_list, ai. auto.
  - unfold insert_entry. cbn [e_content].
    destruct (content_taken db (content note)); [|discriminate].
    intros H; inversion H. left. auto.
Qed.

(** A delete result that matches the stored entry: the request fails,
    and the entry is gone all the same. *)
Example matched_delete_fails_after_commit :
  let env := mkEnv (fun _ => "note") (fun _ => None)
                   (fun _ _ _ => Some [mkAi (Val true) (Val "delete")
                                            (Val "casa") Null Null Absent
                                            Absent])
                   (fun _ _ _ => None) (fun _ _ => false) (fun _ => None) in
  add_note env monday_8h (mkNoteIn "borra casa" None None) db_with_pan
  = Raise InvalidRequestError (mkDb [] [] [] 2 1 1)
  /\ add_note env monday_8h (mkNoteIn "borra casa" None None) empty_db
     = Ok ([mkNoteOut "delete" None (Some "casa") None None false 0 None],
           empty_db).
Proof. split; reflexivity. Qed.

(** X14: a note whose idea is dropped as a summary (it is missing, it
    only echoes the note, or it starts with a command verb) is compared
    with the empty text by the dedup guard, and the empty text is contained
    in every stored summary of more than 3 characters: as soon as the tag
    path holds one such processed entry, the note is not stored and that
    older entry is returned as the outcome. *)
Theorem note_without_summary_is_swallowed
        (env : Env) (now : datetime) (ai : AiResult) (note : NoteIn)
        (db : Db) (e : InboxEntry) :
  add_summary ai note = EmptyString ->
  In e (entries db) ->
  e_status e = processed ->
  e_tags e = Some (add_tags ai note) ->
  3 < String.length (_normalize (or_empty (e_summary e))) ->
  exists dup,
    process_add env now ai note db = Ok (add_out ai note dup, db)
    /\ In dup (entries db)
    /\ e_tags dup = Some (add_tags ai note)
    /\ out_idea (add_out ai note dup) = None.
Proof.
  intros Hs Hin Hst Ht Hlen.
  assert (Hc : dedup_candidate (add_tags ai note) (add_summary ai note) e
               = true).
  { apply dedup_candidate_spec. repeat split; try assumption.
    rewrite Hs. unfold _similar, Fuzzy._similar.
    apply Nat.ltb_lt in Hlen. unfold _normalize in Hlen. rewrite Hlen.
    change (Fuzzy._normalize "") with "".
    assert (contains "" (Fuzzy._normalize (or_empty (e_summary e))) = true)
      as -> by (now destruct (Fuzzy._normalize (or_empty (e_summary e)))).
    now rewrite !orb_true_r. }
  destruct (find (dedup_candidate (add_tags ai note) (add_summary ai note))
                 (entries db)) as [dup|] eqn:F.
  - exists dup. split; [now apply process_add_dedup|].
    apply find_some in F as [Hd Hp]. apply dedup_candidate_spec in Hp.
    split; [exact Hd|]. split; [tauto|].
    unfold add_out, note_out. cbn [out_idea]. now rewrite Hs.
  - pose proof (find_none _ _ F e Hin). congruence.
Qed.

Lemma note_without_summary_is_swallowed_witness :
  exists dup,
    process_add exporting_env monday_8h ai_echo note_pan db_with_pan
    = Ok (add_out ai_echo note_pan dup, db_with_pan)
    /\ In dup (entries db_with_pan)
    /\ e_tags dup = Some (add_tags ai_echo note_pan)
    /\ out_idea (add_out ai_echo note_pan dup) = None.
Proof.
  apply (note_without_summary_is_swallowed
           exporting_env monday_8h ai_echo note_pan db_with_pan
           (stored 1 "llamar al fontanero" "casa" processed)).
  - reflexivity.
  - simpl. tauto.
  - reflexivity.
  - reflexivity.
  - vm_compute. lia.
Defined.

End PipelineFacts.

(** ** The entries table keeps its invariant *)

Module InvariantFacts.
Import PyStr DateTime Store World Main Dispatch Invariant Samples.
Import SummarizerFacts AddFacts PipelineFacts.





Lemma entries_ok_append (db db1 : Db) (e : InboxEntry) :
  entries db1 = (entries db ++ [e])%list ->
  next_entry_id db1 = S (next_entry_id db) ->
  content_taken db (e_content e) = false ->
  e_id e = next_entry_id db ->
  entries_ok db -> entries_ok db1.
Proof.
  unfold entries_ok, keys_fresh. intros -> -> Hc Hid [Hn Hk]. split.
  - rewrite map_app. simpl. apply NoDup_app; [exact Hn | | ].
    + repeat constructor. simpl. tauto.
    + intros c Hin [<-|[]]. unfold content_taken in Hc.
      apply in_map_iff in Hin as (x & Hx & Hin).
      assert (existsb (fun e0 => (e_content e0 =? e_content e)%string)
                      (entries db) = true).
      { apply existsb_exists. exists x. split; [exact Hin|].
        now apply String.eqb_eq. }
      congruence.
  - rewrite forallb_app. simpl. rewrite Hid, andb_true_r.
    apply andb_true_iff. split; [|apply Nat.ltb_lt; lia].
    rewrite forallb_forall in *. intros x Hx. specialize (Hk x Hx).
    apply Nat.ltb_lt in Hk. apply Nat.ltb_lt. lia.
Qed.








End InvariantFacts.

(** ** The outcomes of a note submission *)

Module OutcomeFacts.
Import PyStr DateTime Store World Main Dispatch Samples.
Import PipelineFacts.



Example note_with_time_gets_a_linked_reminder :
  match add_note classifying_env monday_8h note_pan_18 empty_db with
  | Ok (outs, db1) =>
      (map out_action outs, map r_entry_id (reminders db1),
       map r_fire_at (reminders db1))
  | Raise _ _ => ([], [], [])
  end
  = (["add"; "remind"], [Some 1], [mkDatetime 738886 18 0 0 0]).
Proof. reflexivity. Qed.

End OutcomeFacts.

(** ** Batch import *)

Module BatchFacts.
Import PyStr DateTime Store World Main Dispatch Invariant Batch Samples.
Import AddFacts InvariantFacts.

Lemma existsb_filter {A : Type} (p q : A -> bool) (l : list A) :
  existsb q (filter p l) = existsb (fun x => p x && q x) l.
Proof.
  induction l as [|a l IH]; simpl; [reflexivity|].
  destruct (p a); simpl; [now rewrite IH | exact IH].
Qed.

(** One step of the loop, case by case. *)
Lemma save_item_cases (origin : string) (now : datetime) (db : Db) (k : nat)
      (item : BatchSaveItem) :
  (settled (entries db) item = true
   /\ save_item origin now (db, k) item = (db, k))
  \/ (settled (entries db) item = false
      /\ exists db1 e,
          save_item origin now (db, k) item = (db1, S k)
          /\ entries db1 = (entries db ++ [e])%list
          /\ next_entry_id db1 = S (next_entry_id db)
          /\ reminders db1 = reminders db /\ summaries db1 = summaries db
          /\ e_id e = next_entry_id db
          /\ e_content e = item_idea item
          /\ e_summary e = Some (item_idea item)
          /\ e_tags e = Some (item_tags item)
          /\ e_status e = processed).
Proof.
  unfold save_item, settled. rewrite existsb_filter.
  change (fun x => status_eqb (e_status x) processed
                   && opt_eqb (e_tags x) (item_tags item)
                   && _similar (or_empty (e_summary x)) (item_idea item))
    with (dedup_candidate (item_tags item) (item_idea item)).
  destruct (existsb (dedup_candidate _ _) (entries db)); [now left|].
  unfold insert_entry, content_taken. cbn [e_content orb].
  destruct (existsb _ (entries db)); [now left|].
  right. split; [reflexivity|].
  eexists _, _. split; [reflexivity|]. repeat split.
Qed.

Lemma settled_grows (es more : list InboxEntry) (item : BatchSaveItem) :
  settled es item = true -> settled (es ++ more) item = true.
Proof.
  unfold settled. rewrite !existsb_app, !orb_true_iff. tauto.
Qed.

Lemma settled_after_append (es : list InboxEntry) (e : InboxEntry)
      (item : BatchSaveItem) :
  e_summary e = Some (item_idea item) ->
  e_tags e = Some (item_tags item) ->
  e_status e = processed ->
  settled (es ++ [e]) item = true.
Proof.
  intros Hs Ht Hst. unfold settled. rewrite existsb_app. simpl.
  assert (dedup_candidate (item_tags item) (item_idea item) e = true) as ->.
  { apply dedup_candidate_spec. rewrite Hs, Ht, Hst. repeat split.
    apply FuzzyFacts._similar_refl. }
  now rewrite !orb_true_r.
Qed.

(** The whole loop: rows are only appended, one per saved item, and every
    item of the batch is settled on the final table. *)
Lemma batch_loop (origin : string) (now : datetime)
      (l : list BatchSaveItem) :
  forall db k,
  exists more,
    entries (fst (fold_left (save_item origin now) l (db, k)))
    = (entries db ++ more)%list
    /\ snd (fold_left (save_item origin now) l (db, k))
       = k + List.length more
    /\ List.length more <= List.length l
    /\ reminders (fst (fold_left (save_item origin now) l (db, k)))
       = reminders db
    /\ summaries (fst (fold_left (save_item origin now) l (db, k)))
       = summaries db
    /\ Forall (fun e => e_status e = processed
                        /\ e_summary e = Some (e_content e)
                        /\ exists item, In item l
                                        /\ e_content e = item_idea item
                                        /\ e_tags e = Some (item_tags item))
              more
    /\ (forall item, In item l ->
          settled (entries (fst (fold_left (save_item origin now) l (db, k))))
                  item = true)
    /\ (entries_ok db ->
        entries_ok (fst (fold_left (save_item origin now) l (db, k)))).
Proof.
  induction l as [|item l IH]; intros db k.
  - exists []. simpl. rewrite app_nil_r, Nat.add_0_r.
    split; [reflexivity|]. split; [reflexivity|]. split; [lia|].
    split; [reflexivity|]. split; [reflexivity|]. split; [constructor|].
    split; [intros item []|auto].
  - cbn [fold_left].
    destruct (save_item_cases origin now db k item)
      as [[Hs ->]|(Hs & db1 & e & -> & He & Hn & Hr & Hsm & Hid & Hc & Hsum
                   & Ht & Hst)].
    + destruct (IH db k) as (more & H1 & H2 & H3 & H4 & H5 & H6 & H7 & H8).
      exists more. split; [exact H1|]. split; [exact H2|].
      split; [simpl; lia|]. split; [exact H4|]. split; [exact H5|].
      split; [|split; [|exact H8]].
      * eapply Forall_impl; [|exact H6]. simpl.
        intros x (Ha & Hb & it & Hin & Hx). repeat split; auto.
        exists it. split; [now right | exact Hx].
      * intros it [<-|Hin]; [|now apply H7].
        rewrite H1. now apply settled_grows.
    + destruct (IH db1 (S k)) as (more & H1 & H2 & H3 & H4 & H5 & H6 & H7 & H8).
      exists (e :: more). rewrite H1, He, <- app_assoc. cbn [app].
      split; [reflexivity|]. split; [rewrite H2; simpl; lia|].
      split; [simpl; lia|]. split; [congruence|]. split; [congruence|].
      split.
      * constructor.
        -- split; [exact Hst|]. split; [congruence|].
           exists item. split; [now left|]. split; assumption.
        -- eapply Forall_impl; [|exact H6]. simpl.
           intros x (Ha & Hb & it & Hin & Hx). repeat split; auto.
           exists it. split; [now right | exact Hx].
      * split.
        -- intros it [<-|Hin].
           ++ change (entries db ++ e :: more)%list
                with (entries db ++ [e] ++ more)%list.
              rewrite app_assoc. apply settled_grows.
              now apply settled_after_append.
           ++ specialize (H7 it Hin). rewrite H1, He, <- app_assoc in H7.
              exact H7.
        -- intros Hok. apply H8.
           apply (entries_ok_append db db1 e); auto.
           unfold settled in Hs. apply orb_false_iff in Hs as [_ Hs].
           unfold content_taken. now rewrite Hc.
Qed.

Lemma batch_loop_settled (origin : string) (now : datetime)
      (l : list BatchSaveItem) (db : Db) (k : nat) :
  (forall item, In item l -> settled (entries db) item = true) ->
  fold_left (save_item origin now) l (db, k) = (db, k).
Proof.
  induction l as [|item l IH]; intros H; [reflexivity|].
  cbn [fold_left].
  destruct (save_item_cases origin now db k item) as [[_ ->]|[Hs _]].
  - apply IH. intros it Hin. apply H. now right.
  - rewrite (H item (or_introl eq_refl)) in Hs. discriminate.
Qed.

(** X17: a batch import only appends rows.  [saved] is the number of
    rows added and never exceeds [total], the number of items; every
    stored row stays where it was; each new row is processed, has the idea
    of an item as both content and summary and carries that item's tag
    path; reminders and summaries are untouched; and a sound entries table
    stays sound. *)
Theorem batch_save_only_appends
        (now : datetime) (batch : BatchSaveIn) (db : Db) :
  let db1 := fst (fst (batch_save now batch db)) in
  let saved := snd (fst (batch_save now batch db)) in
  let total := snd (batch_save now batch db) in
  total = List.length (items batch)
  /\ saved <= total
  /\ (exists more,
         entries db1 = (entries db ++ more)%list
         /\ List.length more = saved
         /\ Forall (fun e => e_status e = processed
                             /\ e_summary e = Some (e_content e)
                             /\ exists item,
                                 In item (items batch)
                                 /\ e_content e = item_idea item
                                 /\ e_tags e = Some (item_tags item))
                   more)
  /\ reminders db1 = reminders db
  /\ summaries db1 = summaries db
  /\ (entries_ok db -> entries_ok db1).
Proof.
  unfold batch_save. cbn [fst snd].
  destruct (batch_loop (batch_origin batch) now (items batch) db 0)
    as (more & H1 & H2 & H3 & H4 & H5 & H6 & H7 & H8).
  split; [reflexivity|]. split; [rewrite H2; simpl; lia|].
  split; [exists more; now rewrite H2|]. auto.
Qed.

(** X18: importing the same items again saves nothing: after a batch,
    every item of it is either matched by the dedup test or refused by the
    unique constraint, so a second import of those items (whatever its
    origin label or time) reports [saved = 0] and returns the store as
    it is. *)
Theorem batch_save_twice_saves_nothing
        (now now2 : datetime) (batch : BatchSaveIn) (origin2 : string)
        (db : Db) :
  batch_save now2 (mkBatch (items batch) origin2)
             (fst (fst (batch_save now batch db)))
  = (fst (fst (batch_save now batch db)), 0, List.length (items batch)).
Proof.
  unfold batch_save. cbn [fst snd items batch_origin].
  destruct (batch_loop (batch_origin batch) now (items batch) db 0)
    as (more & _ & _ & _ & _ & _ & _ & H7 & _).
  now rewrite (batch_loop_settled origin2 now2 _ _ 0 H7).
Qed.

End BatchFacts.

(** ** Group deletion and renaming *)

Module TaxonomyFacts.
Import PyStr DateTime Store World Main Dispatch TagPath Shape Taxonomy Samples.
Import NormalizeFacts TagPathFacts SummarizerFacts.

Lemma in_group_named_set_status (g : string) (e : InboxEntry) (st : status) :
  in_group_named g (set_status e st) = in_group_named g e.
Proof. reflexivity. Qed.

(** X19: [delete_group] is a soft delete of exactly the group: afterwards
    no processed entry has the name as its first tag segment, so the group
    holds no idea any more; no row is removed (keys and contents are those
    of before, in order); an entry of another group, or one that was not
    processed, is left as it was; and deleting the group again changes no
    row. *)
Theorem delete_group_discards_exactly_the_group (g : string) (db : Db) :
  (forall e, In e (entries (delete_group g db)) ->
             e_status e = processed -> in_group_named g e = false)
  /\ map e_id (entries (delete_group g db)) = map e_id (entries db)
  /\ map e_content (entries (delete_group g db)) = map e_content (entries db)
  /\ (forall e, In e (entries db) ->
                is_processed e && in_group_named g e = false ->
                In e (entries (delete_group g db)))
  /\ entries (delete_group g (delete_group g db)) = entries (delete_group g db)
  /\ (g <> EmptyString ->
      forall sg, _get_group_ideas g sg (delete_group g db) = []).
Proof.
  assert (Hgone : forall e, In e (entries (delete_group g db)) ->
                    e_status e = processed -> in_group_named g e = false).
  { unfold delete_group. cbn [entries commit with_entries].
    intros e' Hin Hst. apply in_map_iff in Hin as (e & <- & Hin).
    destruct (is_processed e && in_group_named g e) eqn:E.
    - discriminate.
    - unfold is_processed in E. rewrite Hst in E. exact E. }
  split; [exact Hgone|].
  split.
  { unfold delete_group. cbn [entries commit with_entries].
    rewrite map_map. apply map_ext. intros e. now destruct (_ && _). }
  split.
  { unfold delete_group. cbn [entries commit with_entries].
    rewrite map_map. apply map_ext. intros e. now destruct (_ && _). }
  split.
  { intros e Hin Hc. unfold delete_group. cbn [entries commit with_entries].
    apply in_map_iff. exists e. now rewrite Hc. }
  split.
  { unfold delete_group at 1. cbn [entries commit with_entries].
    rewrite <- (map_id (entries (delete_group g db))) at 2.
    apply map_ext_in. intros e Hin.
    destruct (is_processed e && in_group_named g e) eqn:E; [|reflexivity].
    apply andb_true_iff in E as [Hp Hg].
    apply DeleteFacts.status_eqb_eq in Hp.
    rewrite (Hgone e Hin Hp) in Hg. discriminate. }
  intros Hne sg. rewrite get_group_ideas_eq.
  assert (filter (in_group g sg) (processed_entries (delete_group g db)) = [])
    as ->; [|reflexivity].
  unfold processed_entries.
  rewrite BulkDeleteFacts.filter_filter_and.
  apply BulkDeleteFacts.find_none_filter.
  intros e Hin.
  destruct (status_eqb (e_status e) processed) eqn:Hp; [|reflexivity].
  apply DeleteFacts.status_eqb_eq in Hp. specialize (Hgone e Hin Hp).
  unfold in_group. unfold in_group_named in Hgone. cbn [andb].
  destruct (AiBridge.tag_parts (e_tags e)) as [|p ps]; simpl.
  - destruct g; [congruence | reflexivity].
  - now rewrite Hgone.
Qed.

(** *** Segments of a stored tag path *)

Lemma comma_free_pieces (s : string) :
  Forall (fun p => comma_free p = true) (split_comma s).
Proof.
  induction s as [|c s IH]; simpl; [repeat constructor|].
  destruct (Ascii.eqb c ",") eqn:E; [constructor; [reflexivity | exact IH]|].
  destruct (split_comma s) as [|p ps]; [repeat constructor; simpl; now rewrite E|].
  inversion IH; subst. constructor; [|assumption].
  simpl. rewrite E. assumption.
Qed.

Lemma comma_free_lstrip (s : string) :
  comma_free s = true -> comma_free (lstrip s) = true.
Proof.
  induction s as [|c s IH]; simpl; [auto|]. intros H.
  destruct (isspace c); [|exact H].
  apply andb_true_iff in H as [_ H]. auto.
Qed.

Lemma comma_free_rstrip (s : string) :
  comma_free s = true -> comma_free (rstrip s) = true.
Proof.
  unfold rstrip. induction s as [|c s IH]; simpl; [auto|]. intros H.
  apply andb_true_iff in H as [Hc H]. specialize (IH H).
  destruct (rstrip_by isspace s); simpl in *.
  - destruct (isspace c); simpl; [reflexivity | now rewrite Hc].
  - now rewrite Hc, IH.
Qed.

Lemma strip_idem (s : string) : strip (strip s) = strip s.
Proof.
  destruct (strip_shape s) as [Hh Ht].
  unfold strip at 1. now rewrite (lstrip_id _ Hh).
Qed.

(** Every segment read from a tag path is non-empty, stripped and free of
    commas. *)
Lemma tag_parts_pieces (tags : option string) :
  Forall (fun p => truthy p = true /\ comma_free p = true /\ strip p = p)
         (AiBridge.tag_parts tags).
Proof.
  unfold AiBridge.tag_parts. apply Forall_forall. intros p Hp.
  apply filter_In in Hp as [Hin Ht]. apply in_map_iff in Hin as (x & <- & Hx).
  split; [exact Ht|]. split; [|apply strip_idem].
  pose proof (comma_free_pieces (or_empty tags)) as Hf.
  rewrite Forall_forall in Hf. specialize (Hf x Hx).
  unfold strip. now apply comma_free_rstrip, comma_free_lstrip.
Qed.

Lemma split_join (p : string) (ps : list string) :
  comma_free p = true ->
  Forall (fun q => comma_free q = true) ps ->
  split_comma (join_comma_space (p :: ps)) = p :: map (String " ") ps.
Proof.
  revert p; induction ps as [|q ps IH]; intros p Hp Hps.
  - simpl. now apply split_comma_free.
  - inversion Hps as [|? ? Hq Hps']; subst.
    change (join_comma_space (p :: q :: ps))
      with (p ++ String "," (String " " (join_comma_space (q :: ps)))).
    rewrite split_comma_app by exact Hp.
    cbn [split_comma]. change (Ascii.eqb " " ",") with false. cbn iota.
    now rewrite (IH q Hq Hps').
Qed.

Lemma map_strip_spaced (ps : list string) :
  Forall (fun p => truthy p = true /\ comma_free p = true /\ strip p = p) ps ->
  filter truthy (map strip (map (String " ") ps)) = ps.
Proof.
  induction 1 as [|p ps (Ht & _ & Hs) _ IH]; simpl; [reflexivity|].
  change (strip (String " " p)) with (strip p).
  now rewrite Hs, Ht, IH.
Qed.

(** Reading back a path that was joined again after its first segment was
    replaced. *)
Lemma tag_parts_renamed (new_name : string) (rest : list string) :
  comma_free new_name = true -> not_blank new_name = true ->
  Forall (fun p => truthy p = true /\ comma_free p = true /\ strip p = p)
         rest ->
  AiBridge.tag_parts (Some (join_comma_space (new_name :: rest)))
  = strip new_name :: rest.
Proof.
  intros Hc Hn Hr. unfold AiBridge.tag_parts. cbn [or_empty].
  rewrite split_join.
  - cbn [map filter]. unfold not_blank in Hn. rewrite Hn.
    now rewrite map_strip_spaced.
  - exact Hc.
  - eapply Forall_impl; [|exact Hr]. simpl. tauto.
Qed.

(** X20: [rename_group] moves every processed entry of the group to the
    new name and keeps the rest of its path: when the new name holds no
    comma and is not blank, the renamed row reads back as the stripped new
    name followed by the old remaining segments; rows outside the group
    (or not processed) are left as they were, and no row is added or
    removed. *)
Theorem rename_group_keeps_the_rest_of_the_path
        (g new_name : string) (db : Db) :
  comma_free new_name = true ->
  not_blank new_name = true ->
  (forall e rest,
      In e (entries db) -> e_status e = processed ->
      AiBridge.tag_parts (e_tags e) = g :: rest ->
      In (set_tags e (join_comma_space (new_name :: rest)))
         (entries (rename_group g new_name db))
      /\ AiBridge.tag_parts
           (e_tags (set_tags e (join_comma_space (new_name :: rest))))
         = strip new_name :: rest)
  /\ (forall e, In e (entries db) ->
                is_processed e && in_group_named g e = false ->
                In e (entries (rename_group g new_name db)))
  /\ map e_id (entries (rename_group g new_name db)) = map e_id (entries db)
  /\ map e_content (entries (rename_group g new_name db))
     = map e_content (entries db).
Proof.
  intros Hc Hn. split.
  { intros e rest Hin Hst Hparts. split.
    - unfold rename_group. cbn [entries commit with_entries].
      apply in_map_iff. exists e. split; [|exact Hin].
      unfold is_processed, in_group_named, renamed_group_tags.
      rewrite Hst, Hparts, String.eqb_refl. reflexivity.
    - cbn [e_tags set_tags]. apply tag_parts_renamed; try assumption.
      pose proof (tag_parts_pieces (e_tags e)) as Hp. rewrite Hparts in Hp.
      now inversion Hp. }
  split.
  { intros e Hin Hcnd. unfold rename_group. cbn [entries commit with_entries].
    apply in_map_iff. exists e. now rewrite Hcnd. }
  split; unfold rename_group; cbn [entries commit with_entries];
    rewrite map_map; apply map_ext; intros e; now destruct (_ && _).
Qed.

Lemma rename_group_keeps_the_rest_of_the_path_witness :
  (forall e rest,
      In e (entries db_with_due_reminder) -> e_status e = processed ->
      AiBridge.tag_parts (e_tags e) = "casa" :: rest ->
      In (set_tags e (join_comma_space ("hogar" :: rest)))
         (entries (rename_group "casa" "hogar" db_with_due_reminder))
      /\ AiBridge.tag_parts
           (e_tags (set_tags e (join_comma_space ("hogar" :: rest))))
         = strip "hogar" :: rest)
  /\ (forall e, In e (entries db_with_due_reminder) ->
                is_processed e && in_group_named "casa" e = false ->
                In e (entries (rename_group "casa" "hogar"
                                            db_with_due_reminder)))
  /\ map e_id (entries (rename_group "casa" "hogar" db_with_due_reminder))
     = map e_id (entries db_with_due_reminder)
  /\ map e_content (entries (rename_group "casa" "hogar"
                                          db_with_due_reminder))
     = map e_content (entries db_with_due_reminder).
Proof.
  apply (rename_group_keeps_the_rest_of_the_path
           "casa" "hogar" db_with_due_reminder); reflexivity.
Defined.

Example rename_group_rewrites_the_delimiter :
  map e_tags (entries (rename_group "casa" "hogar" db_with_due_reminder))
  = [Some "tareas"; Some "hogar, compras"].
Proof. reflexivity. Qed.

Lemma append_cancel (a x y : string) : a ++ x = a ++ y -> x = y.
Proof.
  induction a as [|c a IH]; simpl; [auto|]. intros H. inversion H. auto.
Qed.

(** X21: renaming a group hides its subgroup entries from the dedup
    guard.  [rename_group] joins the segments with a comma and a space,
    while the Add pipeline builds the tag path with a bare comma and the
    guard compares the two strings for equality: a renamed row that has a
    subgroup is never a dedup candidate for a result that names the new
    group and that subgroup, whatever the summaries are. *)
Theorem renamed_subgroup_rows_escape_the_dedup_guard
        (g new_name sub summary : string) (more : list string)
        (e : InboxEntry) (ai : AiResult) (note : NoteIn) :
  AiBridge.tag_parts (e_tags e) = g :: sub :: more ->
  or_empty (get (group ai)) = new_name ->
  or_empty (get (subgroup ai)) = sub ->
  e_tags (set_tags e (renamed_group_tags new_name e))
  = Some (new_name ++ ", " ++ join_comma_space (sub :: more))
  /\ add_tags ai note = new_name ++ "," ++ sub
  /\ dedup_candidate (add_tags ai note) summary
                     (set_tags e (renamed_group_tags new_name e)) = false.
Proof.
  intros Hparts Hg Hs.
  pose proof (tag_parts_pieces (e_tags e)) as Hp. rewrite Hparts in Hp.
  inversion Hp as [|? ? _ Hp']; subst. clear Hp.
  inversion Hp' as [|? ? (Ht & _ & Hst) _]; subst. clear Hp'.
  assert (Htags : add_tags ai note
                  = or_empty (get (group ai)) ++ ","
                    ++ or_empty (get (subgroup ai))).
  { unfold add_tags, AiBridge.ai_result_to_entry_fields. cbn [AiBridge.f_tags].
    now rewrite Ht. }
  assert (He : e_tags (set_tags e (renamed_group_tags
                                     (or_empty (get (group ai))) e))
               = Some (or_empty (get (group ai)) ++ ", "
                       ++ join_comma_space
                            (or_empty (get (subgroup ai)) :: more))).
  { cbn [e_tags set_tags]. unfold renamed_group_tags. now rewrite Hparts. }
  split; [exact He|]. split; [exact Htags|].
  unfold dedup_candidate. rewrite He, Htags. cbn [opt_eqb].
  assert ((or_empty (get (group ai)) ++ ", "
           ++ join_comma_space (or_empty (get (subgroup ai)) :: more)
           =? or_empty (get (group ai)) ++ "," ++ or_empty (get (subgroup ai)))
          %string = false) as ->.
  { apply String.eqb_neq. intros Heq. apply append_cancel in Heq.
    inversion Heq as [Hsub].
    destruct (strip_shape (or_empty (get (subgroup ai)))) as [Hh _].
    rewrite Hst, <- Hsub in Hh. discriminate Hh. }
  now rewrite andb_false_r.
Qed.

Lemma renamed_subgroup_rows_escape_the_dedup_guard_witness :
  e_tags (set_tags (stored 2 "comprar pan integral" "casa,compras" processed)
            (renamed_group_tags "hogar"
               (stored 2 "comprar pan integral" "casa,compras" processed)))
  = Some ("hogar" ++ ", " ++ join_comma_space ("compras" :: []))
  /\ add_tags ai_hogar_compras note_pan = "hogar" ++ "," ++ "compras"
  /\ dedup_candidate (add_tags ai_hogar_compras note_pan)
       "comprar pan integral"
       (set_tags (stored 2 "comprar pan integral" "casa,compras" processed)
          (renamed_group_tags "hogar"
             (stored 2 "comprar pan integral" "casa,compras" processed)))
     = false.
Proof.
  apply (renamed_subgroup_rows_escape_the_dedup_guard
           "casa" "hogar" "compras" "comprar pan integral" []
           (stored 2 "comprar pan integral" "casa,compras" processed)
           ai_hogar_compras note_pan); reflexivity.
Defined.

End TaxonomyFacts.

(** ** Deleting a reminder by hand *)

Module ReminderFacts.
Import PyStr DateTime Store World Main Scheduler Taxonomy Samples.
Import SchedulerFacts PollFacts.

Lemma remove_reminder_incl (r x : Reminder) (rs : list Reminder) :
  In x (remove_reminder r rs) -> In x rs.
Proof.
  induction rs as [|a rs IH]; simpl; [auto|].
  destruct (reminder_eq_dec r a); simpl; intuition.
Qed.

Lemma remove_reminder_other (r x : Reminder) (rs : list Reminder) :
  In x rs -> x <> r -> In x (remove_reminder r rs).
Proof.
  induction rs as [|a rs IH]; simpl; [auto|]. intros [->|Hin] Hne.
  - destruct (reminder_eq_dec r x); [congruence | now left].
  - destruct (reminder_eq_dec r a); [exact Hin | right; auto].
Qed.

Lemma remove_reminder_key_gone (r : Reminder) (rs : list Reminder) :
  NoDup (map r_id rs) -> In r rs ->
  forall x, In x (remove_reminder r rs) -> r_id x <> r_id r.
Proof.
  induction rs as [|a rs IH]; simpl; intros Hnd Hin x Hx; [contradiction|].
  inversion Hnd as [|? ? Hn Hd]; subst.
  destruct (reminder_eq_dec r a) as [->|Hne].
  - intros Heq. apply Hn. rewrite <- Heq. now apply in_map.
  - destruct Hin as [->|Hin]; [congruence|].
    destruct Hx as [<-|Hx]; [|now apply IH].
    intros Heq. apply Hn. rewrite Heq. now apply in_map.
Qed.

(** X22: deleting a reminder by key cascades to its entry and to
    nothing else.  An unknown key gives a 404.  For a known key, with
    primary keys distinct and entry keys starting at 1, the reminder is
    gone and every other reminder is kept; the linked entry, if the link
    is set and resolves, is gone and every other entry is kept; the
    change is one commit. *)
Theorem delete_reminder_cascades_to_its_entry (reminder_id : nat) (db : Db) :
  keys_ok db = true ->
  (find (fun r => r_id r =? reminder_id) (reminders db) = None ->
   delete_reminder reminder_id db = Raise (HTTPException 404) db)
  /\ (forall r,
         find (fun r => r_id r =? reminder_id) (reminders db) = Some r ->
         exists db1,
           delete_reminder reminder_id db = Ok db1
           /\ (forall x, In x (reminders db1) -> r_id x <> reminder_id)
           /\ (forall x, In x (reminders db) -> r_id x <> reminder_id ->
                         In x (reminders db1))
           /\ (forall i e, r_entry_id r = Some i ->
                           entry_by_id db i = Some e ->
                           entry_by_id db1 i = None)
           /\ (forall e, In e (entries db) ->
                         truthy_id (r_entry_id r) <> Some (e_id e) ->
                         In e (entries db1))
           /\ commits db1 = S (commits db)).
Proof.
  intros Hk. destruct (keys_ok_spec db Hk) as (Hr & He & Hz).
  split; [intros Hf; unfold delete_reminder; now rewrite Hf|].
  intros r Hf. unfold delete_reminder. rewrite Hf.
  eexists. split; [reflexivity|].
  pose proof (find_some _ _ Hf) as [Hin Hid]. apply Nat.eqb_eq in Hid.
  assert (Hrem :
             reminders (match truthy_id (r_entry_id r) with
                        | Some i => match entry_by_id db i with
                                    | Some entry => db_delete db entry
                                    | None => db
                                    end
                        | None => db
                        end) = reminders db).
  { destruct (truthy_id (r_entry_id r)) as [i|]; [|reflexivity].
    now destruct (entry_by_id db i). }
  cbn [reminders entries commits commit with_reminders]. rewrite Hrem.
  split.
  { intros x Hx. rewrite <- Hid.
    now apply (remove_reminder_key_gone r (reminders db)). }
  split.
  { intros x Hx Hne. apply remove_reminder_other; [exact Hx|].
    intros ->. congruence. }
  split.
  { intros i e Hi Hfind.
    assert (truthy_id (r_entry_id r) = Some i) as Ht.
    { rewrite Hi. apply find_some in Hfind as [Hine Hie].
      apply Nat.eqb_eq in Hie. specialize (Hz e Hine).
      destruct i; [congruence | reflexivity]. }
    rewrite Ht. unfold entry_by_id in *. rewrite Hfind.
    cbn [entries with_reminders commit db_delete with_entries].
    now apply find_remove_found. }
  split.
  { intros e Hin' Hne.
    destruct (truthy_id (r_entry_id r)) as [i|]; [|exact Hin'].
    destruct (entry_by_id db i) as [x|] eqn:F; [|exact Hin'].
    cbn [entries db_delete with_entries].
    apply in_remove_row_other; [exact Hin'|].
    apply find_some in F as [_ Hx]. apply Nat.eqb_eq in Hx.
    intros ->. congruence. }
  destruct (truthy_id (r_entry_id r)) as [i|]; [|reflexivity].
  now destruct (entry_by_id db i).
Qed.

Lemma delete_reminder_cascades_to_its_entry_witness :
  (find (fun r => r_id r =? 1) (reminders db_with_due_reminder) = None ->
   delete_reminder 1 db_with_due_reminder
   = Raise (HTTPException 404) db_with_due_reminder)
  /\ (forall r,
         find (fun r => r_id r =? 1) (reminders db_with_due_reminder)
         = Some r ->
         exists db1,
           delete_reminder 1 db_with_due_reminder = Ok db1
           /\ (forall x, In x (reminders db1) -> r_id x <> 1)
           /\ (forall x, In x (reminders db_with_due_reminder) ->
                         r_id x <> 1 -> In x (reminders db1))
           /\ (forall i e, r_entry_id r = Some i ->
                           entry_by_id db_with_due_reminder i = Some e ->
                           entry_by_id db1 i = None)
           /\ (forall e, In e (entries db_with_due_reminder) ->
                         truthy_id (r_entry_id r) <> Some (e_id e) ->
                         In e (entries db1))
           /\ commits db1 = S (commits db_with_due_reminder)).
Proof.
  apply (delete_reminder_cascades_to_its_entry 1 db_with_due_reminder).
  reflexivity.
Defined.

Example delete_reminder_removes_row_and_entry :
  delete_reminder 1 db_with_due_reminder
  = Ok (mkDb [stored 2 "comprar pan integral" "casa,compras" processed]
             [mkReminder 2 "pagar el alquiler" monday_8h true None]
             [] 3 3 1)
  /\ delete_reminder 7 db_with_due_reminder
     = Raise (HTTPException 404) db_with_due_reminder.
Proof. split; reflexivity. Qed.

End ReminderFacts.

(** ** The taxonomy snapshot *)

Module SnapshotFacts.
Import PyStr DateTime Store AiBridge Snapshot Samples.

Lemma add_idea_incl (i x : string) (l : list string) :
  In x l -> In x (add_idea i l).
Proof.
  unfold add_idea. destruct (_ && _); [|auto].
  intros H. apply in_or_app. now left.
Qed.

Lemma add_idea_in (i : string) (l : list string) :
  truthy i = true -> In i (add_idea i l).
Proof.
  intros Ht. unfold add_idea. rewrite Ht. cbn [andb].
  destruct (existsb (String.eqb i) l) eqn:E; cbn [negb].
  - apply existsb_exists in E as (x & Hx & He).
    apply String.eqb_eq in He. now subst.
  - apply in_or_app. right. now left.
Qed.

Lemma add_idea_ok (i : string) (l : list string) :
  ideas_ok l -> ideas_ok (add_idea i l).
Proof.
  unfold ideas_ok, add_idea. intros [Hn He].
  destruct (truthy i) eqn:Ht; [|now split].
  destruct (existsb (String.eqb i) l) eqn:E; [now split|]. cbn [andb negb].
  assert (Hni : ~ In i l).
  { intros Hin.
    assert (existsb (String.eqb i) l = true)
      by (apply existsb_exists; exists i; split;
          [exact Hin | apply String.eqb_refl]).
    congruence. }
  split.
  - apply NoDup_app; [exact Hn | repeat constructor; simpl; tauto |].
    intros x Hx [<-|[]]. contradiction.
  - intros Hin. apply in_app_or in Hin as [Hin|[Heq|[]]]; [contradiction|].
    rewrite Heq in Ht. discriminate.
Qed.

Lemma ideas_ok_nil : ideas_ok [].
Proof. split; [constructor | simpl; tauto]. Qed.

Lemma add_to_subgroup_names (n i : string) (sgs : list SubgroupNode) :
  map sg_name (add_to_subgroup n i sgs) = map sg_name sgs
  \/ (~ In n (map sg_name sgs)
      /\ map sg_name (add_to_subgroup n i sgs) = (map sg_name sgs ++ [n])%list).
Proof.
  induction sgs as [|s rest IH]; simpl.
  - right. split; [tauto | reflexivity].
  - destruct (String.eqb (sg_name s) n) eqn:E; [now left|].
    apply String.eqb_neq in E. simpl.
    destruct IH as [->|[Hn ->]]; [now left|].
    right. split; [|reflexivity]. intros [H|H]; contradiction.
Qed.

Lemma add_to_subgroup_ok (n i : string) (sgs : list SubgroupNode) :
  NoDup (map sg_name sgs) ->
  Forall (fun s => ideas_ok (sg_ideas s)) sgs ->
  NoDup (map sg_name (add_to_subgroup n i sgs))
  /\ Forall (fun s => ideas_ok (sg_ideas s)) (add_to_subgroup n i sgs).
Proof.
  intros Hn Hf. split.
  - destruct (add_to_subgroup_names n i sgs) as [->|[Hni ->]]; [exact Hn|].
    apply NoDup_app; [exact Hn | repeat constructor; simpl; tauto |].
    intros x Hx [<-|[]]. contradiction.
  - clear Hn. induction Hf as [|s rest Hs Hrest IH]; simpl.
    + repeat constructor; apply add_idea_ok, ideas_ok_nil.
    + destruct (String.eqb (sg_name s) n).
      * constructor; [simpl; now apply add_idea_ok | exact Hrest].
      * constructor; assumption.
Qed.

Lemma add_to_group_ok (sub : option string) (i : string) (g : GroupNode) :
  group_ok g -> group_ok (add_to_group sub i g).
Proof.
  unfold group_ok, add_to_group. intros (Hi & Hn & Hf).
  destruct (nonempty sub) as [s|]; simpl.
  - destruct (add_to_subgroup_ok s i _ Hn Hf). auto.
  - split; [now apply add_idea_ok | auto].
Qed.

Lemma add_to_group_name (sub : option string) (i : string) (g : GroupNode) :
  g_name (add_to_group sub i g) = g_name g.
Proof. unfold add_to_group. now destruct (nonempty sub). Qed.

Lemma add_to_groups_names (n i : string) (sub : option string)
      (gs : list GroupNode) :
  map g_name (add_to_groups n sub i gs) = map g_name gs
  \/ (~ In n (map g_name gs)
      /\ map g_name (add_to_groups n sub i gs) = (map g_name gs ++ [n])%list).
Proof.
  induction gs as [|g rest IH]; simpl.
  - right. rewrite add_to_group_name. split; [tauto | reflexivity].
  - destruct (String.eqb (g_name g) n) eqn:E.
    + left. simpl. now rewrite add_to_group_name.
    + apply String.eqb_neq in E. simpl.
      destruct IH as [->|[Hn ->]]; [now left|].
      right. split; [|reflexivity]. intros [H|H]; contradiction.
Qed.

Lemma add_to_groups_ok (n i : string) (sub : option string)
      (gs : list GroupNode) :
  snapshot_ok gs -> snapshot_ok (add_to_groups n sub i gs).
Proof.
  unfold snapshot_ok. intros [Hn Hf]. split.
  - destruct (add_to_groups_names n i sub gs) as [->|[Hni ->]]; [exact Hn|].
    apply NoDup_app; [exact Hn | repeat constructor; simpl; tauto |].
    intros x Hx [<-|[]]. contradiction.
  - clear Hn. induction Hf as [|g rest Hg Hrest IH]; simpl.
    + repeat constructor; apply add_to_group_ok; unfold group_ok; simpl;
        repeat split; try constructor; simpl; tauto.
    + destruct (String.eqb (g_name g) n).
      * constructor; [now apply add_to_group_ok | exact Hrest].
      * constructor; assumption.
Qed.

Lemma snapshot_fold_ok (l : list InboxEntry) :
  forall gs, snapshot_ok gs -> snapshot_ok (fold_left snapshot_step l gs).
Proof.
  induction l as [|e l IH]; intros gs H; simpl; [exact H|].
  apply IH. unfold snapshot_step.
  destruct (tag_parts (e_tags e)); [exact H | now apply add_to_groups_ok].
Qed.

(** X23: the taxonomy snapshot sent to the classifier holds no
    repetition, whatever the store contains: every group appears once, and
    within a group no idea and no subgroup appears twice, nor does an idea
    within a subgroup; the empty text is never listed as an idea. *)
Theorem snapshot_has_no_repetition (db : Db) :
  snapshot_ok (_build_existing_groups db).
Proof.
  unfold _build_existing_groups. apply snapshot_fold_ok.
  split; constructor.
Qed.

(** *** Nothing is lost on the way *)

Lemma add_to_subgroup_listed (n i : string) (sgs : list SubgroupNode) :
  truthy i = true ->
  exists sg, In sg (add_to_subgroup n i sgs)
             /\ sg_name sg = n /\ In i (sg_ideas sg).
Proof.
  intros Ht. induction sgs as [|s rest IH]; simpl.
  - eexists. split; [now left|]. split; [reflexivity|]. now apply add_idea_in.
  - destruct (String.eqb (sg_name s) n) eqn:E.
    + apply String.eqb_eq in E. eexists. split; [now left|].
      split; [exact E|]. now apply add_idea_in.
    + destruct IH as (sg & Hin & Hn & Hi). exists sg. split; [now right|auto].
Qed.

Lemma add_to_subgroup_mono (n i : string) (sgs : list SubgroupNode)
      (sg : SubgroupNode) :
  In sg sgs ->
  exists sg', In sg' (add_to_subgroup n i sgs)
              /\ sg_name sg' = sg_name sg
              /\ incl (sg_ideas sg) (sg_ideas sg').
Proof.
  induction sgs as [|s rest IH]; simpl; [contradiction|].
  intros [->|Hin].
  - destruct (String.eqb (sg_name sg) n).
    + eexists. split; [now left|]. split; [reflexivity|].
      intros x Hx. now apply add_idea_incl.
    + exists sg. split; [now left|]. split; [reflexivity | apply incl_refl].
  - destruct (String.eqb (sg_name s) n).
    + exists sg. split; [now right|]. split; [reflexivity | apply incl_refl].
    + destruct (IH Hin) as (sg' & H1 & H2 & H3).
      exists sg'. split; [now right | auto].
Qed.

Lemma grows_refl (g : GroupNode) : grows g g.
Proof.
  split; [reflexivity|]. split; [apply incl_refl|].
  intros sg H. exists sg. split; [exact H|].
  split; [reflexivity | apply incl_refl].
Qed.

Lemma grows_trans (a b c : GroupNode) : grows a b -> grows b c -> grows a c.
Proof.
  intros (H1 & H2 & H3) (K1 & K2 & K3). split; [congruence|].
  split; [eapply incl_tran; eauto|].
  intros sg Hsg. destruct (H3 sg Hsg) as (sg' & Hin' & Hn' & Hi').
  destruct (K3 sg' Hin') as (sg'' & Hin'' & Hn'' & Hi'').
  exists sg''. split; [exact Hin''|]. split; [congruence|].
  eapply incl_tran; eauto.
Qed.

Lemma add_to_group_grows (sub : option string) (i : string) (g : GroupNode) :
  grows g (add_to_group sub i g).
Proof.
  unfold grows, add_to_group. destruct (nonempty sub) as [s|]; simpl.
  - split; [reflexivity|]. split; [apply incl_refl|].
    intros sg. apply add_to_subgroup_mono.
  - split; [reflexivity|]. split; [intros x; apply add_idea_incl|].
    intros sg H. exists sg. split; [exact H|].
    split; [reflexivity | apply incl_refl].
Qed.

Lemma add_to_groups_grows (n i : string) (sub : option string)
      (gs : list GroupNode) (g : GroupNode) :
  In g gs ->
  exists g', In g' (add_to_groups n sub i gs) /\ grows g g'.
Proof.
  induction gs as [|a rest IH]; simpl; [contradiction|].
  intros [->|Hin].
  - destruct (String.eqb (g_name g) n).
    + eexists. split; [now left | apply add_to_group_grows].
    + exists g. split; [now left | apply grows_refl].
  - destruct (String.eqb (g_name a) n).
    + exists g. split; [now right | apply grows_refl].
    + destruct (IH Hin) as (g' & H1 & H2). exists g'. split; [now right|auto].
Qed.

Lemma add_to_group_listed (sub : option string) (i : string) (g : GroupNode) :
  truthy i = true ->
  match nonempty sub with
  | None => In i (g_ideas (add_to_group sub i g))
  | Some s => exists sg, In sg (g_subgroups (add_to_group sub i g))
                         /\ sg_name sg = s /\ In i (sg_ideas sg)
  end.
Proof.
  intros Ht. unfold add_to_group. destruct (nonempty sub) as [s|]; simpl.
  - now apply add_to_subgroup_listed.
  - now apply add_idea_in.
Qed.

Lemma add_to_groups_present (n i : string) (sub : option string)
      (gs : list GroupNode) :
  exists g, In g (add_to_groups n sub i gs) /\ g_name g = n
            /\ (truthy i = true ->
                match nonempty sub with
                | None => In i (g_ideas g)
                | Some s => exists sg, In sg (g_subgroups g)
                                       /\ sg_name sg = s
                                       /\ In i (sg_ideas sg)
                end).
Proof.
  induction gs as [|a rest IH]; simpl.
  - eexists. split; [now left|]. split; [apply add_to_group_name|].
    intros Ht. now apply add_to_group_listed.
  - destruct (String.eqb (g_name a) n) eqn:E.
    + apply String.eqb_eq in E. eexists. split; [now left|].
      split; [now rewrite add_to_group_name|].
      intros Ht. now apply add_to_group_listed.
    + destruct IH as (g & Hin & Hn & Hl). exists g. split; [now right|auto].
Qed.

Lemma snapshot_step_grows (gs : list GroupNode) (e : InboxEntry)
      (g : GroupNode) :
  In g gs -> exists g', In g' (snapshot_step gs e) /\ grows g g'.
Proof.
  intros Hin. unfold snapshot_step.
  destruct (tag_parts (e_tags e)).
  - exists g. split; [exact Hin | apply grows_refl].
  - now apply add_to_groups_grows.
Qed.

Lemma snapshot_fold_grows (l : list InboxEntry) :
  forall gs g, In g gs ->
  exists g', In g' (fold_left snapshot_step l gs) /\ grows g g'.
Proof.
  induction l as [|e l IH]; intros gs g Hin; simpl.
  - exists g. split; [exact Hin | apply grows_refl].
  - destruct (snapshot_step_grows gs e g Hin) as (g1 & H1 & G1).
    destruct (IH _ g1 H1) as (g2 & H2 & G2).
    exists g2. split; [exact H2 | eapply grows_trans; eauto].
Qed.

Lemma snapshot_fold_covers (l : list InboxEntry) :
  forall gs e name rest,
    In e l -> tag_parts (e_tags e) = name :: rest ->
    exists g,
      In g (fold_left snapshot_step l gs) /\ g_name g = name
      /\ (truthy (entry_idea_text e) = true ->
          match nonempty (second_part (tag_parts (e_tags e))) with
          | None => In (entry_idea_text e) (g_ideas g)
          | Some s => exists sg, In sg (g_subgroups g)
                                 /\ sg_name sg = s
                                 /\ In (entry_idea_text e) (sg_ideas sg)
          end).
Proof.
  induction l as [|a l IH]; intros gs e name rest Hin Hp; [contradiction|].
  destruct Hin as [->|Hin]; [|now apply (IH _ e name rest)].
  cbn [fold_left].
  destruct (add_to_groups_present name (entry_idea_text e)
              (second_part (tag_parts (e_tags e))) gs)
    as (g & Hg & Hn & Hl).
  assert (Hstep : snapshot_step gs e
                  = add_to_groups name (second_part (tag_parts (e_tags e)))
                                  (entry_idea_text e) gs).
  { unfold snapshot_step. now rewrite Hp. }
  rewrite <- Hstep in Hg.
  destruct (snapshot_fold_grows l _ g Hg) as (g' & Hg' & (G1 & G2 & G3)).
  exists g'. split; [exact Hg'|]. split; [congruence|].
  intros Ht. specialize (Hl Ht).
  destruct (nonempty (second_part (tag_parts (e_tags e)))) as [s|].
  - destruct Hl as (sg & Hsg & Hsn & Hsi).
    destruct (G3 sg Hsg) as (sg' & Hsg' & Hsn' & Hsi').
    exists sg'. split; [exact Hsg'|]. split; [congruence | now apply Hsi'].
  - now apply G2.
Qed.

Lemma snapshot_fold_names (l : list InboxEntry) :
  forall gs n,
    In n (map g_name (fold_left snapshot_step l gs)) ->
    In n (map g_name gs)
    \/ exists e rest, In e l /\ tag_parts (e_tags e) = n :: rest.
Proof.
  induction l as [|a l IH]; intros gs n Hin; simpl in *; [now left|].
  destruct (IH _ n Hin) as [H|(e & rest & He & Hp)].
  - unfold snapshot_step in H.
    destruct (tag_parts (e_tags a)) as [|p ps] eqn:Ea; [now left|].
    destruct (add_to_groups_names p (entry_idea_text a)
                (second_part (p :: ps)) gs) as [Hs|[_ Hs]];
      rewrite Hs in H; [now left|].
    apply in_app_or in H as [H|[<-|[]]]; [now left|].
    right. exists a, ps. split; [now left | exact Ea].
  - right. exists e, rest. split; [now right | exact Hp].
Qed.

(** X24: the snapshot covers the processed store and nothing else.
    Every processed entry whose tag path has a first segment finds its
    group in the snapshot, and its idea (the summary, or else the content)
    is listed there: under the subgroup when the path has a second
    segment, and directly under the group otherwise.  Conversely every
    group of the snapshot is the first tag segment of some processed
    entry. *)
Theorem snapshot_covers_the_processed_entries (db : Db) :
  (forall e name rest,
      In e (entries db) -> e_status e = processed ->
      tag_parts (e_tags e) = name :: rest ->
      (exists g, In g (_build_existing_groups db) /\ g_name g = name)
      /\ (entry_idea_text e <> EmptyString ->
          listed (_build_existing_groups db) name
                 (second_part (tag_parts (e_tags e))) (entry_idea_text e)))
  /\ (forall g, In g (_build_existing_groups db) ->
                exists e rest,
                  In e (entries db) /\ e_status e = processed
                  /\ tag_parts (e_tags e) = g_name g :: rest).
Proof.
  split.
  - intros e name rest Hin Hst Hp.
    assert (Hf : In e (filter (fun e => status_eqb (e_status e) processed
                                        && has_tags e) (entries db))).
    { apply filter_In. split; [exact Hin|]. rewrite Hst. cbn [status_eqb andb].
      unfold has_tags. destruct (e_tags e); [reflexivity|].
      vm_compute in Hp. discriminate. }
    destruct (snapshot_fold_covers _ [] e name rest Hf Hp)
      as (g & Hg & Hn & Hl).
    split; [exists g; now split|].
    intros Hne. exists g. split; [exact Hg|]. split; [exact Hn|].
    apply Hl. now destruct (entry_idea_text e).
  - intros g Hg.
    destruct (snapshot_fold_names _ [] (g_name g) (in_map g_name _ _ Hg))
      as [[]|(e & rest & He & Hp)].
    apply filter_In in He as [He Hc]. apply andb_true_iff in Hc as [Hc _].
    apply DeleteFacts.status_eqb_eq in Hc.
    exists e, rest. auto.
Qed.

Example snapshot_of_sample_store :
  _build_existing_groups db_with_due_reminder
  = [mkGroup "tareas" ["llamar al banco"] [];
     mkGroup "casa" [] [mkSub "compras" ["comprar pan integral"]]].
Proof. reflexivity. Qed.

End SnapshotFacts.

(** ** Document import: chunks and duplicates *)

Module DocumentFacts.
Import PyStr AiService.

Lemma take_drop (n : nat) (s : string) : Re.take n s ++ drop n s = s.
Proof.
  revert s; induction n as [|n IH]; intros s; [now destruct s|].
  destruct s as [|c s]; simpl; [reflexivity | now rewrite IH].
Qed.

Lemma take_take (n m : nat) (s : string) :
  n <= m -> Re.take n (Re.take m s) = Re.take n s.
Proof.
  revert m s; induction n as [|n IH]; intros m s H; [now destruct (Re.take m s), s|].
  destruct m as [|m]; [lia|]. destruct s as [|c s]; simpl; [reflexivity|].
  rewrite IH by lia. reflexivity.
Qed.

Lemma length_take (n : nat) (s : string) :
  String.length (Re.take n s) = Nat.min n (String.length s).
Proof.
  revert s; induction n as [|n IH]; intros s; [now destruct s|].
  destruct s as [|c s]; simpl; [reflexivity | now rewrite IH].
Qed.

Lemma length_drop (n : nat) (s : string) :
  String.length (drop n s) = String.length s - n.
Proof.
  revert s; induction n as [|n IH]; intros s; [destruct s; simpl; lia|].
  destruct s as [|c s]; simpl; [reflexivity | apply IH].
Qed.

Lemma chunk_loop_spec (size step : nat) :
  1 <= step -> step <= size ->
  forall fuel rest,
    String.length rest <= fuel ->
    concat_strings (map (Re.take step) (chunk_loop fuel size step rest)) = rest
    /\ Forall (fun c => 1 <= String.length c <= size)
              (chunk_loop fuel size step rest)
    /\ (forall c, In c (chunk_loop fuel size step rest) ->
                  exists pre post, rest = pre ++ c ++ post).
Proof.
  intros H1 H2. induction fuel as [|fuel IH]; intros rest Hl.
  - destruct rest; [|simpl in Hl; lia]. simpl. repeat split; auto.
    intros c [].
  - destruct rest as [|c rest]; [simpl; repeat split; auto; intros ? []|].
    cbn [chunk_loop map concat_strings].
    assert (Hs : String.length (String c rest) = S (String.length rest))
      by reflexivity.
    remember (String c rest) as s eqn:Es. clear Es.
    assert (Hd : String.length (drop step s) <= fuel).
    { rewrite length_drop. lia. }
    destruct (IH (drop step s) Hd) as (Hc & Hf & Hi).
    split; [rewrite Hc, take_take by lia; apply take_drop|].
    split.
    + constructor; [|exact Hf]. rewrite length_take. lia.
    + intros x [<-|Hx].
      * exists "", (drop size s).
        change ("" ++ Re.take size s ++ drop size s)
          with (Re.take size s ++ drop size s).
        symmetry. apply take_drop.
      * destruct (Hi x Hx) as (pre & post & Hpp).
        exists (Re.take step s ++ pre), post.
        rewrite PyStrFacts.append_assoc, <- Hpp. symmetry. apply take_drop.
Qed.

Lemma take_all (n : nat) (s : string) :
  String.length s <= n -> Re.take n s = s.
Proof.
  revert s; induction n as [|n IH]; intros s H.
  - destruct s; [reflexivity | simpl in H; lia].
  - destruct s as [|c s]; simpl in *; [reflexivity|]. rewrite IH; [reflexivity | lia].
Qed.

Lemma drop_all (n : nat) (s : string) :
  String.length s <= n -> drop n s = EmptyString.
Proof.
  revert s; induction n as [|n IH]; intros s H.
  - destruct s; [reflexivity | simpl in H; lia].
  - destruct s as [|c s]; simpl in *; [reflexivity|]. apply IH. lia.
Qed.

Lemma chunk_loop_nonempty (fuel size step : nat) (s : string) :
  s <> EmptyString ->
  chunk_loop (S fuel) size step s
  = Re.take size s :: chunk_loop fuel size step (drop step s).
Proof. destruct s; [congruence | reflexivity]. Qed.

Lemma chunk_step_bounds :
  1 <= CHUNK_SIZE - OVERLAP /\ CHUNK_SIZE - OVERLAP <= CHUNK_SIZE.
Proof. unfold CHUNK_SIZE, OVERLAP. lia. Qed.

(** X25: the chunks of a document lose nothing and are bounded: each
    chunk is a non-empty piece of the text of at most [CHUNK_SIZE]
    characters, and the text is restored by keeping of every chunk the
    part before the overlap ([CHUNK_SIZE - OVERLAP] characters) and
    concatenating.  The empty text gives no chunk, and a text that fits
    before the overlap gives itself as the only chunk. *)
Theorem chunks_cover_the_text (text : string) :
  concat_strings (map (Re.take (CHUNK_SIZE - OVERLAP)) (chunks text)) = text
  /\ Forall (fun c => 1 <= String.length c <= CHUNK_SIZE) (chunks text)
  /\ (forall c, In c (chunks text) -> exists pre post, text = pre ++ c ++ post)
  /\ (text = EmptyString -> chunks text = [])
  /\ (text <> EmptyString -> String.length text <= CHUNK_SIZE - OVERLAP ->
      chunks text = [text]).
Proof.
  destruct chunk_step_bounds as [H1 H2].
  destruct (chunk_loop_spec CHUNK_SIZE (CHUNK_SIZE - OVERLAP) H1 H2
              (String.length text) text (le_n _)) as (Hc & Hf & Hi).
  split; [exact Hc|]. split; [exact Hf|]. split; [exact Hi|].
  split; [intros ->; reflexivity|].
  intros Hne Hlen. unfold chunks.
  destruct (String.length text) as [|n] eqn:El.
  { destruct text; [congruence | discriminate]. }
  rewrite chunk_loop_nonempty by exact Hne.
  rewrite take_all by (rewrite El; lia).
  rewrite drop_all by (rewrite El; exact Hlen).
  now destruct n.
Qed.

(** *** Duplicated ideas *)

Lemma fold_keep_first (l : list Extracted) :
  forall seen unique,
    snd (fold_left keep_first l (seen, unique))
    = (unique ++ unseen seen l)%list.
Proof.
  induction l as [|r l IH]; intros seen unique; simpl.
  - now rewrite app_nil_r.
  - destruct (existsb (String.eqb (idea_key r)) seen); rewrite IH;
      [reflexivity | now rewrite <- app_assoc].
Qed.

Lemma seen_spec (k : string) (seen : list string) :
  existsb (String.eqb k) seen = true <-> In k seen.
Proof.
  rewrite existsb_exists. split.
  - intros (x & Hx & He). apply String.eqb_eq in He. now subst.
  - intros H. exists k. split; [exact H | apply String.eqb_refl].
Qed.

Lemma unseen_props (l : list Extracted) :
  forall seen,
    NoDup (map idea_key (unseen seen l))
    /\ (forall u, In u (unseen seen l) -> ~ In (idea_key u) seen /\ In u l)
    /\ (forall r, In r l ->
                  In (idea_key r) seen
                  \/ exists u, In u (unseen seen l)
                               /\ idea_key u = idea_key r).
Proof.
  induction l as [|r l IH]; intros seen; simpl.
  - split; [constructor|]. split; intros ? [].
  - destruct (existsb (String.eqb (idea_key r)) seen) eqn:E.
    + apply seen_spec in E. destruct (IH seen) as (Hn & Hu & Hr).
      split; [exact Hn|]. split.
      * intros u Hin. destruct (Hu u Hin). auto.
      * intros x [<-|Hx]; [now left | now apply Hr].
    + assert (Hns : ~ In (idea_key r) seen).
      { intros H. apply seen_spec in H. congruence. }
      destruct (IH (idea_key r :: seen)) as (Hn & Hu & Hr).
      split.
      * simpl. constructor; [|exact Hn].
        intros Hin. apply in_map_iff in Hin as (u & Hk & Hin).
        destruct (Hu u Hin) as [Hnot _]. apply Hnot. left. now symmetry.
      * split.
        -- intros u [<-|Hin]; [auto|].
           destruct (Hu u Hin) as [Hnot Hl]. split; [|auto].
           intros H. apply Hnot. now right.
        -- intros x [<-|Hx].
           ++ right. exists r. split; [now left | reflexivity].
           ++ destruct (Hr x Hx) as [[Heq|Hs]|(u & Hin & Hk)].
              ** right. exists r. split; [now left | exact Heq].
              ** now left.
              ** right. exists u. split; [now right | exact Hk].
Qed.

Lemma unseen_fixed (l : list Extracted) :
  forall seen,
    NoDup (map idea_key l) ->
    (forall r, In r l -> ~ In (idea_key r) seen) ->
    unseen seen l = l.
Proof.
  induction l as [|r l IH]; intros seen Hn Hs; simpl; [reflexivity|].
  inversion Hn as [|? ? Hnr Hnl]; subst.
  destruct (existsb (String.eqb (idea_key r)) seen) eqn:E.
  - apply seen_spec in E. now elim (Hs r (or_introl eq_refl)).
  - f_equal. apply IH; [exact Hnl|].
    intros x Hx [Heq|Hin].
    + apply Hnr. rewrite Heq. now apply in_map.
    + apply (Hs x); [now right | exact Hin].
Qed.

(** X26: the deduplication of extracted ideas keeps one result per idea
    text, case ignored: no two kept results have the same lower-cased
    idea, every kept result is one of the results, every result has the
    same lower-cased idea as a kept one, the first result is always
    kept, and deduplicating again changes nothing. *)
Theorem deduplicate_keeps_one_per_idea (results : list Extracted) :
  NoDup (map idea_key (deduplicate results))
  /\ (forall u, In u (deduplicate results) -> In u results)
  /\ (forall r, In r results ->
                exists u, In u (deduplicate results)
                          /\ idea_key u = idea_key r)
  /\ (forall r rest, results = r :: rest ->
                     exists kept, deduplicate results = r :: kept)
  /\ deduplicate (deduplicate results) = deduplicate results.
Proof.
  unfold deduplicate. rewrite !fold_keep_first. cbn [app].
  destruct (unseen_props results []) as (Hn & Hu & Hr).
  split; [exact Hn|]. split; [intros u Hin; now apply Hu|]. split.
  { intros r Hin. destruct (Hr r Hin) as [[]|H]. exact H. }
  split.
  { intros r rest ->. simpl. eauto. }
  apply unseen_fixed; [exact Hn | intros ? _ []].
Qed.

End DocumentFacts.

(** ** Subgroups and single entries *)

Module SubgroupFacts.
Import PyStr DateTime Store World Main Dispatch TagPath Shape Taxonomy Samples.
Import NormalizeFacts TagPathFacts SummarizerFacts TaxonomyFacts.

(** X27: [delete_subgroup] is a soft delete of exactly the subgroup:
    afterwards no processed entry has the two names as its first and
    second tag segments, so the pair holds no idea any more; no row is
    removed; and every entry outside the subgroup, the entries filed
    directly under the group included, is left as it was. *)
Theorem delete_subgroup_discards_exactly_the_subgroup
        (g sg : string) (db : Db) :
  (forall e, In e (entries (delete_subgroup g sg db)) ->
             e_status e = processed -> in_subgroup_named g sg e = false)
  /\ map e_id (entries (delete_subgroup g sg db)) = map e_id (entries db)
  /\ map e_content (entries (delete_subgroup g sg db))
     = map e_content (entries db)
  /\ (forall e, In e (entries db) ->
                is_processed e && in_subgroup_named g sg e = false ->
                In e (entries (delete_subgroup g sg db)))
  /\ _get_group_ideas g (Some sg) (delete_subgroup g sg db) = [].
Proof.
  assert (Hgone : forall e, In e (entries (delete_subgroup g sg db)) ->
                    e_status e = processed -> in_subgroup_named g sg e = false).
  { unfold delete_subgroup. cbn [entries commit with_entries].
    intros e' Hin Hst. apply in_map_iff in Hin as (e & <- & Hin).
    destruct (is_processed e && in_subgroup_named g sg e) eqn:E.
    - discriminate.
    - unfold is_processed in E. rewrite Hst in E. exact E. }
  split; [exact Hgone|].
  split.
  { unfold delete_subgroup. cbn [entries commit with_entries].
    rewrite map_map. apply map_ext. intros e. now destruct (_ && _). }
  split.
  { unfold delete_subgroup. cbn [entries commit with_entries].
    rewrite map_map. apply map_ext. intros e. now destruct (_ && _). }
  split.
  { intros e Hin Hc. unfold delete_subgroup.
    cbn [entries commit with_entries].
    apply in_map_iff. exists e. now rewrite Hc. }
  rewrite get_group_ideas_eq.
  assert (filter (in_group g (Some sg))
                 (processed_entries (delete_subgroup g sg db)) = [])
    as ->; [|reflexivity].
  unfold processed_entries.
  rewrite BulkDeleteFacts.filter_filter_and.
  apply BulkDeleteFacts.find_none_filter.
  intros e Hin.
  destruct (status_eqb (e_status e) processed) eqn:Hp; [|reflexivity].
  apply DeleteFacts.status_eqb_eq in Hp. specialize (Hgone e Hin Hp).
  unfold in_group. unfold in_subgroup_named in Hgone. cbn [andb].
  destruct (AiBridge.tag_parts (e_tags e)) as [|p [|q ps]]; simpl.
  - now rewrite andb_false_r.
  - now rewrite andb_false_r.
  - destruct (String.eqb p g); [|reflexivity]. simpl in *. now rewrite Hgone.
Qed.

Lemma strip_of_piece (p : string) :
  truthy p = true /\ comma_free p = true /\ strip p = p ->
  comma_free p = true /\ not_blank p = true.
Proof.
  intros (Ht & Hc & Hs). split; [exact Hc|]. unfold not_blank. now rewrite Hs.
Qed.

Lemma tag_parts_joined (p : string) (ps : list string) :
  Forall (fun q => comma_free q = true /\ not_blank q = true) (p :: ps) ->
  AiBridge.tag_parts (Some (join_comma_space (p :: ps))) = map strip (p :: ps).
Proof.
  intros H. inversion H as [|? ? [Hc Hn] Hps]; subst.
  unfold AiBridge.tag_parts. cbn [or_empty].
  rewrite split_join;
    [|exact Hc | eapply Forall_impl; [|exact Hps]; simpl; tauto].
  cbn [map filter]. unfold not_blank in Hn. rewrite Hn. f_equal.
  clear H Hc Hn. induction Hps as [|q qs [_ Hq] _ IH]; simpl; [reflexivity|].
  change (strip (String " " q)) with (strip q).
  unfold not_blank in Hq. now rewrite Hq, IH.
Qed.

(** X28: [rename_subgroup] keeps the group and the rest of the path:
    when the new name holds no comma and is not blank, a processed entry
    of the subgroup reads back as its group, the stripped new name and
    its old further segments; rows outside the subgroup are left as they
    were, and no row is added or removed. *)
Theorem rename_subgroup_keeps_the_group
        (g sg new_name : string) (db : Db) :
  comma_free new_name = true ->
  not_blank new_name = true ->
  (forall e rest,
      In e (entries db) -> e_status e = processed ->
      AiBridge.tag_parts (e_tags e) = g :: sg :: rest ->
      In (set_tags e (join_comma_space (g :: new_name :: rest)))
         (entries (rename_subgroup g sg new_name db))
      /\ AiBridge.tag_parts
           (e_tags (set_tags e (join_comma_space (g :: new_name :: rest))))
         = g :: strip new_name :: rest)
  /\ (forall e, In e (entries db) ->
                is_processed e && in_subgroup_named g sg e = false ->
                In e (entries (rename_subgroup g sg new_name db)))
  /\ map e_id (entries (rename_subgroup g sg new_name db))
     = map e_id (entries db).
Proof.
  intros Hc Hn. split.
  { intros e rest Hin Hst Hparts. split.
    - unfold rename_subgroup. cbn [entries commit with_entries].
      apply in_map_iff. exists e. split; [|exact Hin].
      unfold is_processed, in_subgroup_named, renamed_subgroup_tags.
      rewrite Hst, Hparts, !String.eqb_refl. reflexivity.
    - cbn [e_tags set_tags].
      pose proof (tag_parts_pieces (e_tags e)) as Hp. rewrite Hparts in Hp.
      inversion Hp as [|? ? Hg Hp']; subst.
      inversion Hp' as [|? ? _ Hrest]; subst.
      rewrite tag_parts_joined.
      + cbn [map]. destruct Hg as (_ & _ & ->). f_equal. f_equal.
        clear - Hrest. induction Hrest as [|q qs (_ & _ & Hq) _ IH];
          simpl; [reflexivity | now rewrite Hq, IH].
      + constructor; [now apply strip_of_piece|].
        constructor; [now split|].
        eapply Forall_impl; [|exact Hrest]. intros q. apply strip_of_piece. }
  split.
  { intros e Hin Hcnd. unfold rename_subgroup.
    cbn [entries commit with_entries].
    apply in_map_iff. exists e. now rewrite Hcnd. }
  unfold rename_subgroup; cbn [entries commit with_entries];
    rewrite map_map; apply map_ext; intros e; now destruct (_ && _).
Qed.

Lemma rename_subgroup_keeps_the_group_witness :
  (forall e rest,
      In e (entries db_with_due_reminder) -> e_status e = processed ->
      AiBridge.tag_parts (e_tags e) = "casa" :: "compras" :: rest ->
      In (set_tags e (join_comma_space ("casa" :: "mercado" :: rest)))
         (entries (rename_subgroup "casa" "compras" "mercado"
                                   db_with_due_reminder))
      /\ AiBridge.tag_parts
           (e_tags (set_tags e
                      (join_comma_space ("casa" :: "mercado" :: rest))))
         = "casa" :: strip "mercado" :: rest)
  /\ (forall e, In e (entries db_with_due_reminder) ->
                is_processed e && in_subgroup_named "casa" "compras" e = false ->
                In e (entries (rename_subgroup "casa" "compras" "mercado"
                                               db_with_due_reminder)))
  /\ map e_id (entries (rename_subgroup "casa" "compras" "mercado"
                                        db_with_due_reminder))
     = map e_id (entries db_with_due_reminder).
Proof.
  apply (rename_subgroup_keeps_the_group
           "casa" "compras" "mercado" db_with_due_reminder); reflexivity.
Defined.

Lemma find_after_discard (i : nat) (es : list InboxEntry) (e : InboxEntry) :
  find (fun x => e_id x =? i) es = Some e ->
  find (fun x => e_id x =? i)
       (map (fun x => if e_id x =? i then set_status x discarded else x) es)
  = Some (set_status e discarded).
Proof.
  induction es as [|a es IH]; simpl; [discriminate|].
  destruct (e_id a =? i) eqn:E; simpl.
  - rewrite E. intros H; inversion H; reflexivity.
  - rewrite E. exact IH.
Qed.

(** X29: [discard_entry] answers 404 for an unknown key and changes
    nothing; for a known key the row stays in the table with status
    [discarded] and all its other columns, no processed row carries that
    key any more (so the delete resolver, the summarizer and the snapshot
    no longer see it), and rows with another key are left as they were. *)
Theorem discard_entry_hides_the_entry (entry_id : nat) (db : Db) :
  (entry_by_id db entry_id = None ->
   discard_entry entry_id db = Raise (HTTPException 404) db)
  /\ (forall e,
         entry_by_id db entry_id = Some e ->
         exists db1,
           discard_entry entry_id db = Ok db1
           /\ entry_by_id db1 entry_id = Some (set_status e discarded)
           /\ (forall x, In x (processed_entries db1) -> e_id x <> entry_id)
           /\ (forall x, In x (entries db) -> e_id x <> entry_id ->
                         In x (entries db1))
           /\ map e_content (entries db1) = map e_content (entries db)).
Proof.
  split; [intros H; unfold discard_entry; now rewrite H|].
  intros e Hf. unfold discard_entry. rewrite Hf.
  pose proof (find_some _ _ Hf) as [_ Hid]. apply Nat.eqb_eq in Hid.
  eexists. split; [reflexivity|]. rewrite Hid.
  unfold entry_by_id, processed_entries in *.
  cbn [entries commit with_entries]. split.
  { now apply find_after_discard. }
  split.
  { intros x Hx. apply filter_In in Hx as [Hx Hp].
    apply in_map_iff in Hx as (y & <- & Hy).
    destruct (e_id y =? entry_id) eqn:E; [discriminate|].
    now apply Nat.eqb_neq. }
  split.
  { intros x Hx Hne. apply in_map_iff. exists x. split; [|exact Hx].
    apply Nat.eqb_neq in Hne. now rewrite Hne. }
  rewrite map_map. apply map_ext. intros x. now destruct (e_id x =? entry_id).
Qed.

End SubgroupFacts.
